(** * InstancesSet: a consistent snapshot of the instances of a study

    Shallow embedding of [orthanc_api_client/instances_set.py].

    The class talks to an Orthanc server through its [api_client] and
    calls back into caller-supplied functions ([filter], [processor]).
    Both are outside of the class: they are modelled as operations that
    an environment answers, either with a value or with an exception,
    while threading a state of its own (the server can change between two
    requests, a callback can have effects).  Every operation that is
    issued is appended to a trace together with its answer, which is what
    the statements about requests and invocations are about.  A callback
    sees the environment, not the collection it is called from.

    [from_series] and [from_instance], which no statement below is about,
    are left out.  The resource classes ([Resources], [Studies],
    [Instances]) are embedded after the sample environments, in modules
    of their names, with an environment of their own. *)

From Stdlib Require Import ZArith.
From stdpp Require Import base strings list gmap.

Open Scope string_scope.
Open Scope list_scope.
Open Scope Z_scope.
Open Scope nat_scope.

(** ** Python lists and dictionaries *)

(** [l.remove(x)]: drops the first occurrence of [x]; [None] stands for
    the [ValueError] raised when [x] does not occur. *)
Fixpoint list_remove (x : string) (l : list string) : option (list string) :=
  match l with
  | [] => None
  | y :: l' => if decide (x = y) then Some l' else (y ::.) <$> list_remove x l'
  end.

Module Dict.
(** A [dict] with string keys keeps its entries in insertion order; it
    is the list of its items.  A dictionary never holds a key twice,
    which is [wf]. *)
Abbreviation t V := (list (string * V)).

Definition wf {V} (d : t V) : Prop := NoDup d.*1.

Definition keys {V} (d : t V) : list string := d.*1.

Definition values {V} (d : t V) : list V := d.*2.

(** [d[k]]; [None] stands for [KeyError]. *)
Fixpoint get {V} (k : string) (d : t V) : option V :=
  match d with
  | [] => None
  | (k', v) :: d' => if decide (k = k') then Some v else get k d'
  end.

(** [k in d] *)
Definition mem {V} (k : string) (d : t V) : bool := bool_decide (is_Some (get k d)).

(** [d[k] = v]: an existing key keeps its position, a new one goes last. *)
Fixpoint set {V} (k : string) (v : V) (d : t V) : t V :=
  match d with
  | [] => [(k, v)]
  | (k', v') :: d' => if decide (k = k') then (k, v) :: d' else (k', v') :: set k v d'
  end.

(** [del d[k]]; [None] stands for [KeyError]. *)
Fixpoint del {V} (k : string) (d : t V) : option (t V) :=
  match d with
  | [] => None
  | (k', v') :: d' => if decide (k = k') then Some d' else ((k', v') ::.) <$> del k d'
  end.
End Dict.

(** ** The class state *)

Record InstancesSet := mkInstancesSet {
  study_id : option string;
  _by_series : Dict.t (list string);
  _all_instances_ids : list string
}.

(** [InstancesSet(api_client)] *)
Definition InstancesSet_new : InstancesSet :=
  {| study_id := None; _by_series := []; _all_instances_ids := [] |}.

Definition set_study_id (v : option string) (s : InstancesSet) : InstancesSet :=
  {| study_id := v; _by_series := _by_series s; _all_instances_ids := _all_instances_ids s |}.

Definition set_by_series (d : Dict.t (list string)) (s : InstancesSet) : InstancesSet :=
  {| study_id := study_id s; _by_series := d; _all_instances_ids := _all_instances_ids s |}.

Definition set_all_instances_ids (l : list string) (s : InstancesSet) : InstancesSet :=
  {| study_id := study_id s; _by_series := _by_series s; _all_instances_ids := l |}.

(** [_add_series]: only ever called on an object that the caller has just
    created and that nothing else references (the local [instances_set],
    [filtered]), so the object goes in and out as a value. *)
Definition _add_series (series_id : string) (instances_ids : list string)
    (s : InstancesSet) : InstancesSet :=
  {| study_id := study_id s;
     _by_series := Dict.set series_id instances_ids (_by_series s);
     _all_instances_ids := _all_instances_ids s ++ instances_ids |}.

(** Modelled from the spec: the class [Study] (study.py) is not among the
    sources.  Section 6 has [getStudy(studyId) -> Study], a study that
    exposes its series-identifier list, and section 4.1 has [fromStudy]
    take a pre-fetched study or a bare identifier, fetching from the
    server if only an identifier is given.  A [Study] has its identifier
    and, when it is pre-fetched, the series-identifier list that was
    fetched with it ([info_series_ids]); the handle that [Studies.get]
    builds from an identifier has none yet, and reading
    [study.info.series_ids] of such a study asks the server, which is the
    operation [study_info_series_ids] below. *)
Record Study := mkStudy {
  orthanc_id : string;
  info_series_ids : option (list string)
}.

(** [api_client.studies.get(orthanc_id)], resources/studies.py *)
Definition studies_get (id : string) : Study :=
  {| orthanc_id := id; info_series_ids := None |}.

(** ** Requests, answers and the environment *)

Inductive exn :=
| ValueError
| KeyError
| IndexError
| External (name : string).

Inductive Res (A : Type) :=
| Val (a : A)
| Exc (e : exn).
Arguments Val {A} a.
Arguments Exc {A} e.

(** The body of [tools/bulk-modify]; the three tag sets are present only
    when the caller gave a non-empty one. *)
Record BulkModifyQuery := mkBulkModifyQuery {
  Force : bool;
  Resources : list string;
  KeepSource : bool;
  Level : string;
  Replace : option (list (string * string));
  Remove : option (list string);
  Keep : option (list string)
}.

Inductive Json :=
| BulkDeleteBody (resources : list string)
| BulkModifyBody (query : BulkModifyQuery).

(** One element of the [Resources] array of a bulk-modify answer. *)
Record Resource := mkResource {
  Type_ : string;
  ID : string
}.

Record Response := mkResponse {
  status_code : Z;
  json_Resources : list Resource
}.

(** What the class asks of its environment.  The client classes
    (api_client.py, resources/series.py) are not among the sources: their
    methods are operations that the environment answers. *)
Inductive Op : Type -> Type :=
(** [api_client.series.get_instances_ids(orthanc_id)] *)
| series_get_instances_ids (orthanc_id : string) : Op (list string)
(** fetching the series-identifier list of the study [orthanc_id], which
    reading [study.info.series_ids] does when the study is not pre-fetched *)
| study_info_series_ids (orthanc_id : string) : Op (list string)
(** [api_client.post(endpoint, json)] *)
| post (endpoint : string) (json : Json) : Op Response
(** [filter(api_client, instance_id)], truth value of the result *)
| filter_call (instance_id : string) : Op bool
(** [processor(api_client, instance_id)] *)
| processor_call (instance_id : string) : Op unit.

Inductive Event : Type :=
| Called {X : Type} (op : Op X) (answer : Res X).

(** The environment: the server and the callbacks, with the state they
    share, and the order in which the Python runtime enumerates a [set]
    (any order, each element once). *)
Record Env := mkEnv {
  World : Type;
  handle : forall X, Op X -> World -> Res X * World;
  list_of_set : gset string -> list string;
  list_of_set_perm : forall X, list_of_set X ≡ₚ elements X
}.
Arguments handle e {X} op w.

Section Client.
Context {E : Env}.

(** The receiver [self] of the running method, the environment's state
    and the trace of what has been asked so far. *)
Record State := mkState {
  self : InstancesSet;
  world : World E;
  trace : list Event
}.

Definition M (A : Type) : Type := State -> Res A * State.

#[export] Instance M_ret : MRet M := fun A a st => (Val a, st).

#[export] Instance M_bind : MBind M := fun A B f m st =>
  match m st with
  | (Val a, st') => f a st'
  | (Exc e, st') => (Exc e, st')
  end.

Definition raise {A} (e : exn) : M A := fun st => (Exc e, st).

Definition call {X} (op : Op X) : M X := fun st =>
  let '(r, w) := handle E op (world st) in
  (r, {| self := self st; world := w; trace := trace st ++ [Called op r] |}).

Definition get_self : M InstancesSet := fun st => (Val (self st), st).

Definition put_self (s : InstancesSet) : M unit := fun st =>
  (Val tt, {| self := s; world := world st; trace := trace st |}).

Definition of_option {A} (e : exn) (o : option A) : M A :=
  match o with
  | Some a => mret a
  | None => raise e
  end.

(** [for x in l: acc = body(acc, x)] *)
Fixpoint for_fold {A B} (l : list A) (acc : B) (body : B -> A -> M B) : M B :=
  match l with
  | [] => mret acc
  | x :: l' => acc' ← body acc x; for_fold l' acc' body
  end.

(** [for x in l: body(x)] *)
Fixpoint for_each {A} (l : list A) (body : A -> M unit) : M unit :=
  match l with
  | [] => mret tt
  | x :: l' => body x;; for_each l' body
  end.

(** *** Accessors *)

Definition instances_ids : M (list string) :=
  s ← get_self; mret (_all_instances_ids s).

Definition series_ids : M (list string) :=
  s ← get_self; mret (Dict.keys (_by_series s)).

Definition get_instances_ids (series_id : string) : M (list string) :=
  s ← get_self;
  if Dict.mem series_id (_by_series s)
  then of_option KeyError (Dict.get series_id (_by_series s))
  else mret [].

(** *** Construction *)

(** [study.info.series_ids]: the list of a pre-fetched study, without a
    request, or else the answer of the server. *)
Definition study_series_ids (study : Study) : M (list string) :=
  match info_series_ids study with
  | Some series_ids => mret series_ids
  | None => call (study_info_series_ids (orthanc_id study))
  end.

(** [add_series] on a freshly created object, see [_add_series]. *)
Definition add_series (series_id : string) (s : InstancesSet) : M InstancesSet :=
  instances_ids ← call (series_get_instances_ids series_id);
  mret (_add_series series_id instances_ids s).

(** [from_study(api_client, study_id, study)]: the study comes as an
    object or, without one, as an identifier. *)
Definition from_study (study_id : string) (study : option Study) : M InstancesSet :=
  let instances_set := InstancesSet_new in
  let study :=
    match study with
    | Some study => study
    | None => studies_get study_id
    end in
  let instances_set := set_study_id (Some (orthanc_id study)) instances_set in
  series ← study_series_ids study;
  for_fold series instances_set (fun instances_set series_id =>
    add_series series_id instances_set).

(** *** delete *)

Definition delete : M unit :=
  ids ← instances_ids;
  call (post "tools/bulk-delete" (BulkDeleteBody ids));;
  mret tt.

(** *** modify *)

Definition non_empty {A} (o : option (list A)) : bool :=
  match o with
  | Some (_ :: _) => true
  | _ => false
  end.

Definition classify (acc : list string * list string * list string) (r : Resource)
    : list string * list string * list string :=
  let '(modified_studies_ids, modified_series_ids, modified_instances_ids) := acc in
  let modified_studies_ids :=
    if decide (Type_ r = "Study") then modified_studies_ids ++ [ID r] else modified_studies_ids in
  let modified_series_ids :=
    if decide (Type_ r = "Series") then modified_series_ids ++ [ID r] else modified_series_ids in
  let modified_instances_ids :=
    if decide (Type_ r = "Instance") then modified_instances_ids ++ [ID r] else modified_instances_ids in
  (modified_studies_ids, modified_series_ids, modified_instances_ids).

Definition modify_query (ids : list string)
    (replace_tags : option (list (string * string)))
    (remove_tags keep_tags : option (list string))
    (keep_source force : bool) : BulkModifyQuery :=
  {| Force := force;
     Resources := ids;
     KeepSource := keep_source;
     Level := "Instance";
     Replace := if non_empty replace_tags then replace_tags else None;
     Remove := if non_empty remove_tags then remove_tags else None;
     Keep := if non_empty keep_tags then keep_tags else None |}.

(** The body of the loop over [modified_series_ids]. *)
Definition add_modified_series (modified_instances_ids : list string)
    (modified_set : InstancesSet) (s : string) : M InstancesSet :=
  l ← call (series_get_instances_ids s);
  let series_all_instances_ids : gset string := list_to_set l in
  let series_instances_ids :=
    list_of_set E (series_all_instances_ids ∩ list_to_set modified_instances_ids) in
  mret {| study_id := study_id modified_set;
          _by_series := Dict.set s series_instances_ids (_by_series modified_set);
          _all_instances_ids := _all_instances_ids modified_set ++ series_instances_ids |}.

Definition modify
    (replace_tags : option (list (string * string)))
    (remove_tags keep_tags : option (list string))
    (keep_source force : bool) : M (option InstancesSet) :=
  ids ← instances_ids;
  let query := modify_query ids replace_tags remove_tags keep_tags keep_source force in
  r ← call (post "tools/bulk-modify" (BulkModifyBody query));
  if decide (status_code r = 200%Z) then
    let modified_set := InstancesSet_new in
    let '(modified_studies_ids, modified_series_ids, modified_instances_ids) :=
      foldl classify ([], [], []) (json_Resources r) in
    s ← get_self;
    if negb (length modified_studies_ids =? 1) then mret None
    else if negb (length modified_series_ids =? length (Dict.keys (_by_series s))) then mret None
    else if negb (length modified_instances_ids =? length (_all_instances_ids s)) then mret None
    else
      modified_set ← for_fold modified_series_ids modified_set
                       (add_modified_series modified_instances_ids);
      first ← of_option IndexError (modified_studies_ids !! 0);
      mret (Some (set_study_id (Some first) modified_set))
  else mret None.

(** *** filter_instances *)

(** [self._by_series[series_id].remove(i)] *)
Definition by_series_remove (series_id i : string) : M unit :=
  s ← get_self;
  l ← of_option KeyError (Dict.get series_id (_by_series s));
  l' ← of_option ValueError (list_remove i l);
  put_self (set_by_series (Dict.set series_id l' (_by_series s)) s).

(** [self._all_instances_ids.remove(i)] *)
Definition all_instances_ids_remove (i : string) : M unit :=
  s ← get_self;
  l' ← of_option ValueError (list_remove i (_all_instances_ids s));
  put_self (set_all_instances_ids l' s).

(** [del self._by_series[s]] *)
Definition by_series_del (series_id : string) : M unit :=
  s ← get_self;
  d ← of_option KeyError (Dict.del series_id (_by_series s));
  put_self (set_by_series d s).

(** The loop that collects the instances the filter rejects. *)
Definition collect_instances_to_delete (instances_ids : list string) : M (list string) :=
  for_fold instances_ids [] (fun instances_to_delete instance_id =>
    keep ← call (filter_call instance_id);
    mret (if negb keep then instances_to_delete ++ [instance_id]
          else instances_to_delete)).

(** The loop that removes them from the receiver. *)
Definition remove_instances (series_id : string) (instances_to_delete : list string) : M unit :=
  for_each instances_to_delete (fun i =>
    by_series_remove series_id i;;
    all_instances_ids_remove i).

(** The body of the loop over [self._by_series.items()].  The value
    [instances_ids] of the item is the very list that
    [self._by_series[series_id]] holds, untouched until this iteration. *)
Definition filter_series (acc : list string * InstancesSet)
    (item : string * list string) : M (list string * InstancesSet) :=
  let '(series_to_delete, filtered) := acc in
  let '(series_id, instances_ids) := item in
  instances_to_delete ← collect_instances_to_delete instances_ids;
  remove_instances series_id instances_to_delete;;
  s ← get_self;
  l ← of_option KeyError (Dict.get series_id (_by_series s));
  let series_to_delete :=
    if length l =? 0 then series_to_delete ++ [series_id] else series_to_delete in
  mret (series_to_delete, _add_series series_id instances_to_delete filtered).

Definition filter_instances : M InstancesSet :=
  s ← get_self;
  let series_to_delete : list string := [] in
  let filtered := set_study_id (study_id s) InstancesSet_new in
  '(series_to_delete, filtered) ←
    for_fold (_by_series s) (series_to_delete, filtered) filter_series;
  for_each series_to_delete by_series_del;;
  mret filtered.

(** *** process_instances *)

Definition process_instances : M unit :=
  s ← get_self;
  for_each (_all_instances_ids s) (fun instance_id => call (processor_call instance_id)).

End Client.

(** ** Closed forms used by the statements *)

(** [l.remove(x)] where it succeeds. *)
Fixpoint remove_first (x : string) (l : list string) : list string :=
  match l with
  | [] => []
  | y :: l' => if decide (x = y) then l' else y :: remove_first x l'
  end.

(** [l] after [l.remove(x)] for each [x] of [rej], in turn. *)
Definition minus (l rej : list string) : list string :=
  foldl (fun l x => remove_first x l) l rej.

(** The identifiers of [ids] that the filter rejected, given its answers
    in order. *)
Fixpoint rejected (ids : list string) (answers : list bool) : list string :=
  match ids, answers with
  | i :: ids', b :: answers' =>
      if b then rejected ids' answers' else i :: rejected ids' answers'
  | _, _ => []
  end.

Definition item_after (item : string * list string) (answers : list bool)
    : string * list string :=
  (item.1, minus item.2 (rejected item.2 answers)).

Definition item_rejected (item : string * list string) (answers : list bool)
    : string * list string :=
  (item.1, rejected item.2 answers).

(** The series left without instances, and the mapping without them. *)
Definition emptied (d : Dict.t (list string)) : list string :=
  (filter (fun item => length item.2 = 0) d).*1.

Definition drop_empty (d : Dict.t (list string)) : Dict.t (list string) :=
  filter (fun item => length item.2 ≠ 0) d.

(** The identifiers that a bulk-modify answer lists for one resource type. *)
Definition ids_of_type (ty : string) (rs : list Resource) : list string :=
  ID <$> filter (fun r => Type_ r = ty) rs.

(** What [modify] keeps of a series: the identifiers the server lists for
    it that are among the modified ones. *)
Definition intersect (E : Env) (modified_instances_ids l : list string) : list string :=
  list_of_set E (list_to_set l ∩ list_to_set modified_instances_ids).

(** [_all_instances_ids] is the flattening of [_by_series]. *)
Definition in_sync (s : InstancesSet) : Prop :=
  Dict.wf (_by_series s)
  ∧ _all_instances_ids s = concat (Dict.values (_by_series s)).

(** A snapshot in which no instance identifier occurs twice. *)
Definition duplicate_free (s : InstancesSet) : Prop :=
  in_sync s ∧ NoDup (_all_instances_ids s).

(** Weaker than [in_sync]: every occurrence of an identifier in
    [_by_series] has an occurrence of its own in [_all_instances_ids]. *)
Definition covered (s : InstancesSet) : Prop :=
  Dict.wf (_by_series s)
  ∧ concat (Dict.values (_by_series s)) ⊆+ _all_instances_ids s.

(** The invariant of the data model: as many identifiers in the mapping
    as in the flat list, each of which belongs to exactly one series. *)
Definition snapshot_invariant (s : InstancesSet) : Prop :=
  sum_list (length <$> Dict.values (_by_series s)) = length (_all_instances_ids s)
  ∧ ∀ i, i ∈ _all_instances_ids s →
      ∃ k, (∃ v, Dict.get k (_by_series s) = Some v ∧ i ∈ v)
           ∧ ∀ k', (∃ v, Dict.get k' (_by_series s) = Some v ∧ i ∈ v) → k' = k.

Section Asking.
Context {E : Env}.

(** The answers of the environment to one operation per identifier, asked
    in order from the state [w], up to the first exception. *)
Fixpoint ask_each {X} (mk : string -> Op X) (ids : list string) (w : World E)
    : Res (list X) * World E * list Event :=
  match ids with
  | [] => (Val [], w, [])
  | i :: ids' =>
      match handle E (mk i) w with
      | (Val a, w1) =>
          match ask_each mk ids' w1 with
          | (Val l, w2, evs) => (Val (a :: l), w2, Called (mk i) (Val a) :: evs)
          | (Exc e, w2, evs) => (Exc e, w2, Called (mk i) (Val a) :: evs)
          end
      | (Exc e, w1) => (Exc e, w1, [Called (mk i) (Exc e)])
      end
  end.

(** The same, for identifiers that come in groups. *)
Fixpoint ask_groups {X} (mk : string -> Op X) (groups : list (list string)) (w : World E)
    : Res (list (list X)) * World E * list Event :=
  match groups with
  | [] => (Val [], w, [])
  | g :: groups' =>
      match ask_each mk g w with
      | (Val a, w1, evs1) =>
          match ask_groups mk groups' w1 with
          | (Val l, w2, evs2) => (Val (a :: l), w2, evs1 ++ evs2)
          | (Exc e, w2, evs2) => (Exc e, w2, evs1 ++ evs2)
          end
      | (Exc e, w1, evs1) => (Exc e, w1, evs1)
      end
  end.

(** What reading [study.info.series_ids] comes to from the state [w]: the
    list, the state afterwards and the request that was made, which is
    none for a pre-fetched study. *)
Definition read_series_ids (study : Study) (w : World E)
    : Res (list string) * World E * list Event :=
  match info_series_ids study with
  | Some series_ids => (Val series_ids, w, [])
  | None =>
      let '(r, w1) := handle E (study_info_series_ids (orthanc_id study)) w in
      (r, w1, [Called (study_info_series_ids (orthanc_id study)) r])
  end.

End Asking.

(** The filter of the environment [E] cannot raise on the identifiers of
    [ids]. *)
Definition filter_total_on (E : Env) (ids : list string) : Prop :=
  ∀ i w, i ∈ ids → ∃ b w', handle E (filter_call i) w = (Val b, w').

(** The filter of [E] answers [b] on [i] whatever the state. *)
Definition filter_always (E : Env) (b : bool) (i : string) : Prop :=
  ∀ w, ∃ w', handle E (filter_call i) w = (Val b, w').

(** ** Sample environments

    A server with one study [S1] of two series, [A] with the instances
    [i1], [i2] and [B] with the instance [i3], which is the scenario of the
    specification; the series [A2], [B2], [D2], [D3] are what a
    bulk-modify can create.  The environment counts the operations it has
    answered.  The answer to a [post], the filter and the instances on
    which the processor raises are parameters. *)

Definition sample_instances (series_id : string) : Res (list string) :=
  if decide (series_id = "A") then Val ["i1"; "i2"]
  else if decide (series_id = "B") then Val ["i3"]
  else if decide (series_id = "A2") then Val ["j1"; "j2"; "x9"]
  else if decide (series_id = "B2") then Val ["j3"]
  else if decide (series_id = "D2") then Val ["j1"; "j2"; "j3"]
  else if decide (series_id = "D3") then Val ["j1"; "j2"; "j3"]
  else Exc (External "ResourceNotFound").

Definition sample_handle (answer : Response) (keep raises : string -> bool)
    (X : Type) (op : Op X) (w : nat) : Res X * nat :=
  match op in Op X return Res X * nat with
  | series_get_instances_ids series_id => (sample_instances series_id, S w)
  | study_info_series_ids orthanc_id =>
      (if decide (orthanc_id = "S1") then Val ["A"; "B"]
       else Exc (External "ResourceNotFound"), S w)
  | post endpoint json => (Val answer, S w)
  | filter_call instance_id => (Val (keep instance_id), S w)
  | processor_call instance_id =>
      (if raises instance_id then Exc (External "processor") else Val tt, S w)
  end.

Definition sample_env (answer : Response) (keep raises : string -> bool) : Env :=
  {| World := nat;
     handle := sample_handle answer keep raises;
     list_of_set := elements;
     list_of_set_perm := fun X => Permutation_refl (elements X) |}.

(** The snapshot of [S1]. *)
Definition sample_set : InstancesSet :=
  {| study_id := Some "S1";
     _by_series := [("A", ["i1"; "i2"]); ("B", ["i3"])];
     _all_instances_ids := ["i1"; "i2"; "i3"] |}.

Definition modified (series1 series2 : string) : Response :=
  {| status_code := 200;
     json_Resources :=
       [ {| Type_ := "Study"; ID := "S2" |};
         {| Type_ := "Series"; ID := series1 |};
         {| Type_ := "Series"; ID := series2 |};
         {| Type_ := "Instance"; ID := "j1" |};
         {| Type_ := "Instance"; ID := "j2" |};
         {| Type_ := "Instance"; ID := "j3" |} ] |}.

Definition refused : Response :=
  {| status_code := 500; json_Resources := [] |}.

Definition keep_all (i : string) : bool := true.
Definition never (i : string) : bool := false.

(** A clean modification, one that lists the series [D2] twice, and one
    whose two series the server lists with the same instances. *)
Definition clean_env : Env := sample_env (modified "A2" "B2") keep_all never.
Definition repeated_series_env : Env := sample_env (modified "D2" "D2") keep_all never.
Definition shared_instances_env : Env := sample_env (modified "D2" "D3") keep_all never.
Definition refusing_env : Env := sample_env refused keep_all never.

(** A filter that rejects [i3], the only instance of [B], and a processor
    that raises on [i2]. *)
Definition rejecting_env : Env :=
  sample_env refused (fun i => bool_decide (i ≠ "i3")) (fun i => bool_decide (i = "i2")).

Definition sample_state (E : Env) (w : World E) (s : InstancesSet) : @State E :=
  @mkState E s w [].

(** Closes a decidable goal about the sample data by evaluation. *)
Ltac by_computation := apply (bool_decide_unpack _); vm_compute; exact I.

(** ** Filters that are predicates, and an environment that fails *)

(** The filter of [E] is the predicate [p] on the identifiers of [ids]:
    it answers [p i] on [i], whatever the state. *)
Definition filter_is (E : Env) (p : string -> bool) (ids : list string) : Prop :=
  ∀ i w, i ∈ ids → ∃ w', handle E (filter_call i) w = (Val (p i), w').

(** What a predicate keeps of each series, and what it rejects. *)
Definition kept_items (p : string -> bool) (d : Dict.t (list string)) : Dict.t (list string) :=
  (fun item => (item.1, filter (fun i => Is_true (p i)) item.2)) <$> d.

Definition rejected_items (p : string -> bool) (d : Dict.t (list string))
    : Dict.t (list string) :=
  (fun item => (item.1, filter (fun i => ¬ Is_true (p i)) item.2)) <$> d.

(** A server on which requests fail: the study [S1] lists a series [C]
    that the server does not have, between [A] and [B]; the study [S3]
    lists the series [A] twice; a bulk-modify of no instance fails, any
    other one answers with the series [A2] and a series [C2] that the
    server does not have; the filter rejects [i1], keeps [i2] and raises on
    every other instance. *)
Definition faulty_handle (X : Type) (op : Op X) (w : nat) : Res X * nat :=
  match op in Op X return Res X * nat with
  | series_get_instances_ids series_id => (sample_instances series_id, S w)
  | study_info_series_ids orthanc_id =>
      (if decide (orthanc_id = "S1") then Val ["A"; "C"; "B"]
       else if decide (orthanc_id = "S3") then Val ["A"; "B"; "A"]
       else Exc (External "ResourceNotFound"), S w)
  | post endpoint json =>
      (match json with
       | BulkModifyBody {| Resources := [] |} => Exc (External "HttpError")
       | _ => Val (modified "A2" "C2")
       end, S w)
  | filter_call instance_id =>
      (if decide (instance_id = "i1") then Val false
       else if decide (instance_id = "i2") then Val true
       else Exc (External "filter"), S w)
  | processor_call instance_id => (Val tt, S w)
  end.

Definition faulty_env : Env :=
  {| World := nat;
     handle := faulty_handle;
     list_of_set := elements;
     list_of_set_perm := fun X => Permutation_refl (elements X) |}.

(** * The resource classes

    Shallow embedding of the class [Resources] of
    [orthanc_api_client/resources.py] and of methods of its subclasses
    [Studies] ([resources/studies.py]) and [Instances]
    ([resources/instances.py]).  A resource object holds its
    [_url_segment], which never changes, and talks to the server through
    the methods of its [api_client], which are operations that an
    environment answers, as above.  Logging is left out. *)

Module Rest.

Definition bytes := list Byte.byte.

(** The body of an anonymize or modify request; a tag set is present
    only when the caller gave a non-empty one. *)
Record Query := mkQuery {
  Force : bool;
  Replace : option (list (string * string));
  Remove : option (list string);
  Keep : option (list string)
}.

(** What the methods read of an HTTP response: [r.status_code],
    [r.json()['ID']], [r.content] and [r.headers.get('etag')]. *)
Record Response := mkResponse {
  status_code : Z;
  json_ID : string;
  content : bytes;
  etag : option string
}.

(** What the methods read of the JSON document of a study. *)
Record StudyInfo := mkStudyInfo {
  Series : list string;
  ParentPatient : string
}.

(** The methods of [api_client] (api_client.py is not among the
    sources).  [get_json] is read as a list of identifiers or as the
    document of a study, as its caller does. *)
Inductive Op : Type -> Type :=
(** [api_client.get_json(url)], a list of identifiers *)
| get_json_ids (url : string) : Op (list string)
(** [api_client.get_json(url)], the document of a study *)
| get_json_study (url : string) : Op StudyInfo
(** [api_client.get(relative_url, headers)] *)
| get (relative_url : string) (headers : list (string * string)) : Op Response
(** [api_client.delete(url)] *)
| delete (url : string) : Op unit
(** [api_client.post(url, json)] *)
| post (url : string) (json : Query) : Op Response
(** [api_client.upload(dicom)] *)
| upload (dicom : option bytes) : Op (list string)
(** [api_client.series.get_instances_ids(orthanc_id)] *)
| series_get_instances_ids (orthanc_id : string) : Op (list string)
(** [api_client.instances.is_pdf(instance_id)], which reads the tags of
    the instance (tags.py is not among the sources) *)
| instances_is_pdf (instance_id : string) : Op bool.

Inductive Event : Type :=
| Called {X : Type} (op : Op X) (answer : Res X).

Record Env := mkEnv {
  World : Type;
  handle : forall X, Op X -> World -> Res X * World
}.
Arguments handle e {X} op w.

Section Monad.
Context {E : Env}.

(** The state of the server and the trace of what has been asked so far. *)
Record State := mkState {
  world : World E;
  trace : list Event
}.

Definition M (A : Type) : Type := State -> Res A * State.

#[global] Instance M_ret : MRet M := fun A a st => (Val a, st).

#[global] Instance M_bind : MBind M := fun A B f m st =>
  match m st with
  | (Val a, st') => f a st'
  | (Exc e, st') => (Exc e, st')
  end.

Definition raise {A} (e : exn) : M A := fun st => (Exc e, st).

Definition call {X} (op : Op X) : M X := fun st =>
  let '(r, w) := handle E op (world st) in
  (r, {| world := w; trace := trace st ++ [Called op r] |}).

(** [try: a = m; except caught: return handler] followed by [k a] *)
Definition try_except {A B} (m : M A) (caught : exn -> bool) (handler : M B)
    (k : A -> M B) : M B := fun st =>
  match m st with
  | (Val a, st') => k a st'
  | (Exc e, st') => if caught e then handler st' else (Exc e, st')
  end.

Definition of_option {A} (e : exn) (o : option A) : M A :=
  match o with
  | Some a => mret a
  | None => raise e
  end.

(** [for x in l: acc = body(acc, x)] *)
Fixpoint for_fold {A B} (l : list A) (acc : B) (body : B -> A -> M B) : M B :=
  match l with
  | [] => mret acc
  | x :: l' => acc' ← body acc x; for_fold l' acc' body
  end.

(** [for x in l: body(x)] *)
Fixpoint for_each {A} (l : list A) (body : A -> M unit) : M unit :=
  match l with
  | [] => mret tt
  | x :: l' => body x;; for_each l' body
  end.

(** The answers of the environment to one operation per identifier, asked
    in order from the state [w], up to the first exception. *)
Fixpoint ask_each {X} (mk : string -> Op X) (ids : list string) (w : World E)
    : Res (list X) * World E * list Event :=
  match ids with
  | [] => (Val [], w, [])
  | i :: ids' =>
      match handle E (mk i) w with
      | (Val a, w1) =>
          match ask_each mk ids' w1 with
          | (Val l, w2, evs) => (Val (a :: l), w2, Called (mk i) (Val a) :: evs)
          | (Exc e, w2, evs) => (Exc e, w2, Called (mk i) (Val a) :: evs)
          end
      | (Exc e, w1) => (Exc e, w1, [Called (mk i) (Exc e)])
      end
  end.

End Monad.

(** [except ResourceNotFound] *)
Definition is_ResourceNotFound (e : exn) : bool :=
  match e with
  | External name => bool_decide (name = "ResourceNotFound")
  | _ => false
  end.

End Rest.

(** ** [Resources], resources.py *)

Module Resources.
Section Methods.
Context {E : Rest.Env}.
Local Abbreviation M := (@Rest.M E).
(** [self._url_segment] *)
Variable url_segment : string.

(** [self._api_client.get_json(f"/{self._url_segment}/")] *)
Definition get_all_ids : M (list string) :=
  Rest.call (Rest.get_json_ids ("/" +:+ url_segment +:+ "/")).

(** The second [if] of [delete], which is what [self.delete(orthanc_id=oi)]
    comes to: without [orthanc_ids] the first [if] is skipped.  An
    identifier that is [None] or empty is false. *)
Definition delete_one (orthanc_id : option string) : M unit :=
  match orthanc_id with
  | Some orthanc_id =>
      if bool_decide (orthanc_id ≠ "")
      then Rest.call (Rest.delete ("/" +:+ url_segment +:+ "/" +:+ orthanc_id))
      else mret tt
  | None => mret tt
  end.

Definition delete (orthanc_id : option string) (orthanc_ids : option (list string))
    : M unit :=
  (if non_empty orthanc_ids
   then Rest.for_each (default [] orthanc_ids) (fun oi => delete_one (Some oi))
   else mret tt);;
  delete_one orthanc_id.

Definition delete_all : M (list string) :=
  all_ids ← get_all_ids;
  let deleted_ids : list string := [] in
  Rest.for_fold all_ids deleted_ids (fun deleted_ids orthanc_id =>
    delete (Some orthanc_id) None;;
    mret (deleted_ids ++ [orthanc_id])).

Definition get_attachment_with_revision (orthanc_id attachment_name : string)
    : M (Rest.bytes * option string) :=
  let headers := [] in
  response ← Rest.call (Rest.get ("/" +:+ url_segment +:+ "/" +:+ orthanc_id
                                   +:+ "/attachments/" +:+ attachment_name +:+ "/data")
                                 headers);
  mret (Rest.content response, Rest.etag response).

Definition get_attachment (orthanc_id attachment_name : string) : M Rest.bytes :=
  '(content, revision) ← get_attachment_with_revision orthanc_id attachment_name;
  mret content.

(** The content is [default_value], which can be [None], or bytes. *)
Definition get_metadata_with_revision (orthanc_id metadata_name : string)
    (default_value : option Rest.bytes) : M (option Rest.bytes * option string) :=
  let headers := [] in
  Rest.try_except
    (Rest.call (Rest.get ("/" +:+ url_segment +:+ "/" +:+ orthanc_id
                           +:+ "/metadata/" +:+ metadata_name)
                         headers))
    Rest.is_ResourceNotFound
    (mret (default_value, None))
    (fun response => mret (Some (Rest.content response), Rest.etag response)).

Definition get_metadata (orthanc_id metadata_name : string)
    (default_value : option Rest.bytes) : M (option Rest.bytes) :=
  '(content, revision) ← get_metadata_with_revision orthanc_id metadata_name default_value;
  mret content.

Definition _anonymize (orthanc_id : string)
    (replace_tags : option (list (string * string))) (keep_tags : option (list string))
    (delete_original force : bool) : M (option string) :=
  let query :=
    {| Rest.Force := force;
       Rest.Replace := if non_empty replace_tags then replace_tags else None;
       Rest.Remove := None;
       Rest.Keep := if non_empty keep_tags then keep_tags else None |} in
  r ← Rest.call (Rest.post ("/" +:+ url_segment +:+ "/" +:+ orthanc_id +:+ "/anonymize")
                           query);
  if decide (Rest.status_code r = 200%Z) then
    let anonymized_id := Rest.json_ID r in
    (if delete_original && bool_decide (anonymized_id ≠ orthanc_id)
     then delete (Some orthanc_id) None
     else mret tt);;
    mret (Some anonymized_id)
  else mret None.

Definition _modify (orthanc_id : string)
    (replace_tags : option (list (string * string))) (remove_tags : option (list string))
    (delete_original force : bool) : M (option string) :=
  let query :=
    {| Rest.Force := force;
       Rest.Replace := if non_empty replace_tags then replace_tags else None;
       Rest.Remove := if non_empty remove_tags then remove_tags else None;
       Rest.Keep := None |} in
  r ← Rest.call (Rest.post ("/" +:+ url_segment +:+ "/" +:+ orthanc_id +:+ "/modify")
                           query);
  if decide (Rest.status_code r = 200%Z) then
    let modified_id := Rest.json_ID r in
    (if delete_original && bool_decide (modified_id ≠ orthanc_id)
     then delete (Some orthanc_id) None
     else mret tt);;
    mret (Some modified_id)
  else mret None.

End Methods.
End Resources.

(** ** [Studies], resources/studies.py *)

Module Studies.
Section Methods.
Context {E : Rest.Env}.
Local Abbreviation M := (@Rest.M E).

(** [super().__init__(api_client=api_client, url_segment='studies')] *)
Definition url_segment : string := "studies".

Definition get_instances_ids (orthanc_id : string) : M (list string) :=
  let instances_ids : list string := [] in
  study_info ← Rest.call (Rest.get_json_study (url_segment +:+ "/" +:+ orthanc_id));
  Rest.for_fold (Rest.Series study_info) instances_ids (fun instances_ids series_id =>
    l ← Rest.call (Rest.series_get_instances_ids series_id);
    mret (instances_ids ++ l)).

Definition get_series_ids (orthanc_id : string) : M (list string) :=
  study_info ← Rest.call (Rest.get_json_study (url_segment +:+ "/" +:+ orthanc_id));
  mret (Rest.Series study_info).

Definition get_first_instance_id (orthanc_id : string) : M string :=
  l ← get_instances_ids orthanc_id;
  Rest.of_option IndexError (l !! 0).

Definition get_parent_patient_id (orthanc_id : string) : M string :=
  study_info ← Rest.call (Rest.get_json_study (url_segment +:+ "/" +:+ orthanc_id));
  mret (Rest.ParentPatient study_info).

(** The inner loop of [get_pdf_instances]. *)
Definition collect_pdf (pdf_ids : list string) (instances_ids : list string)
    : M (list string) :=
  Rest.for_fold instances_ids pdf_ids (fun pdf_ids instance_id =>
    is_pdf ← Rest.call (Rest.instances_is_pdf instance_id);
    mret (if is_pdf : bool then pdf_ids ++ [instance_id] else pdf_ids)).

Definition get_pdf_instances (study_id : string)
    (max_instance_count_in_series_to_analyze : Z) : M (list string) :=
  let pdf_ids : list string := [] in
  series_list ← get_series_ids study_id;
  Rest.for_fold series_list pdf_ids (fun pdf_ids series_id =>
    instances_ids ← Rest.call (Rest.series_get_instances_ids series_id);
    if (0 <? max_instance_count_in_series_to_analyze)%Z
       && (Z.of_nat (length instances_ids) <=? max_instance_count_in_series_to_analyze)%Z
    then collect_pdf pdf_ids instances_ids
    else mret pdf_ids).

End Methods.
End Studies.

(** ** [Instances], resources/instances.py *)

Module Instances.
Section Methods.
Context {E : Rest.Env}.
Local Abbreviation M := (@Rest.M E).

(** [super().__init__(api_client=api_client, url_segment='instances')] *)
Definition url_segment : string := "instances".

Definition modify (orthanc_id : string)
    (replace_tags : option (list (string * string))) (remove_tags : option (list string))
    (force : bool) : M (option Rest.bytes) :=
  let query :=
    {| Rest.Force := force;
       Rest.Replace := if non_empty replace_tags then replace_tags else None;
       Rest.Remove := if non_empty remove_tags then remove_tags else None;
       Rest.Keep := None |} in
  r ← Rest.call (Rest.post ("instances/" +:+ orthanc_id +:+ "/modify") query);
  if decide (Rest.status_code r = 200%Z) then mret (Some (Rest.content r))
  else mret None.

(** The body of the loop of [modify_bulk]; [self.delete] is the method
    of the base class [Resources], with the segment [instances]. *)
Definition modify_and_upload
    (replace_tags : option (list (string * string))) (remove_tags : option (list string))
    (delete_original force : bool)
    (modified_instances_ids : list string) (orthanc_id : string) : M (list string) :=
  modified_dicom ← modify orthanc_id replace_tags remove_tags force;
  uploaded ← Rest.call (Rest.upload modified_dicom);
  modified_instance_id ← Rest.of_option IndexError (uploaded !! 0);
  (if delete_original && bool_decide (modified_instance_id ≠ orthanc_id)
   then Resources.delete url_segment (Some orthanc_id) None
   else mret tt);;
  mret (modified_instances_ids ++ [modified_instance_id]).

Definition modify_bulk (orthanc_ids : list string)
    (replace_tags : option (list (string * string))) (remove_tags : option (list string))
    (delete_original force : bool) : M (list string) :=
  let modified_instances_ids : list string := [] in
  Rest.for_fold orthanc_ids modified_instances_ids
    (modify_and_upload replace_tags remove_tags delete_original force).

End Methods.
End Instances.

(** ** Closed forms and a sample server for the resource classes *)

(** The identifiers for which [Resources.delete] sends a request, in
    order: the ones of [orthanc_ids], then [orthanc_id]; an identifier
    that is empty is passed over. *)
Definition delete_targets (orthanc_id : option string) (orthanc_ids : option (list string))
    : list string :=
  filter (fun i => i ≠ "") (default [] orthanc_ids ++ option_list orthanc_id).

(** The request that deletes the resource [i]. *)
Definition delete_request (url_segment i : string) : Rest.Op unit :=
  Rest.delete ("/" +:+ url_segment +:+ "/" +:+ i).

(** What [_anonymize] and [_modify] do once the server has answered the
    request [request] with [r]: nothing more unless the status is 200;
    then the original [orthanc_id] is deleted, with one request, when this
    is asked for and the new resource is another one, and the identifier
    of the new resource is returned, unless the deletion fails. *)
Definition replaces_original {E : Rest.Env} (url_segment orthanc_id : string)
    (delete_original : bool) (request : Rest.Op Rest.Response)
    (run : @Rest.M E (option string)) : Prop :=
  ∀ st r w1,
    Rest.handle E request (Rest.world st) = (Val r, w1) →
    let st1 := Rest.mkState w1 (Rest.trace st ++ [Rest.Called request (Val r)]) in
    let deletion := delete_request url_segment orthanc_id in
    (Rest.status_code r ≠ 200%Z → run st = (Val None, st1))
    ∧ (Rest.status_code r = 200%Z →
       delete_original = false ∨ Rest.json_ID r = orthanc_id ∨ orthanc_id = "" →
       run st = (Val (Some (Rest.json_ID r)), st1))
    ∧ (Rest.status_code r = 200%Z →
       delete_original = true → Rest.json_ID r ≠ orthanc_id → orthanc_id ≠ "" →
       run st =
         match Rest.handle E deletion w1 with
         | (Val _, w2) =>
             (Val (Some (Rest.json_ID r)),
              Rest.mkState w2 (Rest.trace st1 ++ [Rest.Called deletion (Val tt)]))
         | (Exc e, w2) =>
             (Exc e, Rest.mkState w2 (Rest.trace st1 ++ [Rest.Called deletion (Exc e)]))
         end).

(** The instances on which [is_pdf] has answered true, in a trace. *)
Definition pdf_answer (ev : Rest.Event) : option string :=
  match ev with
  | Rest.Called op answer =>
      match op in Rest.Op X return Res X -> option string with
      | Rest.instances_is_pdf instance_id => fun answer =>
          match answer with
          | Val true => Some instance_id
          | _ => None
          end
      | _ => fun _ => None
      end answer
  end.

(** The outcome of a loop that appends to [acc] the PDF answers of its
    own requests, and nothing else. *)
Definition appends_pdf_answers {E : Rest.Env} (acc : list string) (st : @Rest.State E)
    (run : Res (list string) * @Rest.State E) : Prop :=
  ∃ evs, Rest.trace run.2 = Rest.trace st ++ evs
         ∧ ∀ res, run.1 = Val res → res = acc ++ omap pdf_answer evs.

(** The first identifier of the answer to an upload, in a trace. *)
Definition upload_answer (ev : Rest.Event) : option string :=
  match ev with
  | Rest.Called op answer =>
      match op in Rest.Op X return Res X -> option string with
      | Rest.upload dicom => fun answer =>
          match answer with
          | Val (i :: _) => Some i
          | _ => None
          end
      | _ => fun _ => None
      end answer
  end.

Definition is_delete (ev : Rest.Event) : bool :=
  match ev with
  | Rest.Called (Rest.delete _) _ => true
  | _ => false
  end.

(** What [Instances.modify_bulk] and its loop leave in the trace, from
    the state [st] and the identifiers [acc], for the input [ids]: no
    deletion when [delete_original] is not set, deletions of instances of
    [ids] only, and a result that extends [acc] by the first identifier of
    each upload answer, one per identifier of [ids]. *)
Definition bulk_outcome {E : Rest.Env} (delete_original : bool) (ids acc : list string)
    (st : @Rest.State E) (run : Res (list string) * @Rest.State E) : Prop :=
  ∃ evs,
    Rest.trace run.2 = Rest.trace st ++ evs
    ∧ (delete_original = false → Forall (fun ev => is_delete ev = false) evs)
    ∧ Forall (fun ev => is_delete ev = true →
                ∃ i a, i ∈ ids ∧ ev = Rest.Called (delete_request "instances" i) a) evs
    ∧ ∀ res, run.1 = Val res →
        res = acc ++ omap upload_answer evs ∧ length res = length acc + length ids.

(** A server with the studies [S1], of the series [A] (instances [i1],
    [i2]) and [B] (instance [i3], a PDF), and [S9], without series.
    Anonymizing [S1] gives the study [S1a], modifying it gives [S1]
    itself; every other request of the kind is refused.  The study [S2]
    cannot be deleted.  An upload gives the instance [n1]. *)
Definition rest_sample_handle (X : Type) (op : Rest.Op X) (w : nat) : Res X * nat :=
  match op in Rest.Op X return Res X * nat with
  | Rest.get_json_ids url =>
      (if decide (url = "/studies/") then Val ["S1"; ""; "S9"]
       else if decide (url = "/patients/") then Val ["P1"; "S2"; "P3"]
       else Val [], S w)
  | Rest.get_json_study url =>
      (if decide (url = "studies/S1")
       then Val {| Rest.Series := ["A"; "B"]; Rest.ParentPatient := "P1" |}
       else if decide (url = "studies/S9")
       then Val {| Rest.Series := []; Rest.ParentPatient := "P1" |}
       else Exc (External "ResourceNotFound"), S w)
  | Rest.get relative_url headers =>
      (if decide (relative_url = "/studies/S1/metadata/LastUpdate")
       then Val {| Rest.status_code := 200; Rest.json_ID := "";
                   Rest.content := [Byte.x32; Byte.x30]; Rest.etag := Some "7" |}
       else if decide (relative_url = "/studies/S2/metadata/LastUpdate")
       then Exc (External "HttpError")
       else Exc (External "ResourceNotFound"), S w)
  | Rest.delete url =>
      (if decide (url = "/studies/S2") then Exc (External "HttpError")
       else if decide (url = "/patients/S2") then Exc (External "HttpError")
       else Val tt, S w)
  | Rest.post url json =>
      (Val (if decide (url = "/studies/S1/anonymize")
            then {| Rest.status_code := 200; Rest.json_ID := "S1a";
                    Rest.content := []; Rest.etag := None |}
            else if decide (url = "/studies/S1/modify")
            then {| Rest.status_code := 200; Rest.json_ID := "S1";
                    Rest.content := []; Rest.etag := None |}
            else if decide (url = "instances/i1/modify")
            then {| Rest.status_code := 200; Rest.json_ID := "";
                    Rest.content := [Byte.x64]; Rest.etag := None |}
            else {| Rest.status_code := 404; Rest.json_ID := "";
                    Rest.content := []; Rest.etag := None |}), S w)
  | Rest.upload dicom => (Val ["n1"], S w)
  | Rest.series_get_instances_ids orthanc_id =>
      (if decide (orthanc_id = "A") then Val ["i1"; "i2"]
       else if decide (orthanc_id = "B") then Val ["i3"]
       else Exc (External "ResourceNotFound"), S w)
  | Rest.instances_is_pdf instance_id => (Val (bool_decide (instance_id = "i3")), S w)
  end.

Definition rest_sample_env : Rest.Env :=
  {| Rest.World := nat; Rest.handle := rest_sample_handle |}.

Definition rest_sample_state (w : nat) : @Rest.State rest_sample_env :=
  @Rest.mkState rest_sample_env w [].

(** ** Lists *)

Lemma list_remove_Some x l : x ∈ l → list_remove x l = Some (remove_first x l).
Proof.
  induction l as [|y l IH]; intros Hin; [by apply elem_of_nil in Hin|].
  simpl. destruct (decide (x = y)) as [->|Hne]; [done|].
  apply elem_of_cons in Hin as [?|Hin]; [done|]. by rewrite IH.
Qed.

Lemma list_remove_None x l : x ∉ l → list_remove x l = None.
Proof.
  induction l as [|y l IH]; intros Hin; [done|].
  simpl. apply not_elem_of_cons in Hin as [? ?].
  destruct (decide (x = y)); [done|]. by rewrite IH.
Qed.

Lemma remove_first_perm x l : x ∈ l → l ≡ₚ x :: remove_first x l.
Proof.
  induction l as [|y l IH]; intros Hin; [by apply elem_of_nil in Hin|].
  simpl. destruct (decide (x = y)) as [->|Hne]; [done|].
  apply elem_of_cons in Hin as [?|Hin]; [done|].
  rewrite (IH Hin) at 1. apply Permutation_swap.
Qed.

Lemma remove_first_app_l x l k : x ∈ l → remove_first x (l ++ k) = remove_first x l ++ k.
Proof.
  induction l as [|y l IH]; intros Hin; [by apply elem_of_nil in Hin|].
  simpl. destruct (decide (x = y)) as [->|Hne]; [done|].
  apply elem_of_cons in Hin as [?|Hin]; [done|]. by rewrite IH.
Qed.

Lemma remove_first_app_r x l k : x ∉ l → remove_first x (l ++ k) = l ++ remove_first x k.
Proof.
  induction l as [|y l IH]; intros Hin; [done|].
  simpl. apply not_elem_of_cons in Hin as [? ?].
  destruct (decide (x = y)); [done|]. by rewrite IH.
Qed.

Lemma minus_cons l x rej : minus l (x :: rej) = minus (remove_first x l) rej.
Proof. done. Qed.

Lemma minus_app l r1 r2 : minus l (r1 ++ r2) = minus (minus l r1) r2.
Proof. apply foldl_app. Qed.

Lemma minus_perm rej : ∀ l, rej ⊆+ l → l ≡ₚ rej ++ minus l rej.
Proof.
  induction rej as [|x rej IH]; intros l Hsub; [done|].
  rewrite minus_cons.
  assert (x ∈ l) as Hx.
  { eapply elem_of_submseteq; [|done]. left. }
  pose proof (remove_first_perm x l Hx) as Hp.
  assert (rej ⊆+ remove_first x l) as Hsub'.
  { rewrite Hp in Hsub. by apply (submseteq_app_inv_l _ _ [x]) in Hsub. }
  simpl. rewrite <- (IH _ Hsub'). done.
Qed.

Lemma minus_submseteq l rej : rej ⊆+ l → minus l rej ⊆+ l.
Proof.
  intros H. rewrite (minus_perm rej l H) at 2. apply submseteq_inserts_l. done.
Qed.


Lemma minus_app_l rej : ∀ l k, rej ⊆+ l → minus (l ++ k) rej = minus l rej ++ k.
Proof.
  induction rej as [|x rej IH]; intros l k Hsub; [done|].
  rewrite !minus_cons.
  assert (x ∈ l) as Hx.
  { eapply elem_of_submseteq; [|done]. left. }
  rewrite remove_first_app_l by done. apply IH.
  rewrite (remove_first_perm x l Hx) in Hsub.
  by apply (submseteq_app_inv_l _ _ [x]) in Hsub.
Qed.

Lemma minus_app_r rej : ∀ l k, (∀ x, x ∈ rej → x ∉ l) → minus (l ++ k) rej = l ++ minus k rej.
Proof.
  induction rej as [|x rej IH]; intros l k Hdisj; [done|].
  rewrite !minus_cons. rewrite remove_first_app_r.
  - apply IH. intros y Hy. apply Hdisj. by right.
  - apply Hdisj. left.
Qed.

Lemma rejected_sublist ids : ∀ answers, rejected ids answers `sublist_of` ids.
Proof.
  induction ids as [|i ids IH]; intros [|[] answers]; simpl;
    try apply sublist_nil_l.
  - by apply sublist_cons.
  - by apply sublist_skip.
Qed.

Lemma rejected_all_true ids answers : Forall (λ b, b = true) answers → rejected ids answers = [].
Proof.
  intros H. revert ids. induction H as [|b answers -> _ IH]; intros [|i ids]; simpl; auto.
Qed.


(** ** Dictionaries *)

Section DictFacts.
Context {V : Type}.
Implicit Types (d : Dict.t V) (k : string) (v : V).

Lemma get_None k d : Dict.get k d = None ↔ k ∉ Dict.keys d.
Proof.
  unfold Dict.keys. induction d as [|[k' v'] d IH]; simpl.
  - split; [intros _; apply not_elem_of_nil|done].
  - rewrite not_elem_of_cons. destruct (decide (k = k')) as [Heq|Hne].
    + split; [done|]. by intros [? _].
    + rewrite IH. split; [by intros|]. by intros [_ ?].
Qed.

Lemma get_Some_elem k v d : Dict.get k d = Some v → (k, v) ∈ d.
Proof.
  induction d as [|[k' v'] d IH]; simpl; [done|].
  destruct (decide (k = k')) as [->|]; [intros [= ->]; left|].
  intros. right. auto.
Qed.

Lemma get_app_notin k d1 d2 : k ∉ Dict.keys d1 → Dict.get k (d1 ++ d2) = Dict.get k d2.
Proof.
  unfold Dict.keys. induction d1 as [|[k' v'] d1 IH]; simpl; [done|].
  rewrite not_elem_of_cons. intros [? ?]. rewrite decide_False by done. auto.
Qed.

Lemma get_cons_eq k v d : Dict.get k ((k, v) :: d) = Some v.
Proof. simpl. by rewrite decide_True. Qed.

Lemma get_wf_elem k v d : Dict.wf d → (k, v) ∈ d → Dict.get k d = Some v.
Proof.
  unfold Dict.wf. induction d as [|[k' v'] d IH]; simpl.
  - intros _ H. by apply elem_of_nil in H.
  - rewrite NoDup_cons. intros [Hk Hd] [[= -> ->]|Hin]%elem_of_cons.
    + by rewrite decide_True.
    + destruct (decide (k = k')) as [->|]; [|auto].
      exfalso. apply Hk. apply list_elem_of_fmap. by exists (k', v).
Qed.

Lemma set_app_notin k v v0 d1 d2 :
  k ∉ Dict.keys d1 → Dict.set k v (d1 ++ (k, v0) :: d2) = d1 ++ (k, v) :: d2.
Proof.
  unfold Dict.keys. induction d1 as [|[k' v'] d1 IH]; simpl.
  - intros _. by rewrite decide_True.
  - rewrite not_elem_of_cons. intros [? ?]. rewrite decide_False by done.
    f_equal. auto.
Qed.

Lemma set_fresh k v d : k ∉ Dict.keys d → Dict.set k v d = d ++ [(k, v)].
Proof.
  unfold Dict.keys. induction d as [|[k' v'] d IH]; simpl; [done|].
  rewrite not_elem_of_cons. intros [? ?]. rewrite decide_False by done.
  f_equal. auto.
Qed.

Lemma del_app_notin k v0 d1 d2 :
  k ∉ Dict.keys d1 → Dict.del k (d1 ++ (k, v0) :: d2) = Some (d1 ++ d2).
Proof.
  unfold Dict.keys. induction d1 as [|[k' v'] d1 IH]; simpl.
  - intros _. by rewrite decide_True.
  - rewrite not_elem_of_cons. intros [? ?]. rewrite decide_False by done.
    by rewrite IH.
Qed.

Lemma mem_false k d : k ∉ Dict.keys d → Dict.mem k d = false.
Proof.
  intros H. unfold Dict.mem. apply bool_decide_eq_false.
  apply get_None in H. rewrite H. by intros [? ?].
Qed.

Lemma mem_true k d : k ∈ Dict.keys d → Dict.mem k d = true.
Proof.
  intros H. unfold Dict.mem. apply bool_decide_eq_true.
  destruct (Dict.get k d) eqn:Hg; [done|]. by apply get_None in Hg.
Qed.
End DictFacts.

(** ** The monad *)

Section MonadFacts.
Context {E : Env}.
Implicit Types (st : @State E).

Lemma bind_unfold {A B} (m : M A) (f : A → M B) st :
  (m ≫= f) st =
    match m st with
    | (Val a, st') => f a st'
    | (Exc e, st') => (Exc e, st')
    end.
Proof. done. Qed.

Lemma ret_unfold {A} (a : A) st : (mret a : M A) st = (Val a, st).
Proof. done. Qed.

Lemma for_fold_cons {A B} (x : A) l (acc : B) (body : B → A → M B) st :
  for_fold (x :: l) acc body st =
    match body acc x st with
    | (Val acc', st') => for_fold l acc' body st'
    | (Exc e, st') => (Exc e, st')
    end.
Proof. done. Qed.

Lemma for_each_cons {A} (x : A) l (body : A → M unit) st :
  for_each (x :: l) body st =
    match body x st with
    | (Val _, st') => for_each l body st'
    | (Exc e, st') => (Exc e, st')
    end.
Proof. done. Qed.

Lemma bind_Val_inv {A B} (m : M A) (f : A → M B) st b st' :
  (m ≫= f) st = (Val b, st') → ∃ a st1, m st = (Val a, st1) ∧ f a st1 = (Val b, st').
Proof.
  unfold mbind, M_bind. destruct (m st) as [[a|e] st1]; [eauto|done].
Qed.

Lemma for_fold_invariant {A B} (P : B → Prop) (body : B → A → M B) l :
  (∀ acc x st r st', P acc → body acc x st = (Val r, st') → P r) →
  ∀ acc st r st', P acc → for_fold l acc body st = (Val r, st') → P r.
Proof.
  intros Hbody. induction l as [|x l IH]; intros acc st r st' HP; simpl.
  - by intros [= <- <-].
  - intros (acc' & st1 & H1 & H2)%bind_Val_inv. eauto.
Qed.

Lemma call_eq {X} (op : Op X) st :
  call op st =
    ((handle E op (world st)).1,
     mkState (self st) (handle E op (world st)).2
             (trace st ++ [Called op (handle E op (world st)).1])).
Proof. unfold call. by destruct (handle E op (world st)). Qed.
End MonadFacts.

(** ** Asking the environment *)

Section Asked.
Context {E : Env}.
Implicit Types (st : @State E).

(** A loop of calls is the environment asked in order. *)
Lemma for_each_call {X} (mk : string → Op X) (body : string → M unit) ids :
  (∀ i st, body i st =
     match call (mk i) st with
     | (Val _, st') => (Val tt, st')
     | (Exc e, st') => (Exc e, st')
     end) →
  ∀ st,
  for_each ids body st =
    match ask_each mk ids (world st) with
    | (Val _, w, evs) => (Val tt, mkState (self st) w (trace st ++ evs))
    | (Exc e, w, evs) => (Exc e, mkState (self st) w (trace st ++ evs))
    end.
Proof.
  intros Hbody. induction ids as [|i ids IH]; intros st; simpl.
  - rewrite app_nil_r. by destruct st.
  - unfold mbind, M_bind. rewrite Hbody, call_eq.
    destruct (handle E (mk i) (world st)) as [[a|e] w1]; simpl; [|done].
    rewrite IH. simpl.
    destruct (ask_each mk ids w1) as [[[l|e] w2] evs]; simpl;
      by rewrite <- app_assoc.
Qed.

(** The shape of the events of [ask_each]: one per identifier, in order,
    up to and including the first exception. *)
Lemma ask_each_Val {X} (mk : string → Op X) ids : ∀ (w : World E) l w' evs,
  ask_each mk ids w = (Val l, w', evs) →
  length l = length ids
  ∧ evs = zip_with (λ i a, Called (mk i) (Val a)) ids l
  ∧ Forall2 (λ i a, ∃ w1 w2, handle E (mk i) w1 = (Val a, w2)) ids l.
Proof.
  induction ids as [|i ids IH]; intros w l w' evs; simpl.
  - intros [= <- <- <-]. done.
  - destruct (handle E (mk i) w) as [[a|e] w1] eqn:Hh; [|done].
    destruct (ask_each mk ids w1) as [[[l'|e] w2] evs'] eqn:Ha; [|done].
    intros [= <- <- <-]. destruct (IH _ _ _ _ Ha) as (Hlen & -> & HF).
    simpl. split_and!; [by rewrite Hlen|done|].
    constructor; [eauto|done].
Qed.

Lemma ask_each_Exc {X} (mk : string → Op X) ids : ∀ (w : World E) e w' evs,
  ask_each mk ids w = (Exc e, w', evs) →
  ∃ pre i post l,
    ids = pre ++ i :: post
    ∧ length l = length pre
    ∧ evs = zip_with (λ i a, Called (mk i) (Val a)) pre l ++ [Called (mk i) (Exc e)].
Proof.
  induction ids as [|i ids IH]; intros w e w' evs; simpl; [done|].
  destruct (handle E (mk i) w) as [[a|e'] w1] eqn:Hh.
  - destruct (ask_each mk ids w1) as [[[l'|e'] w2] evs'] eqn:Ha; [done|].
    intros [= <- <- <-]. destruct (IH _ _ _ _ Ha) as (pre & j & post & l & -> & Hlen & ->).
    exists (i :: pre), j, post, (a :: l). simpl. by rewrite Hlen.
  - intros [= <- <- <-]. by exists [], i, ids, [].
Qed.
Lemma zip_with_unit {A} (f : string → unit → A) ids : ∀ l,
  length l = length ids → zip_with f ids l = (λ i, f i tt) <$> ids.
Proof.
  induction ids as [|i ids IH]; intros [|[] l] Hlen; simpl in *; try done.
  f_equal. apply IH. lia.
Qed.
End Asked.

(** ** The answer to a bulk-modify *)

Section Answer.
Context {E : Env}.
Implicit Types (st : @State E).

Lemma foldl_classify rs : ∀ a b c,
  foldl classify (a, b, c) rs =
    (a ++ ids_of_type "Study" rs, b ++ ids_of_type "Series" rs,
     c ++ ids_of_type "Instance" rs).
Proof.
  unfold ids_of_type.
  induction rs as [|r rs IH]; intros a b c; simpl.
  - by rewrite !app_nil_r.
  - rewrite IH. rewrite !filter_cons.
    repeat case_decide; simpl; rewrite <- ?app_assoc; done.
Qed.

(** [modify] once the server has answered the request. *)
Lemma modify_answered st replace_tags remove_tags keep_tags keep_source force r w1 :
  let s := self st in
  let op := post "tools/bulk-modify"
              (BulkModifyBody (modify_query (_all_instances_ids s) replace_tags
                                 remove_tags keep_tags keep_source force)) in
  let st1 := mkState s w1 (trace st ++ [Called op (Val r)]) in
  let studies := ids_of_type "Study" (json_Resources r) in
  let series := ids_of_type "Series" (json_Resources r) in
  let instances := ids_of_type "Instance" (json_Resources r) in
  handle E op (world st) = (Val r, w1) →
  modify replace_tags remove_tags keep_tags keep_source force st =
    if decide (status_code r = 200%Z) then
      if negb (length studies =? 1) then (Val None, st1)
      else if negb (length series =? length (Dict.keys (_by_series s))) then (Val None, st1)
      else if negb (length instances =? length (_all_instances_ids s)) then (Val None, st1)
      else
        (modified_set ← for_fold series InstancesSet_new (add_modified_series instances);
         first ← of_option IndexError (studies !! 0);
         mret (Some (set_study_id (Some first) modified_set))) st1
    else (Val None, st1).
Proof.
  intros s op st1 studies series instances Hh. unfold modify, instances_ids.
  unfold mbind at 1 2, M_bind at 1 2. unfold get_self at 1. unfold mret at 1, M_ret at 1.
  unfold mbind at 1, M_bind at 1. rewrite call_eq. fold s op. rewrite Hh. simpl.
  fold st1. case_decide; [|done].
  rewrite (foldl_classify (json_Resources r) [] [] []). simpl.
  fold studies series instances.
  unfold mbind at 1, M_bind at 1. unfold get_self at 1.
  replace (self st1) with s by done.
  repeat (case_match; [done|]). done.
Qed.
End Answer.

Section DictMore.
Context {V : Type}.
Implicit Types (d : Dict.t V) (k : string) (v : V).

Lemma set_get_same k v d : Dict.get k d = Some v → Dict.set k v d = d.
Proof.
  induction d as [|[k' v'] d IH]; simpl; [done|].
  destruct (decide (k = k')) as [->|]; [by intros [= ->]|].
  intros H. by rewrite IH.
Qed.

Lemma get_set_eq k v d : Dict.get k (Dict.set k v d) = Some v.
Proof.
  induction d as [|[k' v'] d IH]; simpl.
  - by rewrite decide_True.
  - destruct (decide (k = k')) as [->|]; simpl.
    + by rewrite decide_True.
    + by rewrite decide_False.
Qed.

Lemma set_set k v1 v2 d : Dict.set k v2 (Dict.set k v1 d) = Dict.set k v2 d.
Proof.
  induction d as [|[k' v'] d IH]; simpl.
  - by rewrite decide_True.
  - destruct (decide (k = k')) as [->|]; simpl.
    + by rewrite decide_True.
    + rewrite decide_False by done. by rewrite IH.
Qed.

End DictMore.

(** ** The loops of [filter_instances] *)

Section FilterLoops.
Context {E : Env}.
Implicit Types (st : @State E).

Lemma collect_run ids : ∀ acc st,
  for_fold ids acc (fun instances_to_delete instance_id =>
      keep ← call (filter_call instance_id);
      mret (if negb keep then instances_to_delete ++ [instance_id]
            else instances_to_delete)) st =
    match ask_each filter_call ids (world st) with
    | (Val m, w, evs) =>
        (Val (acc ++ rejected ids m), mkState (self st) w (trace st ++ evs))
    | (Exc e, w, evs) => (Exc e, mkState (self st) w (trace st ++ evs))
    end.
Proof.
  induction ids as [|i ids IH]; intros acc st; simpl.
  - rewrite !app_nil_r. by destruct st.
  - rewrite !bind_unfold, call_eq.
    destruct (handle E (filter_call i) (world st)) as [[b|e] w1]; simpl; [|done].
    rewrite ?ret_unfold, IH. simpl.
    destruct (ask_each filter_call ids w1) as [[[m|e] w2] evs]; simpl;
      rewrite <- ?app_assoc; [|done].
    destruct b; simpl; [done|]. by rewrite <- app_assoc.
Qed.

Lemma by_series_remove_run k x st v :
  Dict.get k (_by_series (self st)) = Some v →
  x ∈ v →
  by_series_remove k x st =
    (Val tt,
     mkState (set_by_series (Dict.set k (remove_first x v) (_by_series (self st))) (self st))
             (world st) (trace st)).
Proof.
  intros Hget Hx. unfold by_series_remove, mbind, M_bind, get_self.
  rewrite Hget. simpl. by rewrite (list_remove_Some x v Hx).
Qed.

Lemma all_instances_ids_remove_run x st :
  x ∈ _all_instances_ids (self st) →
  all_instances_ids_remove x st =
    (Val tt,
     mkState (set_all_instances_ids (remove_first x (_all_instances_ids (self st))) (self st))
             (world st) (trace st)).
Proof.
  intros Hx. unfold all_instances_ids_remove, mbind, M_bind, get_self.
  by rewrite (list_remove_Some x _ Hx).
Qed.

Lemma by_series_del_run k st d :
  Dict.del k (_by_series (self st)) = Some d →
  by_series_del k st = (Val tt, mkState (set_by_series d (self st)) (world st) (trace st)).
Proof.
  intros Hdel. unfold by_series_del, mbind, M_bind, get_self. by rewrite Hdel.
Qed.

Lemma remove_instances_run k rej : ∀ st v,
  Dict.get k (_by_series (self st)) = Some v →
  rej ⊆+ v →
  rej ⊆+ _all_instances_ids (self st) →
  remove_instances k rej st =
    (Val tt,
     mkState {| study_id := study_id (self st);
                _by_series := Dict.set k (minus v rej) (_by_series (self st));
                _all_instances_ids := minus (_all_instances_ids (self st)) rej |}
             (world st) (trace st)).
Proof.
  unfold remove_instances.
  induction rej as [|x rej IH]; intros st v Hget Hv Ha.
  - cbn [for_each minus foldl]. rewrite set_get_same by done.
    by destruct st as [[sid d a] w t].
  - assert (x ∈ v) as Hxv by (eapply elem_of_submseteq; [left|done]).
    assert (x ∈ _all_instances_ids (self st)) as Hxa
      by (eapply elem_of_submseteq; [left|done]).
    rewrite for_each_cons, bind_unfold.
    rewrite (by_series_remove_run k x st v) by done.
    rewrite all_instances_ids_remove_run by done.
    rewrite (IH _ (remove_first x v)).
    + cbn [self world trace set_all_instances_ids set_by_series study_id
           _by_series _all_instances_ids]. by rewrite set_set.
    + apply get_set_eq.
    + rewrite (remove_first_perm x v Hxv) in Hv.
      by apply (submseteq_app_inv_l _ _ [x]) in Hv.
    + cbn [self set_all_instances_ids _all_instances_ids].
      rewrite (remove_first_perm x _ Hxa) in Ha at 1.
      by apply (submseteq_app_inv_l _ _ [x]) in Ha.
Qed.

Lemma emptied_cons k v d :
  emptied ((k, v) :: d) = if length v =? 0 then k :: emptied d else emptied d.
Proof.
  unfold emptied. rewrite filter_cons. cbn [snd].
  destruct (decide (length v = 0)) as [->|Hne]; [done|].
  apply Nat.eqb_neq in Hne. by rewrite Hne.
Qed.

Lemma drop_empty_cons k v d :
  drop_empty ((k, v) :: d) = if length v =? 0 then drop_empty d else (k, v) :: drop_empty d.
Proof.
  unfold drop_empty. rewrite filter_cons. cbn [snd].
  destruct (decide (length v ≠ 0)) as [Hne|Heq].
  - apply Nat.eqb_neq in Hne. by rewrite Hne.
  - apply dec_stable in Heq. by rewrite Heq.
Qed.

Lemma filter_loop its : ∀ done marks st std flt w' evs,
  _by_series (self st) = done ++ its →
  Dict.wf (done ++ its) →
  ask_groups filter_call its.*2 (world st) = (Val marks, w', evs) →
  concat (zip_with rejected its.*2 marks) ⊆+ _all_instances_ids (self st) →
  for_fold its (std, flt) filter_series st =
    (Val (std ++ emptied (zip_with item_after its marks),
          foldl (fun f item => _add_series item.1 item.2 f) flt
                (zip_with item_rejected its marks)),
     mkState {| study_id := study_id (self st);
                _by_series := done ++ zip_with item_after its marks;
                _all_instances_ids :=
                  minus (_all_instances_ids (self st))
                        (concat (zip_with rejected its.*2 marks)) |}
             w' (trace st ++ evs)).
Proof.
  induction its as [|[k v] its IH];
    intros done marks st std flt w' evs Hd Hwf Hask Hsub.
  - injection Hask as <- <- <-. destruct st as [[sid d a] w t]. simpl in *.
    subst d. by rewrite !app_nil_r.
  - cbn [fmap list_fmap ask_groups] in Hask. simpl in Hask.
    destruct (ask_each filter_call v (world st)) as [[[m|e] w1] evs1] eqn:Hm; [|done].
    destruct (ask_groups filter_call its.*2 w1) as [[[marks'|e] w2] evs2] eqn:Hms; [|done].
    injection Hask as <- <- <-. simpl in Hsub.
    assert (k ∉ Dict.keys done) as Hk.
    { unfold Dict.wf in Hwf. rewrite fmap_app in Hwf.
      apply NoDup_app in Hwf as (_ & Hwf & _). intros Hin.
      apply (Hwf _ Hin). left. }
    set (rej := rejected v m) in *.
    assert (rej ⊆+ _all_instances_ids (self st)) as Hra
      by (etrans; [|exact Hsub]; by apply submseteq_inserts_r).
    rewrite for_fold_cons. unfold filter_series at 1.
    rewrite bind_unfold. unfold collect_instances_to_delete.
    rewrite collect_run, Hm. cbn [app]. fold rej.
    rewrite bind_unfold.
    rewrite (remove_instances_run k rej _ v); cbn [self world trace].
    2:{ rewrite Hd, get_app_notin by done. apply get_cons_eq. }
    2:{ apply sublist_submseteq, rejected_sublist. }
    2:{ done. }
    rewrite bind_unfold. unfold get_self at 1.
    cbn [self _by_series]. rewrite Hd, set_app_notin by done.
    rewrite bind_unfold.
    rewrite get_app_notin by done. rewrite get_cons_eq.
    cbn [of_option]. rewrite !ret_unfold.
    rewrite (IH (done ++ [(k, minus v rej)]) marks' _ _ _ w2 evs2);
      cbn [self world trace study_id _by_series _all_instances_ids].
    + cbn [zip_with fmap list_fmap concat foldl].
      change (item_after (k, v) m) with (k, minus v rej).
      change (item_rejected (k, v) m) with (k, rej).
      cbn [fst snd]. rewrite emptied_cons, <- !app_assoc. cbn [app].
      rewrite minus_app.
      destruct (length (minus v rej) =? 0); rewrite <- ?app_assoc; reflexivity.
    + by rewrite <- app_assoc.
    + unfold Dict.wf in *. rewrite <- app_assoc. cbn [app].
      rewrite fmap_app in *. done.
    + done.
    + rewrite (minus_perm rej _ Hra) in Hsub at 1.
      by apply submseteq_app_inv_l in Hsub.
Qed.

Lemma del_loop d2 : ∀ d1 st,
  _by_series (self st) = d1 ++ d2 →
  Dict.wf (d1 ++ d2) →
  for_each (emptied d2) by_series_del st =
    (Val tt,
     mkState (set_by_series (d1 ++ drop_empty d2) (self st)) (world st) (trace st)).
Proof.
  induction d2 as [|[k v] d2 IH]; intros d1 st Hd Hwf.
  - destruct st as [[sid d a] w t]. cbn in Hd. subst d.
    unfold emptied, drop_empty, set_by_series. cbn.
    rewrite ret_unfold. by rewrite !app_nil_r.
  - rewrite emptied_cons, drop_empty_cons.
    assert (k ∉ Dict.keys d1) as Hk.
    { unfold Dict.wf in Hwf. rewrite fmap_app in Hwf.
      apply NoDup_app in Hwf as (_ & Hwf & _). intros Hin.
      apply (Hwf _ Hin). left. }
    destruct (length v =? 0).
    + rewrite for_each_cons.
      rewrite (by_series_del_run k st (d1 ++ d2)).
      2:{ rewrite Hd. by apply del_app_notin. }
      rewrite (IH d1); cbn [self world trace set_by_series _by_series]; [done|done|].
      unfold Dict.wf in *. rewrite fmap_app in *. cbn [fmap list_fmap] in Hwf.
      apply NoDup_app in Hwf as (? & Hdisj & [? ?]%NoDup_cons).
      apply NoDup_app. split_and!; [done| |done].
      intros x Hx Hx'. apply (Hdisj x Hx). by right.
    + rewrite (IH (d1 ++ [(k, v)])).
      * by rewrite <- app_assoc.
      * by rewrite <- app_assoc.
      * by rewrite <- app_assoc.
Qed.
End FilterLoops.

(** ** Items and answers *)

Section Items.
Implicit Types (its : list (string * list string)) (marks : list (list bool)).

Lemma keys_zip_with (g : list string → list bool → list string) its : ∀ marks,
  length marks = length its →
  (zip_with (λ item m, (item.1, g item.2 m)) its marks).*1 = its.*1.
Proof.
  induction its as [|[k v] its IH]; intros [|m marks] Hlen; simpl in *; try done.
  f_equal. apply IH. lia.
Qed.

Lemma values_zip_with (g : list string → list bool → list string) its : ∀ marks,
  (zip_with (λ item m, (item.1, g item.2 m)) its marks).*2 = zip_with g its.*2 marks.
Proof.
  induction its as [|[k v] its IH]; intros [|m marks]; simpl in *; try done.
  f_equal. apply IH.
Qed.


Lemma rejected_concat_submseteq (vs : list (list string)) : ∀ marks,
  concat (zip_with rejected vs marks) ⊆+ concat vs.
Proof.
  induction vs as [|v vs IH]; intros [|m marks]; simpl; try done.
  - apply submseteq_nil_l.
  - apply submseteq_app; [|done]. apply sublist_submseteq, rejected_sublist.
Qed.

Lemma minus_concat (vs : list (list string)) : ∀ marks,
  NoDup (concat vs) →
  length marks = length vs →
  minus (concat vs) (concat (zip_with rejected vs marks)) =
    concat (zip_with (λ v m, minus v (rejected v m)) vs marks).
Proof.
  induction vs as [|v vs IH]; intros [|m marks] Hnd Hlen; simpl in *; try done.
  apply NoDup_app in Hnd as (Hv & Hdisj & Hvs).
  assert (rejected v m ⊆+ v) as Hr by apply sublist_submseteq, rejected_sublist.
  rewrite minus_app, minus_app_l by done.
  rewrite minus_app_r.
  - f_equal. apply IH; [done|lia].
  - intros x Hx Hx'.
    apply (Hdisj x).
    + eapply elem_of_submseteq; [exact Hx'|]. by apply minus_submseteq.
    + eapply elem_of_submseteq; [exact Hx|]. apply rejected_concat_submseteq.
Qed.

Lemma concat_drop_empty (d : Dict.t (list string)) :
  concat (drop_empty d).*2 = concat d.*2.
Proof.
  induction d as [|[k v] d IH]; [done|].
  rewrite drop_empty_cons. destruct v as [|x v]; cbn [length Nat.eqb].
  - rewrite fmap_cons. cbn [snd concat app]. exact IH.
  - rewrite !fmap_cons. cbn [snd concat]. by rewrite IH.
Qed.

Lemma drop_empty_sublist (d : Dict.t (list string)) : drop_empty d `sublist_of` d.
Proof. apply sublist_filter. Qed.

Lemma drop_empty_wf (d : Dict.t (list string)) : Dict.wf d → Dict.wf (drop_empty d).
Proof.
  unfold Dict.wf. intros H. eapply sublist_NoDup; [exact H|].
  apply fmap_sublist, drop_empty_sublist.
Qed.

Lemma drop_empty_id (d : Dict.t (list string)) :
  Forall (λ item, item.2 ≠ []) d → drop_empty d = d.
Proof.
  induction 1 as [|[k v] d Hv _ IH]; [done|].
  rewrite drop_empty_cons, IH. by destruct v.
Qed.

Lemma get_drop_empty k (d : Dict.t (list string)) :
  Dict.wf d → Dict.get k d = Some [] → Dict.get k (drop_empty d) = None.
Proof.
  intros Hwf Hget. apply get_None. intros Hin.
  apply list_elem_of_fmap in Hin as ([k' v] & -> & Hin).
  apply list_elem_of_filter in Hin as [Hne Hin]. simpl in *.
  apply (get_wf_elem _ _ _ Hwf) in Hin. rewrite Hget in Hin.
  by injection Hin as <-.
Qed.

End Items.

(** ** [filter_instances] in closed form *)

Section FilterRun.
Context {E : Env}.
Implicit Types (st : @State E).

Lemma ask_each_total {X} (mk : string → Op X) ids :
  (∀ i w, i ∈ ids → ∃ a w', handle E (mk i) w = (Val a, w')) →
  ∀ w : World E, ∃ l w' evs, ask_each mk ids w = (Val l, w', evs).
Proof.
  induction ids as [|i ids IH]; intros Htot w; simpl; [by eauto|].
  destruct (Htot i w) as (a & w1 & ->); [left|].
  destruct (IH (λ j w Hj, Htot j w (list_elem_of_further _ _ _ Hj)) w1)
    as (l & w2 & evs & ->).
  eauto.
Qed.

Lemma ask_groups_total {X} (mk : string → Op X) groups :
  (∀ i w, i ∈ concat groups → ∃ a w', handle E (mk i) w = (Val a, w')) →
  ∀ w : World E, ∃ l w' evs, ask_groups mk groups w = (Val l, w', evs).
Proof.
  induction groups as [|g groups IH]; intros Htot w; simpl; [by eauto|].
  destruct (ask_each_total mk g) with (w := w) as (a & w1 & evs1 & ->).
  { intros i w0 Hi. apply Htot. simpl. apply elem_of_app. by left. }
  destruct IH with (w := w1) as (l & w2 & evs2 & ->).
  { intros i w0 Hi. apply Htot. simpl. apply elem_of_app. by right. }
  eauto.
Qed.

Lemma ask_groups_Val {X} (mk : string → Op X) groups : ∀ (w : World E) l w' evs,
  ask_groups mk groups w = (Val l, w', evs) →
  Forall2 (λ g a, length a = length g
                  ∧ Forall2 (λ i x, ∃ w1 w2, handle E (mk i) w1 = (Val x, w2)) g a)
          groups l.
Proof.
  induction groups as [|g groups IH]; intros w l w' evs; simpl.
  - intros [= <- <- <-]. constructor.
  - destruct (ask_each mk g w) as [[[a|e] w1] evs1] eqn:Ha; [|done].
    destruct (ask_groups mk groups w1) as [[[l'|e] w2] evs2] eqn:Hl; [|done].
    intros [= <- <- <-]. apply ask_each_Val in Ha as (? & _ & ?).
    constructor; eauto.
Qed.

Lemma foldl_add_series items : ∀ flt,
  NoDup (Dict.keys (_by_series flt) ++ items.*1) →
  foldl (fun f item => _add_series item.1 item.2 f) flt items =
    {| study_id := study_id flt;
       _by_series := _by_series flt ++ items;
       _all_instances_ids := _all_instances_ids flt ++ concat items.*2 |}.
Proof.
  induction items as [|[k v] items IH]; intros [sid d a] Hnd; simpl in *.
  - by rewrite !app_nil_r.
  - assert (k ∉ Dict.keys d) as Hk.
    { apply NoDup_app in Hnd as (_ & Hnd & _). intros Hin.
      apply (Hnd _ Hin). left. }
    rewrite IH; simpl.
    + rewrite set_fresh by done. by rewrite <- !app_assoc.
    + rewrite set_fresh by done. unfold Dict.keys in *.
      rewrite fmap_app. simpl. by rewrite <- app_assoc.
Qed.

(** [filter_instances], given the answers of the filter. *)
Lemma filter_instances_run st marks w' evs :
  let s := self st in
  let its := _by_series s in
  let rejs := concat (zip_with rejected (Dict.values its) marks) in
  Dict.wf its →
  ask_groups filter_call (Dict.values its) (world st) = (Val marks, w', evs) →
  rejs ⊆+ _all_instances_ids s →
  filter_instances st =
    (Val {| study_id := study_id s;
            _by_series := zip_with item_rejected its marks;
            _all_instances_ids := rejs |},
     mkState {| study_id := study_id s;
                _by_series := drop_empty (zip_with item_after its marks);
                _all_instances_ids := minus (_all_instances_ids s) rejs |}
             w' (trace st ++ evs)).
Proof.
  intros s its rejs Hwf Hask Hsub.
  assert (length marks = length its) as Hlen.
  { apply ask_groups_Val, Forall2_length in Hask.
    unfold Dict.values in Hask. by rewrite length_fmap in Hask. }
  unfold filter_instances. rewrite bind_unfold. unfold get_self at 1.
  rewrite bind_unfold. fold s its.
  rewrite (filter_loop its [] marks st _ _ w' evs) by done.
  cbn [app]. rewrite bind_unfold.
  rewrite (del_loop (zip_with item_after its marks) []);
    cbn [self world trace _by_series app set_by_series study_id _all_instances_ids].
  - rewrite ret_unfold. f_equal. f_equal.
    rewrite foldl_add_series; cbn [set_study_id InstancesSet_new study_id _by_series
                                   _all_instances_ids app].
    + unfold item_rejected. by rewrite values_zip_with.
    + unfold item_rejected, Dict.keys. cbn [fmap list_fmap app].
      by rewrite (keys_zip_with rejected).
  - done.
  - unfold Dict.wf, item_after. cbn [app].
    by rewrite (keys_zip_with (λ v m, minus v (rejected v m))).
Qed.

(** The answers of a filter that does not raise. *)
Lemma filter_answers st :
  let its := _by_series (self st) in
  filter_total_on E (concat (Dict.values its)) →
  ∃ marks w' evs,
    ask_groups filter_call (Dict.values its) (world st) = (Val marks, w', evs)
    ∧ Forall2 (λ v m, length m = length v
                      ∧ Forall2 (λ i b, ∃ w1 w2, handle E (filter_call i) w1 = (Val b, w2))
                                v m)
              (Dict.values its) marks.
Proof.
  intros its Htot.
  destruct (ask_groups_total filter_call (Dict.values its)) with (w := world st)
    as (marks & w' & evs & Hask).
  { intros i w Hi. by apply Htot. }
  exists marks, w', evs. split; [done|]. by apply ask_groups_Val in Hask.
Qed.
End FilterRun.

(** ** Flattened mappings *)

Section Concat.
Lemma elem_of_concat (i : string) (vs : list (list string)) :
  i ∈ concat vs ↔ ∃ v, v ∈ vs ∧ i ∈ v.
Proof.
  induction vs as [|v vs IH]; simpl.
  - split; [by intros ?%elem_of_nil|]. by intros (? & ?%elem_of_nil & _).
  - rewrite elem_of_app, IH. split.
    + intros [?|(v' & ? & ?)]; [exists v; split; [left|done]|].
      exists v'. split; [by right|done].
    + intros (v' & [->|?]%elem_of_cons & ?); [by left|]. right. by exists v'.
Qed.

Lemma length_concat_sum (vs : list (list string)) :
  sum_list (length <$> vs) = length (concat vs).
Proof.
  induction vs as [|v vs IH]; [done|].
  rewrite fmap_cons. cbn [sum_list sum_list_with concat]. by rewrite length_app, <- IH.
Qed.

Lemma NoDup_concat_unique (d : Dict.t (list string)) k v k' v' i :
  NoDup (concat d.*2) →
  (k, v) ∈ d → (k', v') ∈ d → i ∈ v → i ∈ v' → (k, v) = (k', v').
Proof.
  induction d as [|[k0 v0] d IH]; simpl; intros Hnd Hin Hin' Hi Hi'.
  - by apply elem_of_nil in Hin.
  - apply NoDup_app in Hnd as (_ & Hdisj & Hnd).
    apply elem_of_cons in Hin as [Heq|Hin]; apply elem_of_cons in Hin' as [Heq'|Hin'].
    + congruence.
    + injection Heq as -> ->. exfalso. apply (Hdisj i Hi).
      apply elem_of_concat. exists v'. split; [|done].
      apply list_elem_of_fmap. by exists (k', v').
    + injection Heq' as -> ->. exfalso. apply (Hdisj i Hi').
      apply elem_of_concat. exists v. split; [|done].
      apply list_elem_of_fmap. by exists (k, v).
    + by apply IH.
Qed.
End Concat.

Section Invariants.
(** A snapshot without repeated identifiers. *)
Lemma duplicate_free_invariant s :
  in_sync s → NoDup (_all_instances_ids s) → snapshot_invariant s.
Proof.
  intros [Hwf Hsync] Hnd. unfold snapshot_invariant, Dict.values in *. split.
  - by rewrite Hsync, length_concat_sum.
  - intros i Hi. rewrite Hsync in Hi, Hnd.
    apply elem_of_concat in Hi as (v & Hv & Hi).
    apply list_elem_of_fmap in Hv as ([k v0] & -> & Hkv). simpl in *.
    exists k. split.
    + exists v0. split; [|done]. by apply get_wf_elem.
    + intros k' (v' & Hget & Hi').
      apply get_Some_elem in Hget.
      by injection (NoDup_concat_unique _ _ _ _ _ _ Hnd Hget Hkv Hi' Hi).
Qed.
End Invariants.

(** ** What a filtering keeps *)

Section FilterFacts.
Context {E : Env}.
Implicit Types (st : @State E).

Lemma in_sync_covered s : in_sync s → covered s.
Proof. intros [Hwf Hsync]. split; [done|]. by rewrite Hsync. Qed.

(** [filter_instances] returns when the filter does, with the closed
    form of [filter_instances_run]. *)
Lemma filter_instances_returns st :
  let s := self st in
  let its := _by_series s in
  covered s →
  filter_total_on E (concat (Dict.values its)) →
  ∃ marks w' evs,
    let rejs := concat (zip_with rejected (Dict.values its) marks) in
    Forall2 (λ v m, length m = length v
                    ∧ Forall2 (λ i b, ∃ w1 w2, handle E (filter_call i) w1 = (Val b, w2))
                              v m)
            (Dict.values its) marks
    ∧ rejs ⊆+ _all_instances_ids s
    ∧ filter_instances st =
        (Val {| study_id := study_id s;
                _by_series := zip_with item_rejected its marks;
                _all_instances_ids := rejs |},
         mkState {| study_id := study_id s;
                    _by_series := drop_empty (zip_with item_after its marks);
                    _all_instances_ids := minus (_all_instances_ids s) rejs |}
                 w' (trace st ++ evs)).
Proof.
  intros s its [Hwf Hcov] Htot.
  destruct (filter_answers st Htot) as (marks & w' & evs & Hask & HF).
  exists marks, w', evs.
  assert (concat (zip_with rejected (Dict.values its) marks) ⊆+ _all_instances_ids s).
  { etrans; [apply rejected_concat_submseteq|done]. }
  split_and!; [done|done|]. by apply filter_instances_run.
Qed.

Lemma answers_always b v m :
  (∀ i, i ∈ v → filter_always E b i) →
  Forall2 (λ i x, ∃ w1 w2, handle E (filter_call i) w1 = (Val x, w2)) v m →
  Forall (λ x, x = b) m.
Proof.
  intros Hb HF. induction HF as [|i x v m (w1 & w2 & Hh) _ IH]; constructor.
  - destruct (Hb i) with (w := w1) as (w' & Hh'); [left|]. congruence.
  - apply IH. intros j Hj. apply Hb. by right.
Qed.

Lemma get_item_rejected its : ∀ marks k r,
  Dict.get k (zip_with item_rejected its marks) = Some r →
  ∃ v m, Dict.get k its = Some v ∧ r = rejected v m.
Proof.
  induction its as [|[k' v'] its IH]; intros [|m marks] k r; simpl; try done.
  destruct (decide (k = k')) as [->|Hne]; [|by apply IH].
  intros [= <-]. by exists v', m.
Qed.

Lemma rejected_in_series its : ∀ marks i,
  Dict.wf its →
  i ∈ concat (zip_with rejected its.*2 marks) →
  ∃ k v m, Dict.get k its = Some v
           ∧ Dict.get k (zip_with item_rejected its marks) = Some (rejected v m)
           ∧ i ∈ rejected v m.
Proof.
  unfold Dict.wf.
  induction its as [|[k v] its IH]; intros [|m marks] i Hwf; simpl;
    try by intros ?%elem_of_nil.
  simpl in Hwf. apply NoDup_cons in Hwf as [Hk Hwf].
  intros [Hi|Hi]%elem_of_app.
  - exists k, v, m. by rewrite !decide_True.
  - destruct (IH marks i Hwf Hi) as (k' & v' & m' & Hg & Hg' & Hi').
    exists k', v', m'.
    assert (k' ≠ k) as Hne.
    { intros ->. apply Hk. apply get_Some_elem in Hg.
      apply list_elem_of_fmap. by exists (k, v'). }
    by rewrite !decide_False.
Qed.

(** [duplicate_free] is kept by both halves of a filtering. *)
Lemma duplicate_free_filtered s marks :
  let its := _by_series s in
  let rejs := concat (zip_with rejected (Dict.values its) marks) in
  duplicate_free s →
  length marks = length its →
  duplicate_free {| study_id := study_id s;
                    _by_series := drop_empty (zip_with item_after its marks);
                    _all_instances_ids := minus (_all_instances_ids s) rejs |}
  ∧ duplicate_free {| study_id := study_id s;
                      _by_series := zip_with item_rejected its marks;
                      _all_instances_ids := rejs |}.
Proof.
  intros its rejs [[Hwf Hsync] Hnd] Hlen. unfold Dict.values in *.
  assert (rejs ⊆+ _all_instances_ids s) as Hsub.
  { rewrite Hsync. apply rejected_concat_submseteq. }
  pose proof (minus_perm rejs _ Hsub) as Hperm.
  assert (NoDup (rejs ++ minus (_all_instances_ids s) rejs)) as Hnd'
    by (by rewrite <- Hperm).
  apply NoDup_app in Hnd' as (Hnd1 & _ & Hnd2).
  unfold duplicate_free, in_sync, Dict.wf, Dict.values.
  cbn [_by_series _all_instances_ids]. split_and!.
  - apply drop_empty_wf. unfold Dict.wf, item_after.
    by rewrite (keys_zip_with (λ v m, minus v (rejected v m))).
  - rewrite concat_drop_empty. unfold item_after.
    rewrite (values_zip_with (λ v m, minus v (rejected v m))).
    unfold rejs. rewrite Hsync in Hnd |- *. apply minus_concat; [done|].
    by rewrite length_fmap.
  - done.
  - unfold item_rejected. by rewrite (keys_zip_with rejected).
  - unfold item_rejected. by rewrite (values_zip_with rejected).
  - done.
Qed.
End FilterFacts.

(** ** The statements about [filter_instances] *)

Section FilterTheorems.
Context {E : Env}.
Implicit Types (st : @State E).

Lemma items_all_kept its : ∀ marks,
  Forall2 (λ v m, rejected v m = []) its.*2 marks →
  zip_with item_after its marks = its
  ∧ zip_with item_rejected its marks = (λ item, (item.1, [])) <$> its
  ∧ concat (zip_with rejected its.*2 marks) = [].
Proof.
  induction its as [|[k v] its IH]; intros marks HF.
  - by apply Forall2_nil_inv_l in HF as ->.
  - rewrite fmap_cons in HF.
    apply Forall2_cons_inv_l in HF as (m & marks' & Hr & HF & ->).
    destruct (IH _ HF) as (IH1 & IH2 & IH3). cbn [snd] in Hr.
    rewrite !fmap_cons. cbn [zip_with concat snd fst].
    rewrite IH1, IH2, IH3. unfold item_after, item_rejected. cbn [fst snd].
    by rewrite Hr.
Qed.

Lemma answers_all_true (vs : list (list string)) marks :
  (∀ i, i ∈ concat vs → filter_always E true i) →
  Forall2 (λ v m, length m = length v
                  ∧ Forall2 (λ i b, ∃ w1 w2, handle E (filter_call i) w1 = (Val b, w2))
                            v m) vs marks →
  Forall2 (λ v m, rejected v m = []) vs marks.
Proof.
  intros Htrue HF. induction HF as [|v m vs marks [_ Hm] _ IH]; constructor.
  - apply rejected_all_true, (answers_always (E:=E) true v); [|done].
    intros i Hi. apply Htrue. simpl. apply elem_of_app. by left.
  - apply IH. intros i Hi. apply Htrue. simpl. apply elem_of_app. by right.
Qed.

(** C3: on a collection whose flat list has no repeated identifier (and
    holds the identifiers of the mapping), and with a filter that does
    not raise, [filter_instances] splits the instances in two:
    the kept ones (the receiver, afterwards) and the removed ones (the
    returned collection) share no identifier, together they are the
    identifiers of the original, and the removed collection lists each
    removed instance under the series it had in the original. *)
Theorem filter_instances_partition st :
  let s := self st in
  covered s →
  NoDup (_all_instances_ids s) →
  filter_total_on E (concat (Dict.values (_by_series s))) →
  ∃ removed st',
    filter_instances st = (Val removed, st')
    ∧ (∀ i, i ∈ _all_instances_ids (self st') → i ∉ _all_instances_ids removed)
    ∧ _all_instances_ids s ≡ₚ _all_instances_ids (self st') ++ _all_instances_ids removed
    ∧ (∀ i, i ∈ _all_instances_ids s
            ↔ i ∈ _all_instances_ids (self st') ∨ i ∈ _all_instances_ids removed)
    ∧ (∀ i, i ∈ _all_instances_ids removed →
            ∃ k v r, Dict.get k (_by_series s) = Some v ∧ i ∈ v
                     ∧ Dict.get k (_by_series removed) = Some r ∧ i ∈ r)
    ∧ (∀ k r i, Dict.get k (_by_series removed) = Some r → i ∈ r →
                ∃ v, Dict.get k (_by_series s) = Some v ∧ i ∈ v).
Proof.
  intros s Hcov Hnd Htot.
  destruct (filter_instances_returns st Hcov Htot)
    as (marks & w' & evs & HF & Hsub & Hrun).
  destruct Hcov as [Hwf _].
  fold s in HF, Hsub, Hrun.
  set (rejs := concat (zip_with rejected (Dict.values (_by_series s)) marks)) in *.
  eexists _, _. split; [exact Hrun|].
  cbn [self _all_instances_ids _by_series].
  pose proof (minus_perm rejs _ Hsub) as Hperm.
  assert (NoDup (rejs ++ minus (_all_instances_ids s) rejs)) as Hnd'
    by (by rewrite <- Hperm).
  apply NoDup_app in Hnd' as (_ & Hdisj & _).
  split_and!.
  - intros i Hi Hi'. by apply (Hdisj i).
  - rewrite Hperm at 1. apply Permutation_app_comm.
  - intros i. rewrite Hperm at 1. rewrite elem_of_app. tauto.
  - intros i Hi.
    destruct (rejected_in_series _ _ _ Hwf Hi) as (k & v & m & Hg & Hg' & Hi').
    exists k, v, (rejected v m). split_and!; [done| |done|done].
    eapply elem_of_submseteq; [exact Hi'|]. apply sublist_submseteq, rejected_sublist.
  - intros k r i Hg Hi.
    apply get_item_rejected in Hg as (v & m & Hg & ->).
    exists v. split; [done|].
    eapply elem_of_submseteq; [exact Hi|]. apply sublist_submseteq, rejected_sublist.
Qed.


(** C4, as the code has it: with a filter that accepts every instance
    of the collection, the returned collection holds no instance
    identifier, but an entry with an empty list for every series of the
    original; the receiver keeps its identifiers and its series, except
    for the series that were already empty, which are dropped. *)
Theorem filter_instances_keeps_all st :
  let s := self st in
  Dict.wf (_by_series s) →
  (∀ i, i ∈ concat (Dict.values (_by_series s)) → filter_always E true i) →
  ∃ st',
    filter_instances st =
      (Val {| study_id := study_id s;
              _by_series := (λ item, (item.1, [])) <$> _by_series s;
              _all_instances_ids := [] |}, st')
    ∧ _all_instances_ids (self st') = _all_instances_ids s
    ∧ _by_series (self st') = drop_empty (_by_series s)
    ∧ study_id (self st') = study_id s
    ∧ (Forall (λ item, item.2 ≠ []) (_by_series s) → self st' = s).
Proof.
  intros s Hwf Htrue.
  destruct (filter_answers st) as (marks & w' & evs & Hask & HF).
  { intros i w Hi. destruct (Htrue i Hi w) as (w1 & ?). eauto. }
  fold s in Hask, HF.
  pose proof (answers_all_true _ _ Htrue HF) as Hnil.
  destruct (items_all_kept _ _ Hnil) as (Hafter & Hrej & Hrejs).
  unfold Dict.values in *.
  eexists. split.
  - rewrite (filter_instances_run st marks w' evs); fold s; unfold Dict.values.
    + by rewrite Hafter, Hrej, Hrejs.
    + done.
    + done.
    + rewrite Hrejs. apply submseteq_nil_l.
  - cbn [self _all_instances_ids _by_series study_id minus foldl].
    split_and!; try done.
    intros Hne. rewrite (drop_empty_id _ Hne). by destruct s.
Qed.

(** C10: the collection that [filter_instances] returns has the
    [study_id] of the collection it was called on. *)
Theorem filter_instances_study_id st removed st' :
  filter_instances st = (Val removed, st') →
  study_id removed = study_id (self st).
Proof.
  unfold filter_instances. rewrite bind_unfold. unfold get_self at 1.
  intros ([std flt] & st1 & Hloop & Hrest)%bind_Val_inv.
  apply bind_Val_inv in Hrest as (_ & st2 & _ & Hret).
  rewrite ret_unfold in Hret. injection Hret as <- _.
  refine (for_fold_invariant (λ acc, study_id acc.2 = study_id (self st))
            filter_series _ _ _ _ _ _ _ Hloop); [|done].
  clear. intros [std flt] [k v] st0 [std' flt'] st1 Hacc Hbody. simpl in *.
  unfold filter_series in Hbody.
  apply bind_Val_inv in Hbody as (rej & ? & _ & Hbody).
  apply bind_Val_inv in Hbody as (? & ? & _ & Hbody).
  apply bind_Val_inv in Hbody as (? & ? & _ & Hbody).
  apply bind_Val_inv in Hbody as (? & ? & _ & Hbody).
  rewrite ret_unfold in Hbody. by injection Hbody as _ <- _.
Qed.
End FilterTheorems.

(** ** [from_study] *)

Section FromStudy.
Context {E : Env}.
Implicit Types (st : @State E).

Lemma add_series_loop series : ∀ acc st answers w' evs,
  ask_each series_get_instances_ids series (world st) = (Val answers, w', evs) →
  for_fold series acc
      (fun instances_set series_id => add_series series_id instances_set) st =
    (Val (foldl (fun f item => _add_series item.1 item.2 f) acc (zip series answers)),
     mkState (self st) w' (trace st ++ evs)).
Proof.
  induction series as [|k series IH]; intros acc st answers w' evs; simpl.
  - intros [= <- <- <-]. rewrite app_nil_r. by destruct st.
  - destruct (handle E (series_get_instances_ids k) (world st)) as [[l|e] w1] eqn:Hh;
      [|done].
    destruct (ask_each series_get_instances_ids series w1) as [[[ls|e] w2] evs2] eqn:Ha;
      [|done].
    intros [= <- <- <-].
    rewrite bind_unfold. unfold add_series at 1. rewrite bind_unfold, call_eq, Hh.
    cbn [fst snd]. rewrite ret_unfold.
    rewrite (IH _ _ ls w2 evs2) by done.
    cbn [self world trace zip zip_with foldl fst snd]. by rewrite <- app_assoc.
Qed.

(** Reading [study.info.series_ids]. *)
Lemma study_series_ids_run study st :
  study_series_ids study st =
    match read_series_ids study (world st) with
    | (r, w, evs) => (r, mkState (self st) w (trace st ++ evs))
    end.
Proof.
  unfold study_series_ids, read_series_ids. destruct (info_series_ids study) as [l|].
  - rewrite ret_unfold, app_nil_r. by destruct st.
  - rewrite call_eq. by destruct (handle E _ (world st)).
Qed.

(** [from_study], given the answers of the server. *)
Lemma from_study_run st sid study series w1 evs0 answers w2 evs :
  let study' := default (studies_get sid) study in
  read_series_ids study' (world st) = (Val series, w1, evs0) →
  ask_each series_get_instances_ids series w1 = (Val answers, w2, evs) →
  NoDup series →
  from_study sid study st =
    (Val {| study_id := Some (orthanc_id study');
            _by_series := zip series answers;
            _all_instances_ids := concat answers |},
     mkState (self st) w2 (trace st ++ evs0 ++ evs)).
Proof.
  intros study' Hh Ha Hnd. unfold from_study.
  replace (match study with Some study0 => study0 | None => studies_get sid end)
    with (default (studies_get sid) study) by (by destruct study).
  fold study'. rewrite bind_unfold, study_series_ids_run, Hh.
  rewrite (add_series_loop series _ _ answers w2 evs) by done.
  cbn [self world trace]. rewrite <- app_assoc.
  apply ask_each_Val in Ha as (Hlen & _ & _).
  rewrite foldl_add_series; cbn [set_study_id InstancesSet_new study_id _by_series
                                 _all_instances_ids app Dict.keys fmap list_fmap].
  - rewrite snd_zip by lia. done.
  - rewrite fst_zip by lia. done.
Qed.

(** C5: a snapshot that [from_study] builds from a server that lists
    no series and no instance twice has as many identifiers in its
    mapping as in its flat list, and each identifier of the flat list
    belongs to exactly one series; this still holds, for the receiver and
    for the returned collection, after [filter_instances].  The series
    are the ones that the server lists for the study or, for a
    pre-fetched study, the ones that the study holds. *)
Theorem snapshot_invariant_from_study_and_filter :
  (∀ st sid study series w1 evs0 answers w2 evs,
     read_series_ids (default (studies_get sid) study) (world st) = (Val series, w1, evs0) →
     ask_each series_get_instances_ids series w1 = (Val answers, w2, evs) →
     NoDup series →
     NoDup (concat answers) →
     ∃ s st',
       from_study sid study st = (Val s, st')
       ∧ duplicate_free s
       ∧ snapshot_invariant s)
  ∧ (∀ st,
       duplicate_free (self st) →
       filter_total_on E (_all_instances_ids (self st)) →
       ∃ removed st',
         filter_instances st = (Val removed, st')
         ∧ duplicate_free (self st')
         ∧ snapshot_invariant (self st')
         ∧ duplicate_free removed
         ∧ snapshot_invariant removed).
Proof.
  split.
  - intros st sid study series w1 evs0 answers w2 evs Hh Ha Hnd Hnd'.
    eexists _, _.
    split; [by apply (from_study_run st sid study series w1 evs0 answers w2 evs)|].
    assert (length answers = length series) as Hlen
      by (by apply ask_each_Val in Ha as (? & _ & _)).
    set (id := orthanc_id (default (studies_get sid) study)).
    assert (duplicate_free {| study_id := Some id;
                              _by_series := zip series answers;
                              _all_instances_ids := concat answers |}) as Hdf.
    { unfold duplicate_free, in_sync, Dict.wf, Dict.values.
      cbn [_by_series _all_instances_ids].
      rewrite fst_zip, snd_zip by lia. done. }
    split; [done|]. by apply duplicate_free_invariant; apply Hdf.
  - intros st Hdf Htot.
    destruct (filter_instances_returns st) as (marks & w' & evs & HF & Hsub & Hrun).
    { apply in_sync_covered, Hdf. }
    { destruct Hdf as [[_ <-] _]. done. }
    eexists _, _. split; [exact Hrun|]. cbn [self].
    assert (length marks = length (_by_series (self st))) as Hlen.
    { apply Forall2_length in HF. unfold Dict.values in HF.
      by rewrite length_fmap in HF. }
    destruct (duplicate_free_filtered (self st) marks Hdf Hlen) as [Hk Hr].
    split_and!; [done| |done|].
    + by apply duplicate_free_invariant; apply Hk.
    + by apply duplicate_free_invariant; apply Hr.
Qed.
End FromStudy.

(** ** [modify] *)

Section Disjoint.
(** Lists that are duplicate-free and pairwise disjoint flatten to a
    duplicate-free list. *)
Lemma NoDup_concat_disjoint (ls : list (list string)) :
  Forall NoDup ls →
  (∀ j1 j2 l1 l2 i, j1 ≠ j2 → ls !! j1 = Some l1 → ls !! j2 = Some l2 →
                    i ∈ l1 → i ∉ l2) →
  NoDup (concat ls).
Proof.
  induction 1 as [|l ls Hl _ IH]; intros Hdisj; simpl; [constructor|].
  apply NoDup_app. split_and!; [done| |].
  - intros i Hi (l' & Hl' & Hi')%elem_of_concat.
    apply list_elem_of_lookup in Hl' as (j & Hj).
    by apply (Hdisj 0 (S j) l l' i).
  - apply IH. intros j1 j2 l1 l2 i Hne H1 H2.
    apply (Hdisj (S j1) (S j2)); [lia|done|done].
Qed.
End Disjoint.

Section Modify.
Context {E : Env}.
Implicit Types (st : @State E).

Lemma intersect_NoDup instances l : NoDup (intersect E instances l).
Proof. unfold intersect. rewrite list_of_set_perm. apply NoDup_elements. Qed.

Lemma elem_of_intersect instances l i :
  i ∈ intersect E instances l ↔ i ∈ l ∧ i ∈ instances.
Proof.
  unfold intersect. rewrite list_of_set_perm, elem_of_elements, elem_of_intersection.
  by rewrite !elem_of_list_to_set.
Qed.

Lemma modified_series_loop instances series : ∀ acc st answers w' evs,
  ask_each series_get_instances_ids series (world st) = (Val answers, w', evs) →
  for_fold series acc (add_modified_series instances) st =
    (Val (foldl (fun f item => _add_series item.1 item.2 f) acc
                (zip series (intersect E instances <$> answers))),
     mkState (self st) w' (trace st ++ evs)).
Proof.
  induction series as [|k series IH]; intros acc st answers w' evs; simpl.
  - intros [= <- <- <-]. rewrite app_nil_r. by destruct st.
  - destruct (handle E (series_get_instances_ids k) (world st)) as [[l|e] w1] eqn:Hh;
      [|done].
    destruct (ask_each series_get_instances_ids series w1) as [[[ls|e] w2] evs2] eqn:Ha;
      [|done].
    intros [= <- <- <-].
    rewrite bind_unfold. unfold add_modified_series at 1.
    rewrite bind_unfold, call_eq, Hh.
    cbn [fst snd]. rewrite ret_unfold.
    rewrite (IH _ _ ls w2 evs2) by done.
    cbn [self world trace]. by rewrite <- app_assoc.
Qed.

(** C1, as the code has it: when the server answers 200 with one
    study, as many series entries as the snapshot has series and as many
    instance entries as it has instances, and the series entries are
    pairwise distinct, [modify] returns a collection with the same number
    of series, whose [study_id] is the study of the answer and whose
    series each hold exactly the instances that the server lists for the
    series and that are among the modified ones; the receiver is not
    changed.  When moreover the server lists no instance under two of
    the series, the collection has at most as many instances as the
    original. *)
Theorem modify_returns_modified_set st replace_tags remove_tags keep_tags
    keep_source force r w1 answers w2 evs :
  let s := self st in
  let studies := ids_of_type "Study" (json_Resources r) in
  let series := ids_of_type "Series" (json_Resources r) in
  let instances := ids_of_type "Instance" (json_Resources r) in
  handle E (post "tools/bulk-modify"
              (BulkModifyBody (modify_query (_all_instances_ids s) replace_tags
                                 remove_tags keep_tags keep_source force)))
         (world st) = (Val r, w1) →
  ask_each series_get_instances_ids series w1 = (Val answers, w2, evs) →
  status_code r = 200%Z →
  length studies = 1 →
  length series = length (Dict.keys (_by_series s)) →
  length instances = length (_all_instances_ids s) →
  NoDup series →
  ∃ m st' sid,
    modify replace_tags remove_tags keep_tags keep_source force st = (Val (Some m), st')
    ∧ self st' = s
    ∧ length (Dict.keys (_by_series m)) = length (Dict.keys (_by_series s))
    ∧ Dict.keys (_by_series m) = series
    ∧ studies = [sid]
    ∧ study_id m = Some sid
    ∧ (∀ j k l, series !! j = Some k → answers !! j = Some l →
         ∃ ids, Dict.get k (_by_series m) = Some ids
                ∧ NoDup ids
                ∧ ∀ i, i ∈ ids ↔ i ∈ l ∧ i ∈ instances)
    ∧ _all_instances_ids m = concat (Dict.values (_by_series m))
    ∧ ((∀ j1 j2 l1 l2 i, j1 ≠ j2 → answers !! j1 = Some l1 → answers !! j2 = Some l2 →
                         i ∈ l1 → i ∉ l2) →
       length (_all_instances_ids m) ≤ length (_all_instances_ids s)).
Proof.
  intros s studies series instances Hh Ha H200 Hstudies Hseries Hinstances Hnd.
  destruct studies as [|sid [|? ?]] eqn:Hsid; try done.
  pose proof Ha as (Hlen & _ & _)%ask_each_Val.
  eexists _, _, sid. split.
  { rewrite (modify_answered st _ _ _ _ _ r w1) by done. fold s series instances.
    rewrite decide_True by done. fold studies. rewrite Hsid.
    cbn [length Nat.eqb negb]. rewrite Hseries, Hinstances, !Nat.eqb_refl. cbn [negb].
    rewrite bind_unfold.
    rewrite (modified_series_loop instances series _ _ answers w2 evs) by done.
    rewrite bind_unfold. cbn [lookup list_lookup of_option]. rewrite !ret_unfold.
    rewrite foldl_add_series; [reflexivity|].
    cbn [InstancesSet_new _by_series Dict.keys fmap list_fmap app].
    rewrite fst_zip; [done|]. rewrite length_fmap. lia. }
  cbn [self set_study_id study_id _by_series _all_instances_ids InstancesSet_new app].
  unfold Dict.keys, Dict.values.
  rewrite fst_zip, snd_zip by (rewrite length_fmap; lia).
  split_and!; try done.
  - intros j k l Hk Hl. exists (intersect E instances l). split_and!.
    + apply get_wf_elem.
      * unfold Dict.wf. rewrite fst_zip; [done|]. rewrite length_fmap. lia.
      * apply list_elem_of_lookup. exists j. apply lookup_zip_Some. split; [done|].
        by apply list_lookup_fmap_Some_2.
    + apply intersect_NoDup.
    + apply elem_of_intersect.
  - intros Hdisj. rewrite <- Hinstances. apply submseteq_length.
    apply NoDup_submseteq.
    + apply NoDup_concat_disjoint.
      * apply Forall_fmap, Forall_forall. intros l _. apply intersect_NoDup.
      * intros j1 j2 l1 l2 i Hne (x1 & -> & H1)%list_lookup_fmap_Some
          (x2 & -> & H2)%list_lookup_fmap_Some [Hi _]%elem_of_intersect
          [Hi' _]%elem_of_intersect.
        by apply (Hdisj j1 j2 x1 x2 i).
    + intros i (l & (x & -> & _)%list_elem_of_fmap & Hi)%elem_of_concat.
      by apply elem_of_intersect in Hi as [_ ?].
Qed.

(** C2, as the code has it: when the status of the answer is not 200,
    or it does not list exactly one study, or the number of series
    entries it lists (repetitions counted) is not the number of series of
    the snapshot, or the number of instance entries is not its number of
    instances, [modify] returns [None], without any further request and
    without changing the receiver. *)
Theorem modify_returns_no_result st replace_tags remove_tags keep_tags
    keep_source force r w1 :
  let s := self st in
  let op := post "tools/bulk-modify"
              (BulkModifyBody (modify_query (_all_instances_ids s) replace_tags
                                 remove_tags keep_tags keep_source force)) in
  handle E op (world st) = (Val r, w1) →
  status_code r ≠ 200%Z
  ∨ length (ids_of_type "Study" (json_Resources r)) ≠ 1
  ∨ length (ids_of_type "Series" (json_Resources r)) ≠ length (Dict.keys (_by_series s))
  ∨ length (ids_of_type "Instance" (json_Resources r)) ≠ length (_all_instances_ids s) →
  modify replace_tags remove_tags keep_tags keep_source force st =
    (Val None, mkState s w1 (trace st ++ [Called op (Val r)])).
Proof.
  intros s op Hh Hfail.
  rewrite (modify_answered st _ _ _ _ _ r w1) by done. fold s op.
  destruct (decide (status_code r = 200%Z)) as [H200|]; [|done].
  destruct (length (ids_of_type "Study" (json_Resources r)) =? 1) eqn:H1; [|done].
  destruct (length (ids_of_type "Series" (json_Resources r))
            =? length (Dict.keys (_by_series s))) eqn:H2; [|done].
  destruct (length (ids_of_type "Instance" (json_Resources r))
            =? length (_all_instances_ids s)) eqn:H3; [|done].
  apply Nat.eqb_eq in H1, H2, H3. exfalso. tauto.
Qed.
End Modify.

(** ** The accessors, [delete] and [process_instances] *)

Section Reads.
Context {E : Env}.
Implicit Types (st : @State E).

(** C8: the accessors return what the snapshot holds, leave the state
    as it is (no request, no change of the receiver), and
    [get_instances_ids] returns the empty list, not an error, for a
    series that the snapshot does not have. *)
Theorem accessors_are_pure_reads st :
  instances_ids st = (Val (_all_instances_ids (self st)), st)
  ∧ series_ids st = (Val (Dict.keys (_by_series (self st))), st)
  ∧ (∀ series_id v, Dict.get series_id (_by_series (self st)) = Some v →
                    get_instances_ids series_id st = (Val v, st))
  ∧ (∀ series_id, series_id ∉ Dict.keys (_by_series (self st)) →
                  get_instances_ids series_id st = (Val [], st)).
Proof.
  split_and!; try done.
  - intros k v Hget. unfold get_instances_ids. rewrite bind_unfold. unfold get_self.
    rewrite mem_true.
    + by rewrite Hget.
    + apply get_Some_elem in Hget. apply list_elem_of_fmap. by exists (k, v).
  - intros k Hk. unfold get_instances_ids. rewrite bind_unfold. unfold get_self.
    by rewrite mem_false.
Qed.

(** [delete] on any collection: one request, for [_all_instances_ids]. *)
Lemma bulk_delete_run st :
  let op := post "tools/bulk-delete" (BulkDeleteBody (_all_instances_ids (self st))) in
  delete st =
    (match (handle E op (world st)).1 with Val _ => Val tt | Exc e => Exc e end,
     mkState (self st) (handle E op (world st)).2
       (trace st ++ [Called op (handle E op (world st)).1])).
Proof.
  intros op. unfold delete, instances_ids.
  rewrite bind_unfold, bind_unfold. unfold get_self. rewrite ret_unfold.
  fold op. rewrite bind_unfold, call_eq.
  by destruct (handle E op (world st)).1.
Qed.

(** C6, as the code has it: on every collection [delete] issues one
    request, [tools/bulk-delete], whose resources are
    [_all_instances_ids], in the order of this list, and changes nothing
    else.  This list is the mapping read series by series in insertion
    order, each with its instances in order, for a snapshot that
    [from_study] has built from a study that lists no series twice
    (whenever [delete] is called on it), and for the receiver and the
    returned collection of a [filter_instances] on a collection without
    repeated identifiers; it is not for every collection. *)
Theorem delete_issues_one_bulk_delete :
  (∀ st, ∃ answer w,
     delete st =
       (match answer with Val _ => Val tt | Exc e => Exc e end,
        mkState (self st) w
          (trace st ++ [Called (post "tools/bulk-delete"
                                  (BulkDeleteBody (_all_instances_ids (self st)))) answer])))
  ∧ (∀ st sid study series w1 evs0 answers w2 evs,
       read_series_ids (default (studies_get sid) study) (world st) = (Val series, w1, evs0) →
       ask_each series_get_instances_ids series w1 = (Val answers, w2, evs) →
       NoDup series →
       ∃ s st',
         from_study sid study st = (Val s, st')
         ∧ Dict.keys (_by_series s) = series
         ∧ Dict.values (_by_series s) = answers
         ∧ ∀ (w : World E) t, ∃ answer w',
             delete (mkState s w t) =
               (match answer with Val _ => Val tt | Exc e => Exc e end,
                mkState s w'
                  (t ++ [Called (post "tools/bulk-delete"
                                   (BulkDeleteBody (concat (Dict.values (_by_series s)))))
                                answer])))
  ∧ (∀ st,
       duplicate_free (self st) →
       filter_total_on E (_all_instances_ids (self st)) →
       ∃ removed st',
         filter_instances st = (Val removed, st')
         ∧ _all_instances_ids (self st') = concat (Dict.values (_by_series (self st')))
         ∧ _all_instances_ids removed = concat (Dict.values (_by_series removed))).
Proof.
  split_and!.
  - intros st. rewrite bulk_delete_run. by eexists _, _.
  - intros st sid study series w1 evs0 answers w2 evs Hh Ha Hnd.
    pose proof Ha as (Hlen & _ & _)%ask_each_Val.
    eexists _, _.
    split; [by apply (from_study_run st sid study series w1 evs0 answers w2 evs)|].
    unfold Dict.keys, Dict.values. cbn [_by_series].
    rewrite fst_zip, snd_zip by lia. split_and!; [done|done|].
    intros w t. rewrite bulk_delete_run. cbn [self world trace _all_instances_ids].
    by eexists _, _.
  - intros st Hdf Htot.
    destruct (filter_instances_returns st) as (marks & w' & evs & HF & Hsub & Hrun).
    { apply in_sync_covered, Hdf. }
    { destruct Hdf as [[_ <-] _]. done. }
    eexists _, _. split; [exact Hrun|]. cbn [self].
    assert (length marks = length (_by_series (self st))) as Hlen.
    { apply Forall2_length in HF. unfold Dict.values in HF.
      by rewrite length_fmap in HF. }
    destruct (duplicate_free_filtered (self st) marks Hdf Hlen) as [Hk Hr].
    split; [apply Hk|apply Hr].
Qed.

(** [process_instances] on any collection: the processor is asked on
    each entry of [_all_instances_ids], in order, up to the first call
    that raises. *)
Lemma process_instances_run st :
  let s := self st in
  let ids := _all_instances_ids s in
  (∃ w, process_instances st =
          (Val tt, mkState s w
             (trace st ++ ((λ i, Called (processor_call i) (Val tt)) <$> ids))))
  ∨ (∃ pre i post e w,
       ids = pre ++ i :: post
       ∧ process_instances st =
           (Exc e, mkState s w
              (trace st ++ ((λ i, Called (processor_call i) (Val tt)) <$> pre)
                        ++ [Called (processor_call i) (Exc e)]))).
Proof.
  intros s ids.
  assert (process_instances st =
            match ask_each processor_call ids (world st) with
            | (Val _, w, evs) => (Val tt, mkState s w (trace st ++ evs))
            | (Exc e, w, evs) => (Exc e, mkState s w (trace st ++ evs))
            end) as ->.
  { unfold process_instances. rewrite bind_unfold. unfold get_self.
    apply (for_each_call processor_call).
    intros i st0. by destruct (call (processor_call i) st0) as [[[]|e] st1]. }
  destruct (ask_each processor_call ids (world st)) as [[[l|e] w] evs] eqn:Ha.
  - left. exists w. apply ask_each_Val in Ha as (Hlen & -> & _).
    by rewrite (zip_with_unit (λ i a, Called (processor_call i) (Val a))).
  - right. apply ask_each_Exc in Ha as (pre & i & post & l & Hids & Hlen & ->).
    exists pre, i, post, e, w. split; [done|].
    by rewrite (zip_with_unit (λ i a, Called (processor_call i) (Val a))).
Qed.

(** C9, as the code has it: on every collection [process_instances]
    calls the processor once per entry of [_all_instances_ids], in the
    order of this list, and stops at the first call that raises, with its
    exception.  For a snapshot that [from_study] has built from a server
    that lists no series and no instance twice, this is exactly once per
    instance identifier, in the order of the series, then of the
    instances in each; it is not for every collection. *)
Theorem process_instances_in_order :
  (∀ st,
     let s := self st in
     let ids := _all_instances_ids s in
     (∃ w, process_instances st =
             (Val tt, mkState s w
                (trace st ++ ((λ i, Called (processor_call i) (Val tt)) <$> ids))))
     ∨ (∃ pre i post e w,
          ids = pre ++ i :: post
          ∧ process_instances st =
              (Exc e, mkState s w
                 (trace st ++ ((λ i, Called (processor_call i) (Val tt)) <$> pre)
                           ++ [Called (processor_call i) (Exc e)]))))
  ∧ (∀ st sid study series w1 evs0 answers w2 evs,
       read_series_ids (default (studies_get sid) study) (world st) = (Val series, w1, evs0) →
       ask_each series_get_instances_ids series w1 = (Val answers, w2, evs) →
       NoDup series →
       NoDup (concat answers) →
       ∃ s st',
         from_study sid study st = (Val s, st')
         ∧ Dict.keys (_by_series s) = series
         ∧ Dict.values (_by_series s) = answers
         ∧ NoDup (concat (Dict.values (_by_series s)))
         ∧ ∀ (w : World E) t,
             let ids := concat (Dict.values (_by_series s)) in
             (∃ w', process_instances (mkState s w t) =
                      (Val tt, mkState s w'
                         (t ++ ((λ i, Called (processor_call i) (Val tt)) <$> ids))))
             ∨ (∃ pre i post e w',
                  ids = pre ++ i :: post
                  ∧ process_instances (mkState s w t) =
                      (Exc e, mkState s w'
                         (t ++ ((λ i, Called (processor_call i) (Val tt)) <$> pre)
                            ++ [Called (processor_call i) (Exc e)])))).
Proof.
  split.
  - intros st. apply process_instances_run.
  - intros st sid study series w1 evs0 answers w2 evs Hh Ha Hnd Hnd'.
    pose proof Ha as (Hlen & _ & _)%ask_each_Val.
    eexists _, _.
    split; [by apply (from_study_run st sid study series w1 evs0 answers w2 evs)|].
    unfold Dict.keys, Dict.values. cbn [_by_series].
    rewrite fst_zip, snd_zip by lia. split_and!; [done|done|done|].
    intros w t.
    match goal with |- context [mkState ?s w t] => 
      pose proof (process_instances_run (mkState s w t)) as Hrun end.
    exact Hrun.
Qed.
End Reads.

(** ** [covered] holds of every collection that the class builds

    The empty collection is covered, [_add_series] keeps a collection
    covered, also when the series is already there, and so does
    [filter_instances], for the receiver and for the collection it
    returns.  The statements that assume [covered] are therefore about
    every collection that [from_study], [modify] and [filter_instances]
    can produce. *)

Section Covered.
Context {E : Env}.
Implicit Types (st : @State E).

Lemma covered_new : covered InstancesSet_new.
Proof. split; [constructor|done]. Qed.

Lemma keys_set {V} k (v : V) (d : Dict.t V) :
  Dict.keys (Dict.set k v d) =
    if bool_decide (k ∈ Dict.keys d) then Dict.keys d else Dict.keys d ++ [k].
Proof.
  unfold Dict.keys. induction d as [|[k' v'] d IH]; [done|].
  cbn [Dict.set]. destruct (decide (k = k')) as [->|Hne].
  - rewrite bool_decide_eq_true_2; [done|]. rewrite fmap_cons. left.
  - rewrite !fmap_cons, IH. cbn [fst].
    destruct (bool_decide (k ∈ d.*1)) eqn:Hin.
    + apply bool_decide_eq_true in Hin. rewrite bool_decide_eq_true_2; [done|].
      by right.
    + apply bool_decide_eq_false in Hin. rewrite bool_decide_eq_false_2; [done|].
      by intros [?|?]%elem_of_cons.
Qed.

Lemma wf_set {V} k (v : V) (d : Dict.t V) : Dict.wf d → Dict.wf (Dict.set k v d).
Proof.
  unfold Dict.wf. intros Hwf. fold (Dict.keys (Dict.set k v d)). rewrite keys_set.
  case_bool_decide as Hin; [done|]. unfold Dict.keys.
  apply NoDup_app. split_and!; [done| |apply NoDup_singleton].
  intros x Hx ->%list_elem_of_singleton. done.
Qed.

Lemma concat_values_set k ids (d : Dict.t (list string)) :
  ∃ rest, concat (Dict.set k ids d).*2 ≡ₚ rest ++ ids ∧ rest ⊆+ concat d.*2.
Proof.
  induction d as [|[k' v'] d (rest & Hperm & Hsub)].
  - exists []. split; [|done]. cbn. by rewrite app_nil_r.
  - cbn [Dict.set]. destruct (decide (k = k')) as [->|Hne].
    + exists (concat d.*2). rewrite !fmap_cons. cbn [snd concat]. split.
      * apply Permutation_app_comm.
      * by apply submseteq_inserts_l.
    + exists (v' ++ rest). rewrite !fmap_cons. cbn [snd concat]. split.
      * by rewrite Hperm, app_assoc.
      * by apply submseteq_skips_l.
Qed.

Lemma covered_add_series k ids s : covered s → covered (_add_series k ids s).
Proof.
  intros [Hwf Hcov]. split; cbn [_add_series _by_series _all_instances_ids].
  - by apply wf_set.
  - unfold Dict.values in *.
    destruct (concat_values_set k ids (_by_series s)) as (rest & -> & Hrest).
    apply submseteq_app; [|done]. by etrans.
Qed.

Lemma covered_foldl_add_series (items : list (string * list string)) : ∀ s,
  covered s → covered (foldl (fun f item => _add_series item.1 item.2 f) s items).
Proof.
  induction items as [|[k v] items IH]; intros s Hs; [done|].
  cbn [foldl]. by apply IH, covered_add_series.
Qed.

(** What is left of the lists and what was rejected make up the lists. *)
Lemma concat_rejected_perm (vs : list (list string)) : ∀ marks,
  length marks = length vs →
  concat vs ≡ₚ concat (zip_with rejected vs marks)
               ++ concat (zip_with (λ v m, minus v (rejected v m)) vs marks).
Proof.
  induction vs as [|v vs IH]; intros [|m marks] Hlen; simpl in *; try done.
  rewrite (minus_perm (rejected v m) v) at 1
    by apply sublist_submseteq, rejected_sublist.
  rewrite (IH marks) at 1 by lia.
  rewrite <- !app_assoc. f_equiv. rewrite !app_assoc. f_equiv.
  apply Permutation_app_comm.
Qed.

(** [from_study] gives a covered collection, whatever the server lists. *)
Lemma from_study_covered st sid study s st' :
  from_study sid study st = (Val s, st') → covered s.
Proof.
  unfold from_study. intros (series & st1 & _ & Hloop)%bind_Val_inv.
  refine (for_fold_invariant covered _ _ _ _ _ _ _ _ Hloop).
  - clear. intros acc k st r st' Hacc Hbody. unfold add_series in Hbody.
    apply bind_Val_inv in Hbody as (ids & ? & _ & Hret).
    rewrite ret_unfold in Hret. injection Hret as <- _.
    by apply covered_add_series.
  - apply covered_new.
Qed.

(** So does [modify]. *)
Lemma modify_covered st replace_tags remove_tags keep_tags keep_source force m st' :
  modify replace_tags remove_tags keep_tags keep_source force st = (Val (Some m), st') →
  covered m.
Proof.
  unfold modify. intros (ids & st1 & _ & Hrun)%bind_Val_inv.
  apply bind_Val_inv in Hrun as (r & st2 & _ & Hrun).
  destruct (decide (status_code r = 200%Z)); [|by rewrite ret_unfold in Hrun].
  destruct (foldl classify ([], [], []) (json_Resources r))
    as [[studies series] instances].
  apply bind_Val_inv in Hrun as (s & st3 & _ & Hrun).
  repeat (case_match; [by rewrite ret_unfold in Hrun|]).
  apply bind_Val_inv in Hrun as (m0 & st4 & Hloop & Hrun).
  apply bind_Val_inv in Hrun as (first & st5 & _ & Hret).
  rewrite ret_unfold in Hret. injection Hret as <- _.
  assert (covered m0) as [Hwf Hcov]; [|by split].
  refine (for_fold_invariant covered _ _ _ _ _ _ _ _ Hloop).
  - clear. intros acc k st r st' Hacc Hbody. unfold add_modified_series in Hbody.
    apply bind_Val_inv in Hbody as (l & ? & _ & Hret).
    rewrite ret_unfold in Hret. injection Hret as <- _.
    by apply (covered_add_series k _ acc).
  - apply covered_new.
Qed.

(** And so does [filter_instances], on both collections. *)
Lemma filter_instances_covered st :
  covered (self st) →
  filter_total_on E (concat (Dict.values (_by_series (self st)))) →
  ∃ removed st',
    filter_instances st = (Val removed, st')
    ∧ covered (self st')
    ∧ covered removed.
Proof.
  intros Hcov Htot.
  destruct (filter_instances_returns st Hcov Htot)
    as (marks & w' & evs & HF & Hsub & Hrun).
  eexists _, _. split; [exact Hrun|]. cbn [self].
  destruct Hcov as [Hwf Hcov]. unfold Dict.values in *.
  assert (length marks = length (_by_series (self st))) as Hlen.
  { apply Forall2_length in HF. by rewrite length_fmap in HF. }
  unfold covered, Dict.wf, Dict.values. cbn [_by_series _all_instances_ids].
  split_and!.
  - apply drop_empty_wf. unfold Dict.wf, item_after.
    by rewrite (keys_zip_with (λ v m, minus v (rejected v m))).
  - rewrite concat_drop_empty. unfold item_after.
    rewrite (values_zip_with (λ v m, minus v (rejected v m))).
    rewrite (minus_perm _ _ Hsub) in Hcov.
    rewrite (concat_rejected_perm _ marks) in Hcov by (by rewrite length_fmap).
    by apply submseteq_app_inv_l in Hcov.
  - unfold item_rejected. by rewrite (keys_zip_with rejected).
  - unfold item_rejected. by rewrite (values_zip_with rejected).
Qed.
End Covered.

(** ** The theorems on the sample environments *)

Lemma sample_set_duplicate_free : duplicate_free sample_set.
Proof. unfold duplicate_free, in_sync, Dict.wf. split_and!; [by_computation|done|by_computation]. Qed.

Lemma sample_filter_total answer keep raises ids :
  filter_total_on (sample_env answer keep raises) ids.
Proof. intros i w _. by eexists _, _. Qed.

(** The clean modification of the scenario: one study [S2], the series
    [A2] and [B2], and the extra instance [x9] of [A2] is left out. *)
Lemma modify_returns_modified_set_witness :
  ∃ m st',
    modify None None None true false (sample_state clean_env 0 sample_set) = (Val (Some m), st')
    ∧ self st' = sample_set
    ∧ study_id m = Some "S2"
    ∧ Dict.keys (_by_series m) = ["A2"; "B2"]
    ∧ (∀ i, i ∈ default [] (Dict.get "A2" (_by_series m)) ↔ i = "j1" ∨ i = "j2")
    ∧ length (_all_instances_ids m) ≤ 3.
Proof.
  destruct (modify_returns_modified_set (sample_state clean_env 0 sample_set)
              None None None true false (modified "A2" "B2") 1
              [["j1"; "j2"; "x9"]; ["j3"]] 3
              [Called (series_get_instances_ids "A2") (Val ["j1"; "j2"; "x9"]);
               Called (series_get_instances_ids "B2") (Val ["j3"])])
    as (m & st' & sid & Hrun & Hself & _ & Hkeys & Hsid & Hstudy & Hseries & _ & Hbound);
    try done.
  { by_computation. }
  injection Hsid as <-.
  exists m, st'. split_and!; try done.
  - intros i. destruct (Hseries 0 "A2" ["j1"; "j2"; "x9"]) as (ids & -> & _ & Hids);
      [done|done|].
    simpl. rewrite Hids. unfold ids_of_type. simpl.
    rewrite !elem_of_cons, !elem_of_nil.
    split; [|intros [-> | ->]; auto 10].
    intros [[-> | [-> | [-> | []]]] [? | [? | [? | []]]]]; auto; discriminate.
  - apply Hbound.
    intros [|[|?]] [|[|?]] l1 l2 i ?; simpl; intros [= <-] [= <-]; try done;
      rewrite !elem_of_cons, !elem_of_nil; intros Hi Hi';
      repeat (destruct Hi as [-> | Hi]); try done;
      repeat (destruct Hi' as [?|Hi']); done.
Defined.

(** Claim C1 as it is stated fails: an answer that passes the three
    checks but lists the series [D2] twice gives a collection with one
    series for the two of the original and six instance identifiers for its
    three; an answer with two distinct series that the server lists with
    the same instances gives six identifiers as well. *)
Lemma modify_series_count_counterexample :
  (∃ m st',
     status_code (modified "D2" "D2") = 200%Z
     ∧ length (ids_of_type "Study" (json_Resources (modified "D2" "D2"))) = 1
     ∧ length (ids_of_type "Series" (json_Resources (modified "D2" "D2")))
       = length (Dict.keys (_by_series sample_set))
     ∧ length (ids_of_type "Instance" (json_Resources (modified "D2" "D2")))
       = length (_all_instances_ids sample_set)
     ∧ modify None None None true false (sample_state repeated_series_env 0 sample_set)
       = (Val (Some m), st')
     ∧ length (Dict.keys (_by_series m)) = 1
     ∧ length (Dict.keys (_by_series sample_set)) = 2
     ∧ length (_all_instances_ids m) = 6
     ∧ length (_all_instances_ids sample_set) = 3)
  ∧ (∃ m st',
       NoDup (ids_of_type "Series" (json_Resources (modified "D2" "D3")))
       ∧ modify None None None true false (sample_state shared_instances_env 0 sample_set)
         = (Val (Some m), st')
       ∧ length (Dict.keys (_by_series m)) = 2
       ∧ length (_all_instances_ids m) = 6
       ∧ length (_all_instances_ids sample_set) = 3).
Proof.
  split.
  - eexists _, _. split_and!; [done|done|done|done|by vm_compute|done..].
  - eexists _, _. split_and!; [by_computation|by vm_compute|done..].
Qed.

(** A refused request. *)
Lemma modify_returns_no_result_witness :
  status_code refused ≠ 200%Z
  ∧ modify None None None true false (sample_state refusing_env 0 sample_set) =
      (Val None,
       @mkState refusing_env sample_set 1
         [Called (post "tools/bulk-modify"
                    (BulkModifyBody (modify_query ["i1"; "i2"; "i3"] None None None true false)))
                 (Val refused)]).
Proof.
  split; [done|].
  apply (modify_returns_no_result (sample_state refusing_env 0 sample_set)
           None None None true false refused 1); [done|]. by left.
Defined.

(** Claim C2 as it is stated fails: the answer lists one distinct series
    for the two of the snapshot, and [modify] returns a collection. *)
Lemma modify_distinct_series_counterexample :
  ∃ m st',
    length (remove_dups (ids_of_type "Series" (json_Resources (modified "D2" "D2")))) = 1
    ∧ length (Dict.keys (_by_series sample_set)) = 2
    ∧ handle repeated_series_env
        (post "tools/bulk-modify"
           (BulkModifyBody (modify_query ["i1"; "i2"; "i3"] None None None true false))) 0
      = (Val (modified "D2" "D2"), 1)
    ∧ modify None None None true false (sample_state repeated_series_env 0 sample_set)
      = (Val (Some m), st').
Proof. eexists _, _. split_and!; [by vm_compute|done|done|by vm_compute]. Qed.

(** A filter that rejects [i3] splits the snapshot into [i1], [i2] and
    [i3]. *)
Lemma filter_instances_partition_witness :
  covered sample_set
  ∧ NoDup (_all_instances_ids sample_set)
  ∧ ∃ removed st',
      filter_instances (sample_state rejecting_env 0 sample_set) = (Val removed, st')
      ∧ _all_instances_ids (self st') = ["i1"; "i2"]
      ∧ _all_instances_ids removed = ["i3"]
      ∧ ["i1"; "i2"; "i3"] ≡ₚ _all_instances_ids (self st') ++ _all_instances_ids removed.
Proof.
  assert (covered sample_set) as Hcov
    by apply in_sync_covered, sample_set_duplicate_free.
  assert (NoDup (_all_instances_ids sample_set)) as Hnd
    by apply sample_set_duplicate_free.
  split_and!; [done|done|].
  destruct (filter_instances_partition (sample_state rejecting_env 0 sample_set)
              Hcov Hnd (sample_filter_total _ _ _ _))
    as (removed & st' & Hrun & _ & Hperm & _).
  exists removed, st'. split; [done|].
  vm_compute in Hrun. injection Hrun as <- <-. done.
Defined.


(** A filter that accepts everything. *)
Lemma filter_instances_keeps_all_witness :
  (∀ i, filter_always clean_env true i)
  ∧ ∃ removed st',
      filter_instances (sample_state clean_env 0 sample_set) = (Val removed, st')
      ∧ _all_instances_ids removed = []
      ∧ _by_series removed = [("A", []); ("B", [])]
      ∧ self st' = sample_set.
Proof.
  assert (∀ i, filter_always clean_env true i) as Htrue.
  { intros i w. by eexists. }
  split; [done|].
  destruct (filter_instances_keeps_all (sample_state clean_env 0 sample_set))
    as (st' & Hrun & _ & _ & _ & Hself).
  - by_computation.
  - intros i _. apply Htrue.
  - eexists _, st'. split_and!; [exact Hrun|done|done|].
    apply Hself. by repeat constructor.
Defined.

(** Claim C4 as it is stated fails: with a filter that accepts
    everything, the returned collection has an entry for the series [A],
    and a series that is already empty disappears from the receiver. *)
Lemma filter_instances_keeps_all_counterexample :
  (∀ i, filter_always clean_env true i)
  ∧ (∃ removed st',
       filter_instances
         (sample_state clean_env 0
            {| study_id := Some "S1"; _by_series := [("A", ["i1"])];
               _all_instances_ids := ["i1"] |})
       = (Val removed, st')
       ∧ Dict.keys (_by_series removed) = ["A"])
  ∧ (∃ removed st',
       filter_instances
         (sample_state clean_env 0
            {| study_id := Some "S1"; _by_series := [("A", ["i1"]); ("B", [])];
               _all_instances_ids := ["i1"] |})
       = (Val removed, st')
       ∧ _by_series (self st') = [("A", ["i1"])]
       ∧ _by_series (self st') ≠ [("A", ["i1"]); ("B", [])]).
Proof.
  split_and!.
  - intros i w. by eexists.
  - eexists _, _. split; [by vm_compute|done].
  - eexists _, _. split; [by vm_compute|done].
Qed.

(** The snapshot of [S1], built from the server and then filtered. *)
Lemma snapshot_invariant_from_study_and_filter_witness :
  ∃ s st',
    from_study "S1" None (sample_state rejecting_env 0 InstancesSet_new) = (Val s, st')
    ∧ s = sample_set
    ∧ snapshot_invariant s
    ∧ ∃ removed st'',
        filter_instances (sample_state rejecting_env 0 s) = (Val removed, st'')
        ∧ snapshot_invariant (self st'')
        ∧ snapshot_invariant removed.
Proof.
  destruct (@snapshot_invariant_from_study_and_filter rejecting_env) as [Hbuild Hfilter].
  destruct (Hbuild (sample_state rejecting_env 0 InstancesSet_new) "S1" None ["A"; "B"] 1
              [Called (study_info_series_ids "S1") (Val ["A"; "B"])]
              [["i1"; "i2"]; ["i3"]] 3
              [Called (series_get_instances_ids "A") (Val ["i1"; "i2"]);
               Called (series_get_instances_ids "B") (Val ["i3"])])
    as (s & st' & Hrun & Hdf & Hinv); try done; try by_computation.
  assert (s = sample_set) as Hs.
  { vm_compute in Hrun. by injection Hrun as <- _. }
  exists s, st'. split_and!; try done.
  destruct (Hfilter (sample_state rejecting_env 0 s)) as (removed & st'' & Hrun' & _ & ? & _ & ?).
  - done.
  - apply sample_filter_total.
  - by exists removed, st''.
Defined.

(** The scenario of the specification: the snapshot of [S1] has the
    series [A], [B] with the instances [i1], [i2] and [i3], and the request
    names [i1], [i2], [i3] in this order. *)
Lemma delete_issues_one_bulk_delete_witness :
  ∃ s st',
    from_study "S1" None (sample_state clean_env 0 InstancesSet_new) = (Val s, st')
    ∧ Dict.keys (_by_series s) = ["A"; "B"]
    ∧ Dict.values (_by_series s) = [["i1"; "i2"]; ["i3"]]
    ∧ ∃ answer w,
        delete (sample_state clean_env 0 s) =
          (match answer with Val _ => Val tt | Exc e => Exc e end,
           @mkState clean_env s w
             [Called (post "tools/bulk-delete" (BulkDeleteBody ["i1"; "i2"; "i3"])) answer]).
Proof.
  destruct (@delete_issues_one_bulk_delete clean_env) as (_ & Hbuilt & _).
  destruct (Hbuilt (sample_state clean_env 0 InstancesSet_new) "S1" None ["A"; "B"] 1
              [Called (study_info_series_ids "S1") (Val ["A"; "B"])]
              [["i1"; "i2"]; ["i3"]] 3
              [Called (series_get_instances_ids "A") (Val ["i1"; "i2"]);
               Called (series_get_instances_ids "B") (Val ["i3"])])
    as (s & st' & Hrun & Hkeys & Hvalues & Hdelete); try done; try by_computation.
  exists s, st'. split_and!; try done.
  destruct (Hdelete 0 []) as (answer & w & Hd). rewrite Hvalues in Hd.
  by exists answer, w.
Defined.

(** Claim C6 as it is stated fails: the study [S3] lists the series [A]
    twice, the snapshot that [from_study] builds of it has the series [A],
    [B] with the instances [i1], [i2] and [i3], and [delete] names [i1],
    [i2], [i3], [i1], [i2]. *)
Lemma delete_order_counterexample :
  ∃ s st',
    from_study "S3" None (sample_state faulty_env 0 InstancesSet_new) = (Val s, st')
    ∧ _by_series s = [("A", ["i1"; "i2"]); ("B", ["i3"])]
    ∧ concat (Dict.values (_by_series s)) = ["i1"; "i2"; "i3"]
    ∧ delete (sample_state faulty_env 0 s) =
        (Val tt,
         @mkState faulty_env s 1
           [Called (post "tools/bulk-delete"
                      (BulkDeleteBody ["i1"; "i2"; "i3"; "i1"; "i2"]))
                   (Val (modified "A2" "C2"))])
    ∧ ["i1"; "i2"; "i3"; "i1"; "i2"] ≠ concat (Dict.values (_by_series s)).
Proof. eexists _, _. split_and!; [by vm_compute|done..]. Qed.

Lemma accessors_are_pure_reads_witness :
  let st := sample_state clean_env 0 sample_set in
  instances_ids st = (Val ["i1"; "i2"; "i3"], st)
  ∧ series_ids st = (Val ["A"; "B"], st)
  ∧ get_instances_ids "A" st = (Val ["i1"; "i2"], st)
  ∧ get_instances_ids "Z" st = (Val [], st).
Proof.
  intros st. destruct (accessors_are_pure_reads st) as (H1 & H2 & H3 & H4).
  split_and!; [exact H1|exact H2|by apply H3|].
  apply H4. unfold st. simpl. rewrite !not_elem_of_cons. split_and!; try done.
  apply not_elem_of_nil.
Defined.

(** On the snapshot of [S1], a processor that raises on [i2] has been
    called on [i1] and [i2], not on [i3]. *)
Lemma process_instances_in_order_witness :
  ∃ s st',
    from_study "S1" None (sample_state rejecting_env 0 InstancesSet_new) = (Val s, st')
    ∧ Dict.values (_by_series s) = [["i1"; "i2"]; ["i3"]]
    ∧ process_instances (sample_state rejecting_env 0 s) =
        (Exc (External "processor"),
         @mkState rejecting_env s 2
           [Called (processor_call "i1") (Val tt);
            Called (processor_call "i2") (Exc (External "processor"))]).
Proof.
  destruct (@process_instances_in_order rejecting_env) as (_ & Hbuilt).
  destruct (Hbuilt (sample_state rejecting_env 0 InstancesSet_new) "S1" None ["A"; "B"] 1
              [Called (study_info_series_ids "S1") (Val ["A"; "B"])]
              [["i1"; "i2"]; ["i3"]] 3
              [Called (series_get_instances_ids "A") (Val ["i1"; "i2"]);
               Called (series_get_instances_ids "B") (Val ["i3"])])
    as (s & st' & Hrun & _ & Hvalues & _ & Hprocess); try done; try by_computation.
  exists s, st'. split_and!; try done.
  clear Hprocess. vm_compute in Hrun. injection Hrun as <- _.
  by vm_compute.
Defined.

(** Claim C9 as it is stated fails: on the snapshot that [from_study]
    builds of the study [S3], which lists the series [A] twice, the
    processor is called five times for three instances, twice on [i1]
    and on [i2]. *)
Lemma process_order_counterexample :
  ∃ s st',
    from_study "S3" None (sample_state faulty_env 0 InstancesSet_new) = (Val s, st')
    ∧ _by_series s = [("A", ["i1"; "i2"]); ("B", ["i3"])]
    ∧ process_instances (sample_state faulty_env 0 s) =
        (Val tt,
         @mkState faulty_env s 5
           [Called (processor_call "i1") (Val tt);
            Called (processor_call "i2") (Val tt);
            Called (processor_call "i3") (Val tt);
            Called (processor_call "i1") (Val tt);
            Called (processor_call "i2") (Val tt)]).
Proof. eexists _, _. split_and!; [by vm_compute|done..]. Qed.

Lemma filter_instances_study_id_witness :
  ∃ removed st',
    filter_instances (sample_state rejecting_env 0 sample_set) = (Val removed, st')
    ∧ study_id removed = Some "S1".
Proof.
  eexists _, _. split; [by vm_compute|].
  by apply (filter_instances_study_id (sample_state rejecting_env 0 sample_set) _ _ eq_refl).
Defined.

(** ** [add_series] on a collection that has series already *)

Section AddSeries.
Context {E : Env}.
Implicit Types (st : @State E).

Lemma get_set_ne {V} k k' (v : V) (d : Dict.t V) :
  k' ≠ k → Dict.get k' (Dict.set k v d) = Dict.get k' d.
Proof.
  intros Hne. induction d as [|[k0 v0] d IH]; cbn [Dict.set Dict.get].
  - by rewrite decide_False.
  - destruct (decide (k = k0)) as [->|Hk]; cbn [Dict.get].
    + by rewrite !decide_False.
    + by rewrite IH.
Qed.

(** Replacing the list of a series: the flattening loses the old list and
    gains the new one. *)
Lemma length_concat_set k ids old (d : Dict.t (list string)) :
  Dict.get k d = Some old →
  length (concat (Dict.set k ids d).*2) + length old = length (concat d.*2) + length ids.
Proof.
  induction d as [|[k0 v0] d IH]; cbn [Dict.set Dict.get]; [done|].
  destruct (decide (k = k0)) as [->|Hk].
  - intros [= ->]. rewrite !fmap_cons. cbn [snd concat]. rewrite !length_app. lia.
  - intros Hget. rewrite !fmap_cons. cbn [snd concat]. rewrite !length_app.
    specialize (IH Hget). lia.
Qed.

Lemma add_series_run k s st ids w1 :
  handle E (series_get_instances_ids k) (world st) = (Val ids, w1) →
  add_series k s st =
    (Val (_add_series k ids s),
     mkState (self st) w1 (trace st ++ [Called (series_get_instances_ids k) (Val ids)])).
Proof.
  intros Hh. unfold add_series. by rewrite bind_unfold, call_eq, Hh.
Qed.

(** X1: [add_series] with a series that the collection does not have
    yet asks the server for the instances of the series, once, and
    returns the collection with the series last: looking the series up
    gives the list of the server, the other series are as they were, the
    flat list is extended by the list, and a collection that was in sync
    still is. *)
Theorem add_series_new_series k s st ids w1 :
  handle E (series_get_instances_ids k) (world st) = (Val ids, w1) →
  k ∉ Dict.keys (_by_series s) →
  ∃ s',
    add_series k s st =
      (Val s',
       mkState (self st) w1 (trace st ++ [Called (series_get_instances_ids k) (Val ids)]))
    ∧ Dict.get k (_by_series s') = Some ids
    ∧ Dict.keys (_by_series s') = Dict.keys (_by_series s) ++ [k]
    ∧ (∀ k', k' ≠ k → Dict.get k' (_by_series s') = Dict.get k' (_by_series s))
    ∧ _all_instances_ids s' = _all_instances_ids s ++ ids
    ∧ study_id s' = study_id s
    ∧ (in_sync s → in_sync s').
Proof.
  intros Hh Hk. exists (_add_series k ids s).
  split; [by apply add_series_run|].
  cbn [_add_series _by_series _all_instances_ids study_id].
  split_and!; try done.
  - apply get_set_eq.
  - rewrite set_fresh by done. unfold Dict.keys. by rewrite fmap_app.
  - intros k' Hne. by apply get_set_ne.
  - intros [Hwf Hsync]. unfold in_sync, Dict.values.
    cbn [_add_series _by_series _all_instances_ids]. split.
    + by apply wf_set.
    + rewrite set_fresh by done. rewrite fmap_app, concat_app. cbn.
      rewrite app_nil_r. by rewrite Hsync.
Qed.

(** X2: [add_series] with a series that the collection has already
    replaces the list of the series by the list of the server, in place,
    but appends that list to the flat list without taking the old one
    out: the flat list then holds as many identifiers more than the
    mapping as the old list had, so that a collection in sync is no
    longer in sync, unless the old list was empty.  The collection is
    still covered. *)
Theorem add_series_known_series k s st ids old w1 :
  handle E (series_get_instances_ids k) (world st) = (Val ids, w1) →
  in_sync s →
  Dict.get k (_by_series s) = Some old →
  ∃ s',
    add_series k s st =
      (Val s',
       mkState (self st) w1 (trace st ++ [Called (series_get_instances_ids k) (Val ids)]))
    ∧ Dict.get k (_by_series s') = Some ids
    ∧ Dict.keys (_by_series s') = Dict.keys (_by_series s)
    ∧ _all_instances_ids s' = _all_instances_ids s ++ ids
    ∧ length (_all_instances_ids s') =
        length (concat (Dict.values (_by_series s'))) + length old
    ∧ covered s'
    ∧ (old ≠ [] → ¬ in_sync s').
Proof.
  intros Hh [Hwf Hsync] Hget. exists (_add_series k ids s).
  split; [by apply add_series_run|].
  assert (length (_all_instances_ids (_add_series k ids s)) =
          length (concat (Dict.values (_by_series (_add_series k ids s)))) + length old)
    as Hlen.
  { cbn [_add_series _by_series _all_instances_ids]. unfold Dict.values in *.
    rewrite length_app, Hsync.
    pose proof (length_concat_set k ids old _ Hget). lia. }
  split_and!; try done.
  - apply get_set_eq.
  - cbn [_add_series _by_series]. rewrite keys_set.
    rewrite bool_decide_eq_true_2; [done|].
    apply get_Some_elem in Hget. apply list_elem_of_fmap. by exists (k, old).
  - apply covered_add_series, in_sync_covered. by split.
  - intros Hold [_ Hsync']. rewrite Hsync' in Hlen.
    destruct old; [done|]. simpl in Hlen. lia.
Qed.
End AddSeries.

(** ** [from_study], whatever the server lists *)

Section FromStudyAny.
Context {E : Env}.
Implicit Types (st : @State E) (items : list (string * list string)).

Lemma foldl_add_series_flat items : ∀ acc,
  study_id (foldl (fun f item => _add_series item.1 item.2 f) acc items) = study_id acc
  ∧ _all_instances_ids (foldl (fun f item => _add_series item.1 item.2 f) acc items)
    = _all_instances_ids acc ++ concat items.*2.
Proof.
  induction items as [|[k v] items IH]; intros acc; cbn [foldl fmap list_fmap concat].
  - by rewrite app_nil_r.
  - destruct (IH (_add_series (k, v).1 (k, v).2 acc)) as [-> ->].
    cbn [_add_series study_id _all_instances_ids fst snd]. by rewrite <- app_assoc.
Qed.

Lemma foldl_add_series_keys items : ∀ acc k,
  k ∈ Dict.keys (_by_series (foldl (fun f item => _add_series item.1 item.2 f) acc items))
  ↔ k ∈ Dict.keys (_by_series acc) ∨ k ∈ items.*1.
Proof.
  induction items as [|[k0 v0] items IH]; intros acc k; cbn [foldl fmap list_fmap].
  - rewrite elem_of_nil. tauto.
  - rewrite IH. cbn [_add_series _by_series fst snd]. rewrite keys_set, elem_of_cons.
    case_bool_decide as Hin.
    + split; [tauto|]. intros [?|[->|?]]; tauto.
    + rewrite elem_of_app, list_elem_of_singleton. tauto.
Qed.

Lemma foldl_add_series_get_other items : ∀ acc k,
  k ∉ items.*1 →
  Dict.get k (_by_series (foldl (fun f item => _add_series item.1 item.2 f) acc items))
  = Dict.get k (_by_series acc).
Proof.
  induction items as [|[k0 v0] items IH]; intros acc k Hk; cbn [foldl]; [done|].
  rewrite fmap_cons in Hk. apply not_elem_of_cons in Hk as [Hne Hk].
  rewrite IH by done. cbn [_add_series _by_series fst snd]. by apply get_set_ne.
Qed.

(** The list of a series is the one that was added last. *)
Lemma foldl_add_series_get_last pre k l post acc :
  k ∉ post.*1 →
  Dict.get k (_by_series (foldl (fun f item => _add_series item.1 item.2 f) acc
                                (pre ++ (k, l) :: post)))
  = Some l.
Proof.
  intros Hk. rewrite foldl_app. cbn [foldl]. rewrite foldl_add_series_get_other by done.
  cbn [_add_series _by_series fst snd]. apply get_set_eq.
Qed.

Lemma add_series_loop_Exc series : ∀ acc st e w' evs,
  ask_each series_get_instances_ids series (world st) = (Exc e, w', evs) →
  for_fold series acc
      (fun instances_set series_id => add_series series_id instances_set) st =
    (Exc e, mkState (self st) w' (trace st ++ evs)).
Proof.
  induction series as [|k series IH]; intros acc st e w' evs; simpl; [done|].
  rewrite bind_unfold. unfold add_series at 1. rewrite bind_unfold, call_eq.
  destruct (handle E (series_get_instances_ids k) (world st)) as [[l|e'] w1] eqn:Hh.
  - destruct (ask_each series_get_instances_ids series w1) as [[[ls|e'] w2] evs2] eqn:Ha;
      [done|].
    intros [= <- <- <-]. cbn [fst snd]. rewrite ret_unfold.
    rewrite (IH _ _ e' w2 evs2) by done.
    cbn [self world trace]. by rewrite <- app_assoc.
  - by intros [= <- <- <-].
Qed.

Lemma from_study_unfold st sid study :
  let study' := default (studies_get sid) study in
  from_study sid study st =
    match read_series_ids study' (world st) with
    | (Val series, w1, evs0) =>
        for_fold series (set_study_id (Some (orthanc_id study')) InstancesSet_new)
          (fun instances_set series_id => add_series series_id instances_set)
          (mkState (self st) w1 (trace st ++ evs0))
    | (Exc e, w1, evs0) => (Exc e, mkState (self st) w1 (trace st ++ evs0))
    end.
Proof.
  intros study'. unfold from_study.
  replace (match study with Some study0 => study0 | None => studies_get sid end)
    with (default (studies_get sid) study) by (by destruct study).
  fold study'. rewrite bind_unfold, study_series_ids_run.
  by destruct (read_series_ids study' (world st)) as [[[series|e] w1] evs0].
Qed.

(** The request that reading the series of a study makes. *)
Lemma read_series_ids_events study (w : World E) r w1 evs0 :
  read_series_ids study w = (r, w1, evs0) →
  evs0 = match info_series_ids study with
         | Some _ => []
         | None => [Called (study_info_series_ids (orthanc_id study)) r]
         end
  ∧ (∀ e, r = Exc e → info_series_ids study = None).
Proof.
  unfold read_series_ids. destruct (info_series_ids study) as [l|].
  - intros [= <- <- <-]. split; [done|]. by intros e [=].
  - destruct (handle E _ w) as [r' w']. by intros [= <- <- <-].
Qed.

(** X3: [from_study] on a server that answers every request, whatever
    it lists (a series twice, an instance twice): the collection has the
    identifier of the study, its flat list is the lists of the server one
    after the other, in the order of the requests, its series are the
    series of the study, each once, a series that is listed several times
    has the list of the last request for it, and the collection is
    covered.  The requests are the one for the series of the study,
    which is not made for a pre-fetched study, and one per listed series,
    in order; the receiver of the running method is not changed. *)
Theorem from_study_any_listing st sid study series w1 evs0 answers w2 evs :
  let study' := default (studies_get sid) study in
  read_series_ids study' (world st) = (Val series, w1, evs0) →
  ask_each series_get_instances_ids series w1 = (Val answers, w2, evs) →
  ∃ s,
    from_study sid study st = (Val s, mkState (self st) w2 (trace st ++ evs0 ++ evs))
    ∧ evs0 = match info_series_ids study' with
             | Some _ => []
             | None => [Called (study_info_series_ids (orthanc_id study')) (Val series)]
             end
    ∧ evs = zip_with (λ k l, Called (series_get_instances_ids k) (Val l)) series answers
    ∧ study_id s = Some (orthanc_id study')
    ∧ _all_instances_ids s = concat answers
    ∧ Dict.wf (_by_series s)
    ∧ (∀ k, k ∈ Dict.keys (_by_series s) ↔ k ∈ series)
    ∧ (∀ pre k post l, series = pre ++ k :: post → k ∉ post →
         answers !! length pre = Some l → Dict.get k (_by_series s) = Some l)
    ∧ covered s.
Proof.
  intros study' Hh Ha.
  pose proof Ha as (Hlen & Hevs & _)%ask_each_Val.
  eexists. split.
  { rewrite from_study_unfold. fold study'. rewrite Hh.
    rewrite (add_series_loop series _ _ answers w2 evs) by done.
    cbn [self world trace]. rewrite <- app_assoc. reflexivity. }
  set (acc := set_study_id (Some (orthanc_id study')) InstancesSet_new).
  destruct (foldl_add_series_flat (zip series answers) acc) as [Hsid Hall].
  assert (covered (foldl (fun f item => _add_series item.1 item.2 f) acc
                         (zip series answers))) as Hcov
    by apply covered_foldl_add_series, covered_new.
  split_and!; try done.
  - by apply read_series_ids_events in Hh as [? _].
  - by rewrite Hall, snd_zip by lia.
  - apply Hcov.
  - intros k. rewrite foldl_add_series_keys, fst_zip by lia.
    cbn. rewrite elem_of_nil. tauto.
  - intros pre k post l -> Hk Hl.
    rewrite <- (take_drop_middle answers (length pre) l Hl).
    assert (length (take (length pre) answers) = length pre) as Hpre.
    { rewrite length_take. rewrite length_app in Hlen. lia. }
    rewrite zip_with_app by done. cbn [zip_with].
    apply foldl_add_series_get_last.
    intros ([k' v] & -> & Hin%elem_of_zip_l)%list_elem_of_fmap. done.
Qed.

(** X4: [from_study] does not catch what the server raises.  Reading
    the series of the study fails only when the study is not pre-fetched
    and the request for it fails: that exception is raised after this one
    request.  When the request for one of the series fails, it raises
    that exception: the series before it have been asked, in order, the
    series after it have not, and no collection is returned.  The
    receiver of the running method is not changed. *)
Theorem from_study_propagates_failure st sid study :
  let study' := default (studies_get sid) study in
  (∀ e w1 evs0,
     read_series_ids study' (world st) = (Exc e, w1, evs0) →
     from_study sid study st = (Exc e, mkState (self st) w1 (trace st ++ evs0))
     ∧ info_series_ids study' = None
     ∧ evs0 = [Called (study_info_series_ids (orthanc_id study')) (Exc e)])
  ∧ (∀ series w1 evs0 e w2 evs,
       read_series_ids study' (world st) = (Val series, w1, evs0) →
       ask_each series_get_instances_ids series w1 = (Exc e, w2, evs) →
       from_study sid study st =
         (Exc e, mkState (self st) w2 (trace st ++ evs0 ++ evs))
       ∧ evs0 = match info_series_ids study' with
                | Some _ => []
                | None => [Called (study_info_series_ids (orthanc_id study')) (Val series)]
                end
       ∧ ∃ pre k post l,
           series = pre ++ k :: post
           ∧ length l = length pre
           ∧ evs = zip_with (λ k l, Called (series_get_instances_ids k) (Val l)) pre l
                   ++ [Called (series_get_instances_ids k) (Exc e)]).
Proof.
  intros study'. split.
  - intros e w1 evs0 Hh. split_and!.
    + rewrite from_study_unfold. fold study'. by rewrite Hh.
    + apply read_series_ids_events in Hh as [_ Hnone]. by apply (Hnone e).
    + pose proof Hh as [Hevs Hnone]%read_series_ids_events.
      by rewrite (Hnone e eq_refl) in Hevs.
  - intros series w1 evs0 e w2 evs Hh Ha. split_and!.
    + rewrite from_study_unfold. fold study'. rewrite Hh.
      rewrite (add_series_loop_Exc series _ _ e w2 evs) by done.
      cbn [self world trace]. by rewrite <- app_assoc.
    + by apply read_series_ids_events in Hh as [? _].
    + by apply ask_each_Exc in Ha.
Qed.
End FromStudyAny.

(** ** [filter_instances] with a predicate *)

Section FilterPredicate.
Context {E : Env}.
Implicit Types (st : @State E) (p : string → bool) (d : Dict.t (list string)).

Lemma ask_each_filter_is p ids : ∀ w : World E,
  filter_is E p ids →
  ∃ w', ask_each filter_call ids w =
          (Val (p <$> ids), w', (λ i, Called (filter_call i) (Val (p i))) <$> ids).
Proof.
  induction ids as [|i ids IH]; intros w Hp; simpl; [by eauto|].
  destruct (Hp i w) as (w1 & ->); [left|].
  destruct (IH w1) as (w2 & ->).
  { intros j w0 Hj. apply Hp. by right. }
  by eauto.
Qed.

Lemma ask_groups_filter_is p (groups : list (list string)) : ∀ w : World E,
  filter_is E p (concat groups) →
  ∃ w', ask_groups filter_call groups w =
          (Val ((λ g : list string, p <$> g) <$> groups), w',
           (λ i, Called (filter_call i) (Val (p i))) <$> concat groups).
Proof.
  induction groups as [|g groups IH]; intros w Hp; simpl; [by eauto|].
  destruct (ask_each_filter_is p g w) as (w1 & ->).
  { intros i w0 Hi. apply Hp. simpl. apply elem_of_app. by left. }
  destruct (IH w1) as (w2 & ->).
  { intros i w0 Hi. apply Hp. simpl. apply elem_of_app. by right. }
  rewrite fmap_app. by eauto.
Qed.

Lemma rejected_fmap p (v : list string) :
  rejected v (p <$> v) = filter (λ i, ¬ Is_true (p i)) v.
Proof.
  induction v as [|i v IH]; [done|].
  rewrite fmap_cons, filter_cons. cbn [rejected]. rewrite IH.
  destruct (p i) eqn:Hp; case_decide as Hd; try done; exfalso; simpl in Hd; tauto.
Qed.

Lemma minus_rejected p (v : list string) :
  NoDup v → minus v (filter (λ i, ¬ Is_true (p i)) v) = filter (λ i, Is_true (p i)) v.
Proof.
  induction 1 as [|i v Hi Hnd IH]; [done|].
  rewrite !filter_cons. destruct (decide (Is_true (p i))) as [Hp|Hp].
  - rewrite decide_False by tauto.
    rewrite (minus_app_r _ [i] v).
    + by rewrite IH.
    + intros x [_ Hx]%list_elem_of_filter ->%list_elem_of_singleton. done.
  - rewrite decide_True by tauto.
    rewrite minus_cons. cbn [remove_first]. by rewrite decide_True.
Qed.

Lemma concat_fmap_filter (P : string → Prop) `{!∀ i, Decision (P i)}
    (vs : list (list string)) :
  concat (filter P <$> vs) = filter P (concat vs).
Proof.
  induction vs as [|v vs IH]; [done|].
  rewrite fmap_cons. cbn [concat]. by rewrite filter_app, IH.
Qed.

Lemma filter_twice (P : string → Prop) `{!∀ i, Decision (P i)} (l : list string) :
  filter P (filter P l) = filter P l.
Proof.
  induction l as [|x l IH]; [done|].
  rewrite filter_cons. case_decide as HP; [|done].
  by rewrite filter_cons, decide_True, IH.
Qed.

Lemma filter_then_not p (l : list string) :
  filter (λ i, ¬ Is_true (p i)) (filter (λ i, Is_true (p i)) l) = [].
Proof.
  induction l as [|x l IH]; [done|].
  rewrite filter_cons. case_decide as HP; [|done].
  rewrite filter_cons, decide_False; [done|]. tauto.
Qed.

Lemma items_by_predicate p d :
  Forall NoDup d.*2 →
  zip_with item_after d ((λ g : list string, p <$> g) <$> d.*2) = kept_items p d
  ∧ zip_with item_rejected d ((λ g : list string, p <$> g) <$> d.*2) = rejected_items p d
  ∧ concat (zip_with rejected d.*2 ((λ g : list string, p <$> g) <$> d.*2))
    = filter (λ i, ¬ Is_true (p i)) (concat d.*2).
Proof.
  unfold kept_items, rejected_items.
  induction d as [|[k v] d IH]; [done|].
  rewrite !fmap_cons. cbn [snd]. intros [Hv Hd]%Forall_cons.
  destruct (IH Hd) as (IH1 & IH2 & IH3).
  cbn [zip_with concat]. rewrite IH1, IH2, IH3, filter_app.
  unfold item_after, item_rejected. cbn [fst snd].
  by rewrite rejected_fmap, minus_rejected.
Qed.

Lemma NoDup_concat_each (vs : list (list string)) : NoDup (concat vs) → Forall NoDup vs.
Proof.
  induction vs as [|v vs IH]; cbn [concat]; [constructor|].
  intros (? & _ & ?)%NoDup_app. constructor; auto.
Qed.

Lemma keys_kept_items p d : (kept_items p d).*1 = d.*1.
Proof. unfold kept_items. rewrite <- list_fmap_compose. by apply list_fmap_ext. Qed.

Lemma values_kept_items p d :
  (kept_items p d).*2 = filter (λ i, Is_true (p i)) <$> d.*2.
Proof.
  unfold kept_items. rewrite <- !list_fmap_compose. by apply list_fmap_ext.
Qed.

Lemma get_kept_items p k d :
  Dict.get k (kept_items p d) = filter (λ i, Is_true (p i)) <$> Dict.get k d.
Proof.
  induction d as [|[k' v] d IH]; [done|].
  unfold kept_items. rewrite fmap_cons. cbn [Dict.get fst snd].
  by destruct (decide (k = k')).
Qed.

Lemma get_rejected_items p k d :
  Dict.get k (rejected_items p d) = filter (λ i, ¬ Is_true (p i)) <$> Dict.get k d.
Proof.
  induction d as [|[k' v] d IH]; [done|].
  unfold rejected_items. rewrite fmap_cons. cbn [Dict.get fst snd].
  by destruct (decide (k = k')).
Qed.

Lemma get_drop_empty_Some k v d :
  Dict.get k d = Some v → v ≠ [] → Dict.get k (drop_empty d) = Some v.
Proof.
  intros Hget Hv. induction d as [|[k' v'] d IH]; [done|].
  rewrite drop_empty_cons. cbn [Dict.get] in Hget.
  destruct (decide (k = k')) as [->|Hne].
  - injection Hget as ->. destruct v; [done|]. cbn [length Nat.eqb Dict.get].
    by rewrite decide_True.
  - destruct (length v' =? 0); [by apply IH|].
    cbn [Dict.get]. rewrite decide_False by done. by apply IH.
Qed.

Lemma drop_empty_twice d : drop_empty (drop_empty d) = drop_empty d.
Proof.
  apply drop_empty_id, Forall_forall. intros [k v] [Hne _]%list_elem_of_filter.
  cbn [snd] in *. by destruct v.
Qed.

Lemma kept_items_drop_empty p d :
  kept_items p (drop_empty (kept_items p d)) = drop_empty (kept_items p d).
Proof.
  assert (∀ d' : Dict.t (list string),
            Forall (λ item, filter (λ i, Is_true (p i)) item.2 = item.2) d' →
            kept_items p d' = d') as Hid.
  { induction 1 as [|[k v] d' Hv _ IH]; [done|].
    unfold kept_items in *. rewrite fmap_cons, IH. cbn [fst snd] in *. by rewrite Hv. }
  apply Hid, Forall_forall.
  intros [k v] [_ ([k0 v0] & [= -> ->] & _)%list_elem_of_fmap]%list_elem_of_filter.
  cbn [snd]. apply filter_twice.
Qed.

Lemma rejected_items_kept p d :
  Forall (λ item, item.2 = []) (rejected_items p (drop_empty (kept_items p d))).
Proof.
  apply Forall_forall. intros [k r] ([k' v] & [= -> ->] & Hin)%list_elem_of_fmap. cbn [snd].
  apply list_elem_of_filter in Hin as [_ ([k0 v0] & [= -> ->] & _)%list_elem_of_fmap].
  cbn [snd]. apply filter_then_not.
Qed.

(** [filter_instances] in closed form when the filter is a predicate. *)
Lemma filter_instances_pure_run st p :
  let s := self st in
  duplicate_free s →
  filter_is E p (_all_instances_ids s) →
  ∃ w',
    filter_instances st =
      (Val {| study_id := study_id s;
              _by_series := rejected_items p (_by_series s);
              _all_instances_ids := filter (λ i, ¬ Is_true (p i)) (_all_instances_ids s) |},
       mkState {| study_id := study_id s;
                  _by_series := drop_empty (kept_items p (_by_series s));
                  _all_instances_ids := filter (λ i, Is_true (p i)) (_all_instances_ids s) |}
               w'
               (trace st ++ ((λ i, Called (filter_call i) (Val (p i)))
                               <$> _all_instances_ids s))).
Proof.
  intros s [[Hwf Hsync] Hnd] Hp. unfold Dict.values in Hsync.
  destruct (ask_groups_filter_is p (_by_series s).*2 (world st)) as (w' & Hask).
  { by rewrite <- Hsync. }
  destruct (items_by_predicate p (_by_series s)) as (Hkept & Hrej & Hrejs).
  { apply NoDup_concat_each. by rewrite <- Hsync. }
  pose proof (NoDup_concat_each (_by_series s).*2) as Heach.
  rewrite <- Hsync in Heach. specialize (Heach Hnd).
  assert (minus (_all_instances_ids s)
            (concat (zip_with rejected (_by_series s).*2
                       ((λ g : list string, p <$> g) <$> (_by_series s).*2)))
          = filter (λ i, Is_true (p i)) (_all_instances_ids s)) as Hminus.
  { rewrite Hsync. rewrite minus_concat by (by rewrite <- ?Hsync, ?length_fmap).
    rewrite <- concat_fmap_filter. f_equal.
    clear -Heach. induction Heach as [|v vs Hv _ IH]; [done|].
    rewrite !fmap_cons. cbn [zip_with]. by rewrite IH, rejected_fmap, minus_rejected. }
  exists w'.
  rewrite (filter_instances_run st _ w' _ Hwf Hask); fold s; unfold Dict.values.
  - by rewrite Hminus, Hkept, Hrej, Hrejs, <- Hsync.
  - rewrite Hrejs, <- Hsync. apply sublist_submseteq, sublist_filter.
Qed.

Lemma duplicate_free_kept s p :
  duplicate_free s →
  duplicate_free {| study_id := study_id s;
                    _by_series := drop_empty (kept_items p (_by_series s));
                    _all_instances_ids := filter (λ i, Is_true (p i)) (_all_instances_ids s) |}.
Proof.
  intros [[Hwf Hsync] Hnd]. unfold duplicate_free, in_sync, Dict.wf, Dict.values in *.
  cbn [_by_series _all_instances_ids]. split_and!.
  - apply drop_empty_wf. unfold Dict.wf. by rewrite keys_kept_items.
  - by rewrite concat_drop_empty, values_kept_items, concat_fmap_filter, Hsync.
  - by apply NoDup_filter.
Qed.

(** X5: when the filter is a predicate [p] (on each instance of the
    collection it returns [p] of the instance, whatever the state) and the
    collection has no identifier twice, [filter_instances] calls the
    filter once per instance, in the order of the flat list, keeps in each
    series the instances that satisfy [p], in their order, returns the
    others under the same series, also in their order, and drops from the
    receiver the series of which no instance satisfies [p]. *)
Theorem filter_instances_by_predicate st p :
  let s := self st in
  duplicate_free s →
  filter_is E p (_all_instances_ids s) →
  ∃ removed st',
    filter_instances st = (Val removed, st')
    ∧ trace st' = trace st ++ ((λ i, Called (filter_call i) (Val (p i)))
                                 <$> _all_instances_ids s)
    ∧ _all_instances_ids (self st') = filter (λ i, Is_true (p i)) (_all_instances_ids s)
    ∧ _all_instances_ids removed = filter (λ i, ¬ Is_true (p i)) (_all_instances_ids s)
    ∧ Dict.keys (_by_series removed) = Dict.keys (_by_series s)
    ∧ (∀ k v, Dict.get k (_by_series s) = Some v →
         Dict.get k (_by_series removed) = Some (filter (λ i, ¬ Is_true (p i)) v)
         ∧ Dict.get k (_by_series (self st')) =
             match filter (λ i, Is_true (p i)) v with
             | [] => None
             | kept => Some kept
             end)
    ∧ (∀ k, k ∉ Dict.keys (_by_series s) → k ∉ Dict.keys (_by_series (self st'))).
Proof.
  intros s Hdf Hp.
  destruct (filter_instances_pure_run st p Hdf Hp) as (w' & Hrun). fold s in Hrun.
  eexists _, _. split; [exact Hrun|].
  cbn [self trace _by_series _all_instances_ids].
  destruct Hdf as [[Hwf _] _].
  split_and!; try done.
  - unfold Dict.keys, rejected_items. rewrite <- list_fmap_compose. by apply list_fmap_ext.
  - intros k v Hget. split.
    + by rewrite get_rejected_items, Hget.
    + pose proof (get_kept_items p k (_by_series s)) as Hk. rewrite Hget in Hk.
      cbn [fmap option_fmap option_map] in Hk.
      destruct (filter (λ i, Is_true (p i)) v) as [|x kept] eqn:Hf.
      * apply get_drop_empty; [|done]. unfold Dict.wf. by rewrite keys_kept_items.
      * by apply get_drop_empty_Some.
  - intros k Hk Hin. apply Hk.
    eapply elem_of_sublist; [exact Hin|].
    unfold Dict.keys. rewrite <- (keys_kept_items p (_by_series s)).
    apply fmap_sublist, drop_empty_sublist.
Qed.

(** X6: filtering a second time with the same predicate changes
    nothing: the receiver is as the first filtering left it, and the
    collection that is returned holds no instance. *)
Theorem filter_instances_twice st p :
  let s := self st in
  duplicate_free s →
  filter_is E p (_all_instances_ids s) →
  ∃ removed st1 removed2 st2,
    filter_instances st = (Val removed, st1)
    ∧ filter_instances st1 = (Val removed2, st2)
    ∧ self st2 = self st1
    ∧ _all_instances_ids removed2 = []
    ∧ Forall (λ item, item.2 = []) (_by_series removed2).
Proof.
  intros s Hdf Hp.
  destruct (filter_instances_pure_run st p Hdf Hp) as (w1 & Hrun). fold s in Hrun.
  match type of Hrun with _ = (_, ?x) => set (st1 := x) in * end.
  destruct (filter_instances_pure_run st1 p) as (w2 & Hrun2).
  { by apply duplicate_free_kept. }
  { intros i w [_ Hi]%list_elem_of_filter. by apply Hp. }
  eexists _, st1, _, _. split; [exact Hrun|]. split; [exact Hrun2|].
  cbn [self st1 study_id _by_series _all_instances_ids].
  split_and!.
  - by rewrite kept_items_drop_empty, drop_empty_twice, filter_twice.
  - apply filter_then_not.
  - apply rejected_items_kept.
Qed.
End FilterPredicate.

(** ** [filter_instances] with a filter that raises *)

Section FilterRaises.
Context {E : Env}.
Implicit Types (st : @State E).

Lemma for_fold_app {A B} (l1 l2 : list A) (body : B → A → M B) : ∀ (acc : B) st,
  for_fold (l1 ++ l2) acc body st =
    match for_fold l1 acc body st with
    | (Val acc', st') => for_fold l2 acc' body st'
    | (Exc e, st') => (Exc e, st')
    end.
Proof.
  induction l1 as [|x l1 IH]; intros acc st; [done|].
  cbn [app]. rewrite !for_fold_cons.
  destruct (body acc x st) as [[acc'|e] st']; [apply IH|done].
Qed.

(** The loop of [filter_instances] over some of the series, the series
    [rest] being still to come. *)
Lemma filter_loop_prefix its rest : ∀ done marks st std flt w' evs,
  _by_series (self st) = done ++ its ++ rest →
  Dict.wf (done ++ its ++ rest) →
  ask_groups filter_call its.*2 (world st) = (Val marks, w', evs) →
  concat (zip_with rejected its.*2 marks) ⊆+ _all_instances_ids (self st) →
  for_fold its (std, flt) filter_series st =
    (Val (std ++ emptied (zip_with item_after its marks),
          foldl (fun f item => _add_series item.1 item.2 f) flt
                (zip_with item_rejected its marks)),
     mkState {| study_id := study_id (self st);
                _by_series := done ++ zip_with item_after its marks ++ rest;
                _all_instances_ids :=
                  minus (_all_instances_ids (self st))
                        (concat (zip_with rejected its.*2 marks)) |}
             w' (trace st ++ evs)).
Proof.
  induction its as [|[k v] its IH];
    intros done marks st std flt w' evs Hd Hwf Hask Hsub.
  - injection Hask as <- <- <-. destruct st as [[sid d a] w t]. simpl in *.
    subst d. by rewrite !app_nil_r.
  - cbn [fmap list_fmap ask_groups] in Hask. simpl in Hask.
    destruct (ask_each filter_call v (world st)) as [[[m|e] w1] evs1] eqn:Hm; [|done].
    destruct (ask_groups filter_call its.*2 w1) as [[[marks'|e] w2] evs2] eqn:Hms; [|done].
    injection Hask as <- <- <-. simpl in Hsub.
    assert (k ∉ Dict.keys done) as Hk.
    { unfold Dict.wf in Hwf. rewrite fmap_app in Hwf.
      apply NoDup_app in Hwf as (_ & Hwf & _). intros Hin.
      apply (Hwf _ Hin). left. }
    set (rej := rejected v m) in *.
    assert (rej ⊆+ _all_instances_ids (self st)) as Hra
      by (etrans; [|exact Hsub]; by apply submseteq_inserts_r).
    rewrite for_fold_cons. unfold filter_series at 1.
    rewrite bind_unfold. unfold collect_instances_to_delete.
    rewrite collect_run, Hm. cbn [app]. fold rej.
    rewrite bind_unfold. cbn [app] in Hd.
    rewrite (remove_instances_run k rej _ v); cbn [self world trace].
    2:{ rewrite Hd, get_app_notin by done. apply get_cons_eq. }
    2:{ apply sublist_submseteq, rejected_sublist. }
    2:{ done. }
    rewrite bind_unfold. unfold get_self at 1.
    cbn [self _by_series]. rewrite Hd, set_app_notin by done.
    rewrite bind_unfold.
    rewrite get_app_notin by done. rewrite get_cons_eq.
    cbn [of_option]. rewrite !ret_unfold.
    rewrite (IH (done ++ [(k, minus v rej)]) marks' _ _ _ w2 evs2);
      cbn [self world trace study_id _by_series _all_instances_ids].
    + cbn [zip_with fmap list_fmap concat foldl].
      change (item_after (k, v) m) with (k, minus v rej).
      change (item_rejected (k, v) m) with (k, rej).
      cbn [fst snd]. rewrite emptied_cons, <- !app_assoc. cbn [app].
      rewrite minus_app.
      destruct (length (minus v rej) =? 0); rewrite <- ?app_assoc; reflexivity.
    + by rewrite <- app_assoc.
    + unfold Dict.wf in *. rewrite <- app_assoc. cbn [app] in Hwf |- *.
      rewrite fmap_app in Hwf |- *. done.
    + done.
    + rewrite (minus_perm rej _ Hra) in Hsub at 1.
      by apply submseteq_app_inv_l in Hsub.
Qed.

Lemma filter_series_Exc acc k v st e w' evs :
  ask_each filter_call v (world st) = (Exc e, w', evs) →
  filter_series acc (k, v) st = (Exc e, mkState (self st) w' (trace st ++ evs)).
Proof.
  intros Ha. destruct acc as [std flt]. unfold filter_series.
  rewrite bind_unfold. unfold collect_instances_to_delete.
  by rewrite collect_run, Ha.
Qed.

(** X7: [filter_instances] does not catch what the filter raises, and
    it is not atomic.  When the filter answers on the instances of the
    first series and raises on an instance of the series [k], the
    exception is raised and the receiver is left half filtered: the
    instances that were rejected in the series before [k] are gone from
    its mapping and from its flat list, and no collection with them is
    returned; the series that lost all their instances are still there,
    with an empty list; the series [k] and the ones after it are as they
    were. *)
Theorem filter_instances_filter_raises st done k v rest marks w1 evs1 e w2 evs2 :
  let s := self st in
  let rejs := concat (zip_with rejected (Dict.values done) marks) in
  covered s →
  _by_series s = done ++ (k, v) :: rest →
  ask_groups filter_call (Dict.values done) (world st) = (Val marks, w1, evs1) →
  ask_each filter_call v w1 = (Exc e, w2, evs2) →
  filter_instances st =
    (Exc e,
     mkState {| study_id := study_id s;
                _by_series := zip_with item_after done marks ++ (k, v) :: rest;
                _all_instances_ids := minus (_all_instances_ids s) rejs |}
             w2 (trace st ++ evs1 ++ evs2))
  ∧ _all_instances_ids s ≡ₚ rejs ++ minus (_all_instances_ids s) rejs
  ∧ Dict.keys (zip_with item_after done marks ++ (k, v) :: rest) = Dict.keys (_by_series s).
Proof.
  intros s rejs [Hwf Hcov] Hd Hask Ha. unfold Dict.values in *.
  assert (rejs ⊆+ _all_instances_ids s) as Hsub.
  { etrans; [apply rejected_concat_submseteq|]. etrans; [|exact Hcov].
    rewrite Hd, fmap_app, concat_app. by apply submseteq_inserts_r. }
  assert (length marks = length done) as Hlen.
  { apply ask_groups_Val, Forall2_length in Hask. by rewrite length_fmap in Hask. }
  split_and!.
  - unfold filter_instances. rewrite bind_unfold. unfold get_self at 1.
    rewrite bind_unfold. fold s. rewrite Hd.
    rewrite for_fold_app.
    rewrite (filter_loop_prefix done ((k, v) :: rest) [] marks st _ _ w1 evs1);
      [|by rewrite <- Hd|by rewrite <- Hd|done|done].
    rewrite for_fold_cons.
    rewrite (filter_series_Exc _ k v _ e w2 evs2) by done.
    cbn [self world trace app]. fold s rejs. by rewrite <- app_assoc.
  - by apply minus_perm.
  - rewrite Hd. unfold Dict.keys, item_after. rewrite !fmap_app.
    by rewrite (keys_zip_with (λ v m, minus v (rejected v m))).
Qed.
End FilterRaises.

(** ** [modify]: the collection it returns, and its failures *)

Section ModifyMore.
Context {E : Env}.
Implicit Types (st : @State E).

Lemma modified_series_loop_Exc instances series : ∀ acc st e w' evs,
  ask_each series_get_instances_ids series (world st) = (Exc e, w', evs) →
  for_fold series acc (add_modified_series instances) st =
    (Exc e, mkState (self st) w' (trace st ++ evs)).
Proof.
  induction series as [|k series IH]; intros acc st e w' evs; simpl; [done|].
  rewrite bind_unfold. unfold add_modified_series at 1. rewrite bind_unfold, call_eq.
  destruct (handle E (series_get_instances_ids k) (world st)) as [[l|e'] w1] eqn:Hh.
  - destruct (ask_each series_get_instances_ids series w1) as [[[ls|e'] w2] evs2] eqn:Ha;
      [done|].
    intros [= <- <- <-]. cbn [fst snd]. rewrite ret_unfold.
    rewrite (IH _ _ e' w2 evs2) by done.
    cbn [self world trace]. by rewrite <- app_assoc.
  - by intros [= <- <- <-].
Qed.

(** [modify] in closed form, when the answer passes the three checks and
    lists no series twice. *)
Lemma modify_run st replace_tags remove_tags keep_tags keep_source force
    r w1 answers w2 evs sid :
  let s := self st in
  let op := post "tools/bulk-modify"
              (BulkModifyBody (modify_query (_all_instances_ids s) replace_tags
                                 remove_tags keep_tags keep_source force)) in
  let series := ids_of_type "Series" (json_Resources r) in
  let instances := ids_of_type "Instance" (json_Resources r) in
  handle E op (world st) = (Val r, w1) →
  ask_each series_get_instances_ids series w1 = (Val answers, w2, evs) →
  status_code r = 200%Z →
  ids_of_type "Study" (json_Resources r) = [sid] →
  length series = length (Dict.keys (_by_series s)) →
  length instances = length (_all_instances_ids s) →
  NoDup series →
  modify replace_tags remove_tags keep_tags keep_source force st =
    (Val (Some {| study_id := Some sid;
                  _by_series := zip series (intersect E instances <$> answers);
                  _all_instances_ids := concat (intersect E instances <$> answers) |}),
     mkState s w2 (trace st ++ Called op (Val r) :: evs)).
Proof.
  intros s op series instances Hh Ha H200 Hsid Hseries Hinstances Hnd.
  pose proof Ha as (Hlen & _ & _)%ask_each_Val.
  rewrite (modify_answered st _ _ _ _ _ r w1) by done. fold s series instances op.
  rewrite decide_True by done. rewrite Hsid.
  cbn [length Nat.eqb negb]. rewrite Hseries, Hinstances, !Nat.eqb_refl. cbn [negb].
  rewrite bind_unfold.
  rewrite (modified_series_loop instances series _ _ answers w2 evs) by done.
  rewrite bind_unfold. cbn [lookup list_lookup of_option]. rewrite !ret_unfold.
  cbn [self world trace]. rewrite <- app_assoc. cbn [app].
  rewrite foldl_add_series.
  - cbn [set_study_id InstancesSet_new study_id _by_series _all_instances_ids app].
    rewrite snd_zip by (rewrite length_fmap; lia). done.
  - cbn [InstancesSet_new _by_series Dict.keys fmap list_fmap app].
    rewrite fst_zip; [done|]. rewrite length_fmap. lia.
Qed.

(** The lists that [modify] keeps have no identifier twice when no
    modified instance is listed under two series. *)
Lemma NoDup_concat_intersect instances (answers : list (list string)) :
  (∀ j1 j2 l1 l2 i, j1 ≠ j2 → answers !! j1 = Some l1 → answers !! j2 = Some l2 →
                    i ∈ instances → i ∈ l1 → i ∉ l2) →
  NoDup (concat (intersect E instances <$> answers)).
Proof.
  intros Hdisj. apply NoDup_concat_disjoint.
  - apply Forall_fmap, Forall_forall. intros l _. apply intersect_NoDup.
  - intros j1 j2 l1 l2 i Hne (x1 & -> & H1)%list_lookup_fmap_Some
      (x2 & -> & H2)%list_lookup_fmap_Some [Hi Hin]%elem_of_intersect
      [Hi' _]%elem_of_intersect.
    by apply (Hdisj j1 j2 x1 x2 i).
Qed.

(** X8: under the conditions in which [modify] returns a collection
    (status 200, one study, as many series and instances as the snapshot
    has, no series listed twice), and when the server lists no modified
    instance under two of the new series, the collection is a snapshot
    like the ones [from_study] builds: its flat list is the flattening of
    its mapping and holds no identifier twice, it holds modified
    instances only, and each of its instances belongs to exactly one
    series. *)
Theorem modify_returns_snapshot st replace_tags remove_tags keep_tags
    keep_source force r w1 answers w2 evs :
  let s := self st in
  let studies := ids_of_type "Study" (json_Resources r) in
  let series := ids_of_type "Series" (json_Resources r) in
  let instances := ids_of_type "Instance" (json_Resources r) in
  handle E (post "tools/bulk-modify"
              (BulkModifyBody (modify_query (_all_instances_ids s) replace_tags
                                 remove_tags keep_tags keep_source force)))
         (world st) = (Val r, w1) →
  ask_each series_get_instances_ids series w1 = (Val answers, w2, evs) →
  status_code r = 200%Z →
  length studies = 1 →
  length series = length (Dict.keys (_by_series s)) →
  length instances = length (_all_instances_ids s) →
  NoDup series →
  (∀ j1 j2 l1 l2 i, j1 ≠ j2 → answers !! j1 = Some l1 → answers !! j2 = Some l2 →
                    i ∈ instances → i ∈ l1 → i ∉ l2) →
  ∃ m st',
    modify replace_tags remove_tags keep_tags keep_source force st = (Val (Some m), st')
    ∧ duplicate_free m
    ∧ snapshot_invariant m
    ∧ (∀ i, i ∈ _all_instances_ids m → i ∈ instances).
Proof.
  intros s studies series instances Hh Ha H200 Hstudies Hseries Hinstances Hnd Hdisj.
  destruct studies as [|sid [|? ?]] eqn:Hsid; try done.
  pose proof Ha as (Hlen & _ & _)%ask_each_Val.
  eexists _, _. split.
  { by apply (modify_run st _ _ _ _ _ r w1 answers w2 evs sid). }
  fold series instances.
  assert (duplicate_free
            {| study_id := Some sid;
               _by_series := zip series (intersect E instances <$> answers);
               _all_instances_ids := concat (intersect E instances <$> answers) |}) as Hdf.
  { unfold duplicate_free, in_sync, Dict.wf, Dict.values.
    cbn [_by_series _all_instances_ids].
    rewrite fst_zip, snd_zip by (rewrite length_fmap; lia).
    split_and!; [done|done|]. by apply NoDup_concat_intersect. }
  split_and!; [done|by apply duplicate_free_invariant; apply Hdf|].
  cbn [_all_instances_ids].
  intros i (l & (x & -> & _)%list_elem_of_fmap & Hi)%elem_of_concat.
  by apply elem_of_intersect in Hi as [_ ?].
Qed.

(** X9: when moreover the answer lists no instance twice and the
    server lists every modified instance under one of the new series,
    the collection holds exactly the modified instances, as many as the
    original has instances. *)
Theorem modify_keeps_instance_count st replace_tags remove_tags keep_tags
    keep_source force r w1 answers w2 evs :
  let s := self st in
  let studies := ids_of_type "Study" (json_Resources r) in
  let series := ids_of_type "Series" (json_Resources r) in
  let instances := ids_of_type "Instance" (json_Resources r) in
  handle E (post "tools/bulk-modify"
              (BulkModifyBody (modify_query (_all_instances_ids s) replace_tags
                                 remove_tags keep_tags keep_source force)))
         (world st) = (Val r, w1) →
  ask_each series_get_instances_ids series w1 = (Val answers, w2, evs) →
  status_code r = 200%Z →
  length studies = 1 →
  length series = length (Dict.keys (_by_series s)) →
  length instances = length (_all_instances_ids s) →
  NoDup series →
  (∀ j1 j2 l1 l2 i, j1 ≠ j2 → answers !! j1 = Some l1 → answers !! j2 = Some l2 →
                    i ∈ instances → i ∈ l1 → i ∉ l2) →
  NoDup instances →
  (∀ i, i ∈ instances → ∃ l, l ∈ answers ∧ i ∈ l) →
  ∃ m st',
    modify replace_tags remove_tags keep_tags keep_source force st = (Val (Some m), st')
    ∧ _all_instances_ids m ≡ₚ instances
    ∧ length (_all_instances_ids m) = length (_all_instances_ids s)
    ∧ length (Dict.keys (_by_series m)) = length (Dict.keys (_by_series s)).
Proof.
  intros s studies series instances Hh Ha H200 Hstudies Hseries Hinstances Hnd Hdisj
    Hndi Hall.
  destruct studies as [|sid [|? ?]] eqn:Hsid; try done.
  pose proof Ha as (Hlen & _ & _)%ask_each_Val.
  eexists _, _. split.
  { by apply (modify_run st _ _ _ _ _ r w1 answers w2 evs sid). }
  fold series instances. cbn [_all_instances_ids _by_series].
  assert (concat (intersect E instances <$> answers) ≡ₚ instances) as Hperm.
  { apply NoDup_Permutation; [by apply NoDup_concat_intersect|done|].
    intros i. rewrite elem_of_concat. split.
    - intros (l & (x & -> & _)%list_elem_of_fmap & Hi).
      by apply elem_of_intersect in Hi as [_ ?].
    - intros Hi. destruct (Hall i Hi) as (l & Hl & Hil).
      exists (intersect E instances l). split.
      + apply list_elem_of_fmap. by exists l.
      + by apply elem_of_intersect. }
  split_and!; [done|by rewrite Hperm|].
  unfold Dict.keys. rewrite fst_zip by (rewrite length_fmap; lia). done.
Qed.

(** X10: [modify] does not catch what the server raises, and leaves
    the receiver as it is.  When the bulk-modify request fails, its
    exception is raised after this one request.  When the answer passes
    the three checks and the request for the instances of one of the new
    series fails, that exception is raised, not [None] returned: the
    server has modified the instances, and the caller gets no collection
    of the new ones. *)
Theorem modify_propagates_failure st replace_tags remove_tags keep_tags keep_source force :
  let s := self st in
  let op := post "tools/bulk-modify"
              (BulkModifyBody (modify_query (_all_instances_ids s) replace_tags
                                 remove_tags keep_tags keep_source force)) in
  (∀ e w1,
     handle E op (world st) = (Exc e, w1) →
     modify replace_tags remove_tags keep_tags keep_source force st =
       (Exc e, mkState s w1 (trace st ++ [Called op (Exc e)])))
  ∧ (∀ r w1 e w2 evs,
       handle E op (world st) = (Val r, w1) →
       status_code r = 200%Z →
       length (ids_of_type "Study" (json_Resources r)) = 1 →
       length (ids_of_type "Series" (json_Resources r)) = length (Dict.keys (_by_series s)) →
       length (ids_of_type "Instance" (json_Resources r)) = length (_all_instances_ids s) →
       ask_each series_get_instances_ids (ids_of_type "Series" (json_Resources r)) w1
         = (Exc e, w2, evs) →
       modify replace_tags remove_tags keep_tags keep_source force st =
         (Exc e, mkState s w2 (trace st ++ Called op (Val r) :: evs))).
Proof.
  intros s op. split.
  - intros e w1 Hh. unfold modify, instances_ids.
    rewrite bind_unfold, bind_unfold. unfold get_self at 1. rewrite ret_unfold.
    rewrite bind_unfold, call_eq. fold s op. by rewrite Hh.
  - intros r w1 e w2 evs Hh H200 Hstudies Hseries Hinstances Ha.
    rewrite (modify_answered st _ _ _ _ _ r w1) by done. fold s op.
    rewrite decide_True by done.
    rewrite Hstudies, Hseries, Hinstances, !Nat.eqb_refl. cbn [negb].
    rewrite bind_unfold.
    rewrite (modified_series_loop_Exc _ _ _ _ e w2 evs) by done.
    cbn [self world trace]. by rewrite <- app_assoc.
Qed.
End ModifyMore.

(** ** A snapshot, later *)

Section Snapshot.
Context {E : Env}.
Implicit Types (st : @State E).

(** X19: what the class is for.  Once [from_study] has built a
    snapshot from the lists of the server (for the series of the study,
    the list of the server or the one of a pre-fetched study), [delete] and
    [process_instances] called on it later act on the instances of these
    lists and on no other, whatever the server holds by then: [delete]
    sends one bulk-delete request that names exactly these instances, in
    the order of the lists, and [process_instances] calls the processor
    on them, in this order, up to the first call that raises. *)
Theorem snapshot_is_what_is_deleted st sid study series w1 evs0 answers w2 evs :
  let study' := default (studies_get sid) study in
  read_series_ids study' (world st) = (Val series, w1, evs0) →
  ask_each series_get_instances_ids series w1 = (Val answers, w2, evs) →
  ∃ s st',
    from_study sid study st = (Val s, st')
    ∧ (∀ (w : World E) t, ∃ answer w',
         delete (mkState s w t) =
           (match answer with Val _ => Val tt | Exc e => Exc e end,
            mkState s w'
              (t ++ [Called (post "tools/bulk-delete" (BulkDeleteBody (concat answers)))
                            answer])))
    ∧ (∀ (w : World E) t,
         process_instances (mkState s w t) =
           match ask_each processor_call (concat answers) w with
           | (Val _, w', calls) => (Val tt, mkState s w' (t ++ calls))
           | (Exc e, w', calls) => (Exc e, mkState s w' (t ++ calls))
           end).
Proof.
  intros study' Hh Ha.
  set (s := foldl (fun f item => _add_series item.1 item.2 f)
              (set_study_id (Some (orthanc_id study')) InstancesSet_new)
              (zip series answers)).
  assert (_all_instances_ids s = concat answers) as Hall.
  { unfold s. destruct (foldl_add_series_flat (zip series answers)
                          (set_study_id (Some (orthanc_id study')) InstancesSet_new))
      as [_ ->].
    apply ask_each_Val in Ha as (Hlen & _ & _). by rewrite snd_zip by lia. }
  exists s. eexists. split_and!.
  - rewrite from_study_unfold. fold study'. rewrite Hh.
    by rewrite (add_series_loop series _ _ answers w2 evs).
  - intros w t. rewrite bulk_delete_run. cbn [self world trace]. rewrite Hall.
    by eexists _, _.
  - intros w t. unfold process_instances. rewrite bind_unfold. unfold get_self.
    cbn [self]. rewrite Hall.
    apply (for_each_call processor_call).
    intros i st0. by destruct (call (processor_call i) st0) as [[[]|e] st1].
Qed.
End Snapshot.

(** ** The further theorems on the sample environments *)

(** The series [B2] is added to the snapshot of [S1]. *)
Lemma add_series_new_series_witness :
  ∃ s',
    add_series "B2" sample_set (sample_state clean_env 0 InstancesSet_new) =
      (Val s', @mkState clean_env InstancesSet_new 1
                 [Called (series_get_instances_ids "B2") (Val ["j3"])])
    ∧ Dict.get "B2" (_by_series s') = Some ["j3"]
    ∧ Dict.keys (_by_series s') = ["A"; "B"; "B2"]
    ∧ _all_instances_ids s' = ["i1"; "i2"; "i3"; "j3"]
    ∧ in_sync s'.
Proof.
  destruct (add_series_new_series "B2" sample_set
              (sample_state clean_env 0 InstancesSet_new) ["j3"] 1)
    as (s' & Hrun & Hget & Hkeys & _ & Hall & _ & Hsync).
  - done.
  - by_computation.
  - exists s'. split_and!; try done. apply Hsync, sample_set_duplicate_free.
Defined.

(** The series [A] is added a second time: [i1] and [i2] are twice in
    the flat list. *)
Lemma add_series_known_series_witness :
  ∃ s',
    add_series "A" sample_set (sample_state clean_env 0 InstancesSet_new) =
      (Val s', @mkState clean_env InstancesSet_new 1
                 [Called (series_get_instances_ids "A") (Val ["i1"; "i2"])])
    ∧ Dict.keys (_by_series s') = ["A"; "B"]
    ∧ _all_instances_ids s' = ["i1"; "i2"; "i3"; "i1"; "i2"]
    ∧ length (concat (Dict.values (_by_series s'))) = 3
    ∧ ¬ in_sync s'.
Proof.
  destruct (add_series_known_series "A" sample_set
              (sample_state clean_env 0 InstancesSet_new) ["i1"; "i2"] ["i1"; "i2"] 1)
    as (s' & Hrun & _ & Hkeys & Hall & Hlen & _ & Hsync).
  - done.
  - apply sample_set_duplicate_free.
  - done.
  - exists s'. split_and!; try done.
    + rewrite Hall in Hlen. simpl in Hlen. lia.
    + by apply Hsync.
Defined.

(** The study [S3] lists the series [A] twice; a pre-fetched study is
    not asked for. *)
Lemma from_study_any_listing_witness :
  (∃ s st',
     from_study "S3" None (sample_state faulty_env 0 InstancesSet_new) = (Val s, st')
     ∧ trace st' = [Called (study_info_series_ids "S3") (Val ["A"; "B"; "A"]);
                    Called (series_get_instances_ids "A") (Val ["i1"; "i2"]);
                    Called (series_get_instances_ids "B") (Val ["i3"]);
                    Called (series_get_instances_ids "A") (Val ["i1"; "i2"])]
     ∧ study_id s = Some "S3"
     ∧ _all_instances_ids s = ["i1"; "i2"; "i3"; "i1"; "i2"]
     ∧ Dict.get "A" (_by_series s) = Some ["i1"; "i2"]
     ∧ Dict.get "B" (_by_series s) = Some ["i3"]
     ∧ covered s)
  ∧ (∃ s st',
       from_study "" (Some (mkStudy "S1" (Some ["B"; "A"])))
         (sample_state faulty_env 0 InstancesSet_new) = (Val s, st')
       ∧ trace st' = [Called (series_get_instances_ids "B") (Val ["i3"]);
                      Called (series_get_instances_ids "A") (Val ["i1"; "i2"])]
       ∧ study_id s = Some "S1"
       ∧ _all_instances_ids s = ["i3"; "i1"; "i2"]).
Proof.
  split.
  - destruct (from_study_any_listing (sample_state faulty_env 0 InstancesSet_new)
                "S3" None ["A"; "B"; "A"] 1
                [Called (study_info_series_ids "S3") (Val ["A"; "B"; "A"])]
                [["i1"; "i2"]; ["i3"]; ["i1"; "i2"]] 4
                [Called (series_get_instances_ids "A") (Val ["i1"; "i2"]);
                 Called (series_get_instances_ids "B") (Val ["i3"]);
                 Called (series_get_instances_ids "A") (Val ["i1"; "i2"])])
      as (s & Hrun & _ & _ & Hsid & Hall & _ & _ & Hget & Hcov); [done|done|].
    eexists s, _. split; [exact Hrun|]. split_and!; try done.
    + apply (Hget ["A"; "B"] "A" []); [done|apply not_elem_of_nil|done].
    + apply (Hget ["A"] "B" ["A"]); [done|by_computation|done].
  - destruct (from_study_any_listing (sample_state faulty_env 0 InstancesSet_new)
                "" (Some (mkStudy "S1" (Some ["B"; "A"]))) ["B"; "A"] 0 []
                [["i3"]; ["i1"; "i2"]] 2
                [Called (series_get_instances_ids "B") (Val ["i3"]);
                 Called (series_get_instances_ids "A") (Val ["i1"; "i2"])])
      as (s & Hrun & _ & _ & Hsid & Hall & _); [done|done|].
    eexists s, _. split; [exact Hrun|]. split_and!; done.
Defined.

(** A study that the server does not have, and the study [S1], whose
    second series the server does not have. *)
Lemma from_study_propagates_failure_witness :
  from_study "S0" None (sample_state faulty_env 0 InstancesSet_new) =
    (Exc (External "ResourceNotFound"),
     @mkState faulty_env InstancesSet_new 1
       [Called (study_info_series_ids "S0") (Exc (External "ResourceNotFound"))])
  ∧ from_study "S1" None (sample_state faulty_env 0 InstancesSet_new) =
      (Exc (External "ResourceNotFound"),
       @mkState faulty_env InstancesSet_new 3
         [Called (study_info_series_ids "S1") (Val ["A"; "C"; "B"]);
          Called (series_get_instances_ids "A") (Val ["i1"; "i2"]);
          Called (series_get_instances_ids "C") (Exc (External "ResourceNotFound"))]).
Proof.
  split.
  - destruct (from_study_propagates_failure
                (sample_state faulty_env 0 InstancesSet_new) "S0" None) as [Hstudy _].
    by destruct (Hstudy (External "ResourceNotFound") 1
                   [Called (study_info_series_ids "S0") (Exc (External "ResourceNotFound"))]
                   eq_refl) as [Hrun _].
  - destruct (from_study_propagates_failure
                (sample_state faulty_env 0 InstancesSet_new) "S1" None) as [_ Hseries].
    by destruct (Hseries ["A"; "C"; "B"] 1
                   [Called (study_info_series_ids "S1") (Val ["A"; "C"; "B"])]
                   (External "ResourceNotFound") 3
                   [Called (series_get_instances_ids "A") (Val ["i1"; "i2"]);
                    Called (series_get_instances_ids "C")
                      (Exc (External "ResourceNotFound"))]) as [Hrun _].
Defined.

Lemma rejecting_filter_is ids :
  filter_is rejecting_env (λ i, bool_decide (i ≠ "i3")) ids.
Proof. intros i w _. by eexists. Qed.

(** The filter that rejects [i3]. *)
Lemma filter_instances_by_predicate_witness :
  ∃ removed st',
    filter_instances (sample_state rejecting_env 0 sample_set) = (Val removed, st')
    ∧ trace st' = [Called (filter_call "i1") (Val true);
                   Called (filter_call "i2") (Val true);
                   Called (filter_call "i3") (Val false)]
    ∧ _all_instances_ids (self st') = ["i1"; "i2"]
    ∧ _all_instances_ids removed = ["i3"]
    ∧ Dict.get "A" (_by_series removed) = Some []
    ∧ Dict.get "B" (_by_series removed) = Some ["i3"]
    ∧ Dict.get "A" (_by_series (self st')) = Some ["i1"; "i2"]
    ∧ Dict.get "B" (_by_series (self st')) = None.
Proof.
  destruct (filter_instances_by_predicate (sample_state rejecting_env 0 sample_set)
              (λ i, bool_decide (i ≠ "i3")) sample_set_duplicate_free
              (rejecting_filter_is _))
    as (removed & st' & Hrun & Htrace & Hkept & Hrej & _ & Hget & _).
  exists removed, st'.
  destruct (Hget "A" ["i1"; "i2"] eq_refl) as [HA1 HA2].
  destruct (Hget "B" ["i3"] eq_refl) as [HB1 HB2].
  split_and!; done.
Defined.

Lemma filter_instances_twice_witness :
  ∃ removed st1 removed2 st2,
    filter_instances (sample_state rejecting_env 0 sample_set) = (Val removed, st1)
    ∧ filter_instances st1 = (Val removed2, st2)
    ∧ self st2 = self st1
    ∧ _all_instances_ids removed2 = [].
Proof.
  destruct (filter_instances_twice (sample_state rejecting_env 0 sample_set)
              (λ i, bool_decide (i ≠ "i3")) sample_set_duplicate_free
              (rejecting_filter_is _))
    as (removed & st1 & removed2 & st2 & H1 & H2 & H3 & H4 & _).
  by exists removed, st1, removed2, st2.
Defined.

(** The filter rejects [i1], keeps [i2] and raises on [i3]: [i1] is
    gone. *)
Lemma filter_instances_filter_raises_witness :
  filter_instances (sample_state faulty_env 0 sample_set) =
    (Exc (External "filter"),
     @mkState faulty_env
       {| study_id := Some "S1";
          _by_series := [("A", ["i2"]); ("B", ["i3"])];
          _all_instances_ids := ["i2"; "i3"] |}
       3
       [Called (filter_call "i1") (Val false);
        Called (filter_call "i2") (Val true);
        Called (filter_call "i3") (Exc (External "filter"))]).
Proof.
  destruct (filter_instances_filter_raises (sample_state faulty_env 0 sample_set)
              [("A", ["i1"; "i2"])] "B" ["i3"] [] [[false; true]] 2
              [Called (filter_call "i1") (Val false);
               Called (filter_call "i2") (Val true)]
              (External "filter") 3
              [Called (filter_call "i3") (Exc (External "filter"))])
    as (Hrun & _ & _); try done.
  apply in_sync_covered, sample_set_duplicate_free.
Defined.

(** The answers of the server to the clean modification. *)
Lemma clean_answers_disjoint :
  ∀ j1 j2 l1 l2 i, j1 ≠ j2 →
    [["j1"; "j2"; "x9"]; ["j3"]] !! j1 = Some l1 →
    [["j1"; "j2"; "x9"]; ["j3"]] !! j2 = Some l2 →
    i ∈ ["j1"; "j2"; "j3"] → i ∈ l1 → i ∉ l2.
Proof.
  intros [|[|?]] [|[|?]] l1 l2 i ?; simpl; intros [= <-] [= <-] _; try done;
    rewrite !elem_of_cons, !elem_of_nil; intros Hi Hi';
    repeat (destruct Hi as [-> | Hi]); try done;
    repeat (destruct Hi' as [?|Hi']); done.
Qed.

(** The clean modification of the scenario gives a snapshot. *)
Lemma modify_returns_snapshot_witness :
  ∃ m st',
    modify None None None true false (sample_state clean_env 0 sample_set) = (Val (Some m), st')
    ∧ duplicate_free m
    ∧ snapshot_invariant m.
Proof.
  destruct (modify_returns_snapshot (sample_state clean_env 0 sample_set)
              None None None true false (modified "A2" "B2") 1
              [["j1"; "j2"; "x9"]; ["j3"]] 3
              [Called (series_get_instances_ids "A2") (Val ["j1"; "j2"; "x9"]);
               Called (series_get_instances_ids "B2") (Val ["j3"])])
    as (m & st' & Hrun & Hdf & Hinv & _); try done.
  - by_computation.
  - apply clean_answers_disjoint.
  - by exists m, st'.
Defined.

(** It has the three instances [j1], [j2], [j3]. *)
Lemma modify_keeps_instance_count_witness :
  ∃ m st',
    modify None None None true false (sample_state clean_env 0 sample_set) = (Val (Some m), st')
    ∧ _all_instances_ids m ≡ₚ ["j1"; "j2"; "j3"]
    ∧ length (_all_instances_ids m) = 3.
Proof.
  destruct (modify_keeps_instance_count (sample_state clean_env 0 sample_set)
              None None None true false (modified "A2" "B2") 1
              [["j1"; "j2"; "x9"]; ["j3"]] 3
              [Called (series_get_instances_ids "A2") (Val ["j1"; "j2"; "x9"]);
               Called (series_get_instances_ids "B2") (Val ["j3"])])
    as (m & st' & Hrun & Hperm & Hlen & _); try done.
  - by_computation.
  - apply clean_answers_disjoint.
  - by_computation.
  - intros i Hi. change (i ∈ ["j1"; "j2"; "j3"]) in Hi.
    rewrite !elem_of_cons, elem_of_nil in Hi.
    destruct Hi as [-> | [-> | [-> | []]]].
    + exists ["j1"; "j2"; "x9"]. split; by_computation.
    + exists ["j1"; "j2"; "x9"]. split; by_computation.
    + exists ["j3"]. split; by_computation.
  - by exists m, st'.
Defined.

(** A bulk-modify that fails, and one whose second series the server
    does not have. *)
Lemma modify_propagates_failure_witness :
  modify None None None true false (sample_state faulty_env 0 InstancesSet_new) =
    (Exc (External "HttpError"),
     @mkState faulty_env InstancesSet_new 1
       [Called (post "tools/bulk-modify"
                  (BulkModifyBody (modify_query [] None None None true false)))
               (Exc (External "HttpError"))])
  ∧ modify None None None true false (sample_state faulty_env 0 sample_set) =
      (Exc (External "ResourceNotFound"),
       @mkState faulty_env sample_set 3
         [Called (post "tools/bulk-modify"
                    (BulkModifyBody (modify_query ["i1"; "i2"; "i3"] None None None true false)))
                 (Val (modified "A2" "C2"));
          Called (series_get_instances_ids "A2") (Val ["j1"; "j2"; "x9"]);
          Called (series_get_instances_ids "C2") (Exc (External "ResourceNotFound"))]).
Proof.
  split.
  - by apply (modify_propagates_failure
                (sample_state faulty_env 0 InstancesSet_new) None None None true false).
  - destruct (modify_propagates_failure
                (sample_state faulty_env 0 sample_set) None None None true false)
      as [_ Hseries].
    by apply (Hseries (modified "A2" "C2") 1 (External "ResourceNotFound") 3
                [Called (series_get_instances_ids "A2") (Val ["j1"; "j2"; "x9"]);
                 Called (series_get_instances_ids "C2")
                   (Exc (External "ResourceNotFound"))]).
Defined.

(** The snapshot of [S1], and its deletion when the server has gone on
    to another state. *)
Lemma snapshot_is_what_is_deleted_witness :
  ∃ s st',
    from_study "S1" None (sample_state clean_env 0 InstancesSet_new) = (Val s, st')
    ∧ ∃ answer w',
        delete (@mkState clean_env s 7 []) =
          (match answer with Val _ => Val tt | Exc e => Exc e end,
           @mkState clean_env s w'
             [Called (post "tools/bulk-delete" (BulkDeleteBody ["i1"; "i2"; "i3"])) answer]).
Proof.
  destruct (snapshot_is_what_is_deleted (sample_state clean_env 0 InstancesSet_new)
              "S1" None ["A"; "B"] 1
              [Called (study_info_series_ids "S1") (Val ["A"; "B"])]
              [["i1"; "i2"]; ["i3"]] 3
              [Called (series_get_instances_ids "A") (Val ["i1"; "i2"]);
               Called (series_get_instances_ids "B") (Val ["i3"])])
    as (s & st' & Hrun & Hdelete & _); [done|done|].
  exists s, st'. split; [done|]. exact (Hdelete 7 []).
Defined.

(** * Facts about the resource classes *)

(** ** The monad of the resource classes *)

Section RestMonad.
Context {E : Rest.Env}.
Implicit Types (st : @Rest.State E).

Lemma rest_bind_unfold {A B} (m : Rest.M A) (f : A → Rest.M B) st :
  (m ≫= f) st =
    match m st with
    | (Val a, st') => f a st'
    | (Exc e, st') => (Exc e, st')
    end.
Proof. done. Qed.

Lemma rest_ret_unfold {A} (a : A) st : (mret a : Rest.M A) st = (Val a, st).
Proof. done. Qed.

Lemma rest_for_fold_cons {A B} (x : A) l (acc : B) (body : B → A → Rest.M B) st :
  Rest.for_fold (x :: l) acc body st =
    match body acc x st with
    | (Val acc', st') => Rest.for_fold l acc' body st'
    | (Exc e, st') => (Exc e, st')
    end.
Proof. done. Qed.

Lemma rest_for_each_cons {A} (x : A) l (body : A → Rest.M unit) st :
  Rest.for_each (x :: l) body st =
    match body x st with
    | (Val _, st') => Rest.for_each l body st'
    | (Exc e, st') => (Exc e, st')
    end.
Proof. done. Qed.

Lemma rest_call_eq {X} (op : Rest.Op X) st :
  Rest.call op st =
    ((Rest.handle E op (Rest.world st)).1,
     Rest.mkState (Rest.handle E op (Rest.world st)).2
       (Rest.trace st ++ [Rest.Called op (Rest.handle E op (Rest.world st)).1])).
Proof. unfold Rest.call. by destruct (Rest.handle E op (Rest.world st)). Qed.

Lemma rest_state_eta st : Rest.mkState (Rest.world st) (Rest.trace st) = st.
Proof. by destruct st. Qed.

(** The shape of the events of [Rest.ask_each]. *)
Lemma rest_ask_each_Val {X} (mk : string → Rest.Op X) ids : ∀ (w : Rest.World E) l w' evs,
  Rest.ask_each mk ids w = (Val l, w', evs) →
  length l = length ids
  ∧ evs = zip_with (λ i a, Rest.Called (mk i) (Val a)) ids l.
Proof.
  induction ids as [|i ids IH]; intros w l w' evs; simpl.
  - intros [= <- <- <-]. done.
  - destruct (Rest.handle E (mk i) w) as [[a|e] w1] eqn:Hh; [|done].
    destruct (Rest.ask_each mk ids w1) as [[[l'|e] w2] evs'] eqn:Ha; [|done].
    intros [= <- <- <-]. destruct (IH _ _ _ _ Ha) as (Hlen & ->).
    simpl. by rewrite Hlen.
Qed.

Lemma rest_ask_each_Exc {X} (mk : string → Rest.Op X) ids :
  ∀ (w : Rest.World E) e w' evs,
  Rest.ask_each mk ids w = (Exc e, w', evs) →
  ∃ pre i post l,
    ids = pre ++ i :: post
    ∧ length l = length pre
    ∧ evs = zip_with (λ i a, Rest.Called (mk i) (Val a)) pre l
            ++ [Rest.Called (mk i) (Exc e)].
Proof.
  induction ids as [|i ids IH]; intros w e w' evs; simpl; [done|].
  destruct (Rest.handle E (mk i) w) as [[a|e'] w1] eqn:Hh.
  - destruct (Rest.ask_each mk ids w1) as [[[l'|e'] w2] evs'] eqn:Ha; [done|].
    intros [= <- <- <-].
    destruct (IH _ _ _ _ Ha) as (pre & j & post & l & -> & Hlen & ->).
    exists (i :: pre), j, post, (a :: l). simpl. by rewrite Hlen.
  - intros [= <- <- <-]. by exists [], i, ids, [].
Qed.

Lemma rest_ask_each_app {X} (mk : string → Rest.Op X) ids1 ids2 : ∀ w : Rest.World E,
  Rest.ask_each mk (ids1 ++ ids2) w =
    match Rest.ask_each mk ids1 w with
    | (Val l1, w1, evs1) =>
        match Rest.ask_each mk ids2 w1 with
        | (Val l2, w2, evs2) => (Val (l1 ++ l2), w2, evs1 ++ evs2)
        | (Exc e, w2, evs2) => (Exc e, w2, evs1 ++ evs2)
        end
    | (Exc e, w1, evs1) => (Exc e, w1, evs1)
    end.
Proof.
  induction ids1 as [|i ids1 IH]; intros w; simpl.
  - by destruct (Rest.ask_each mk ids2 w) as [[[l|e] w2] evs].
  - destruct (Rest.handle E (mk i) w) as [[a|e] w1]; [|done].
    rewrite IH. destruct (Rest.ask_each mk ids1 w1) as [[[l1|e] w2] evs1]; [|done].
    by destruct (Rest.ask_each mk ids2 w2) as [[[l2|e] w3] evs2].
Qed.
End RestMonad.

(** ** [Resources.delete] and [Resources.delete_all] *)

Section ResourcesDelete.
Context {E : Rest.Env}.
Variable url_segment : string.
Implicit Types (st : @Rest.State E).

(** The recursive call [self.delete(orthanc_id=oi)] is [delete_one]. *)
Lemma delete_without_ids orthanc_id st :
  Resources.delete url_segment orthanc_id None st
  = Resources.delete_one url_segment orthanc_id st.
Proof. unfold Resources.delete. by rewrite rest_bind_unfold. Qed.

Lemma delete_one_run orthanc_id st :
  Resources.delete_one url_segment orthanc_id st =
    match Rest.ask_each (delete_request url_segment)
          (delete_targets orthanc_id None) (Rest.world st) with
    | (Val _, w, evs) => (Val tt, Rest.mkState w (Rest.trace st ++ evs))
    | (Exc e, w, evs) => (Exc e, Rest.mkState w (Rest.trace st ++ evs))
    end.
Proof.
  unfold Resources.delete_one, delete_targets.
  destruct orthanc_id as [id|].
  - change (default [] None ++ option_list (Some id)) with [id].
    rewrite filter_cons, filter_nil. case_bool_decide as Hid.
    + rewrite decide_True by done. cbn [Rest.ask_each]. rewrite rest_call_eq.
      fold (delete_request url_segment id).
      destruct (Rest.handle E (delete_request url_segment id) (Rest.world st))
        as [[[]|e] w]; reflexivity.
    + rewrite decide_False by tauto. cbn [Rest.ask_each].
      by rewrite rest_ret_unfold, app_nil_r, rest_state_eta.
  - change (default [] None ++ option_list None) with (@nil string).
    rewrite filter_nil. cbn [Rest.ask_each].
    by rewrite rest_ret_unfold, app_nil_r, rest_state_eta.
Qed.

Lemma delete_each_run ids : ∀ st,
  Rest.for_each ids (fun oi => Resources.delete_one url_segment (Some oi)) st =
    match Rest.ask_each (delete_request url_segment) (filter (λ i, i ≠ "") ids) (Rest.world st) with
    | (Val _, w, evs) => (Val tt, Rest.mkState w (Rest.trace st ++ evs))
    | (Exc e, w, evs) => (Exc e, Rest.mkState w (Rest.trace st ++ evs))
    end.
Proof.
  induction ids as [|i ids IH]; intros st.
  - rewrite filter_nil. cbn [Rest.for_each Rest.ask_each].
    by rewrite rest_ret_unfold, app_nil_r, rest_state_eta.
  - change (filter (λ i0, i0 ≠ "") (i :: ids)) with (filter (λ i0, i0 ≠ "") ([i] ++ ids)).
    rewrite filter_app, rest_ask_each_app.
    rewrite rest_for_each_cons, delete_one_run.
    unfold delete_targets. change (default [] None ++ option_list (Some i)) with [i].
    destruct (Rest.ask_each (delete_request url_segment)
          (filter (λ i0, i0 ≠ "") [i]) (Rest.world st))
      as [[[l1|e] w1] evs1]; [|done].
    rewrite IH. cbn [Rest.world Rest.trace].
    destruct (Rest.ask_each (delete_request url_segment) (filter (λ i0, i0 ≠ "") ids) w1)
      as [[[l2|e] w2] evs2]; by rewrite <- app_assoc.
Qed.

(** [delete] asks for the deletion of its targets, in order. *)
Lemma delete_run orthanc_id orthanc_ids st :
  Resources.delete url_segment orthanc_id orthanc_ids st =
    match Rest.ask_each (delete_request url_segment)
          (delete_targets orthanc_id orthanc_ids) (Rest.world st) with
    | (Val _, w, evs) => (Val tt, Rest.mkState w (Rest.trace st ++ evs))
    | (Exc e, w, evs) => (Exc e, Rest.mkState w (Rest.trace st ++ evs))
    end.
Proof.
  unfold Resources.delete, delete_targets.
  rewrite rest_bind_unfold, filter_app, rest_ask_each_app.
  assert ((if non_empty orthanc_ids
           then Rest.for_each (default [] orthanc_ids)
                  (fun oi => Resources.delete_one url_segment (Some oi))
           else mret tt) st
          = Rest.for_each (default [] orthanc_ids)
              (fun oi => Resources.delete_one url_segment (Some oi)) st) as ->.
  { by destruct orthanc_ids as [[|? ?]|]. }
  rewrite delete_each_run.
  destruct (Rest.ask_each (delete_request url_segment)
        (filter (λ i, i ≠ "") (default [] orthanc_ids))
              (Rest.world st)) as [[[l1|e] w1] evs1]; [|done].
  rewrite delete_one_run. unfold delete_targets.
  change (default [] None ++ option_list orthanc_id) with (option_list orthanc_id).
  cbn [Rest.world Rest.trace].
  destruct (Rest.ask_each (delete_request url_segment)
        (filter (λ i, i ≠ "") (option_list orthanc_id)) w1)
    as [[[l2|e] w2] evs2]; by rewrite <- app_assoc.
Qed.

Lemma zip_with_units {A} (f : string → unit → A) ids : ∀ l : list unit,
  length l = length ids → zip_with f ids l = (λ i, f i tt) <$> ids.
Proof.
  induction ids as [|i ids IH]; intros [|[] l] Hlen; simpl in *; try done.
  f_equal. apply IH. lia.
Qed.

(** X11: [delete] sends one DELETE request per identifier that it is
    given and that is not empty, for the identifiers of [orthanc_ids]
    first, in order, then for [orthanc_id]; an absent or empty
    identifier or list is passed over without a request.  It stops at
    the first request that fails, with its exception: the resources
    before it are deleted, the ones after it are not asked for. *)
Theorem resources_delete_requests orthanc_id orthanc_ids st :
  let targets := delete_targets orthanc_id orthanc_ids in
  (∃ w, Resources.delete url_segment orthanc_id orthanc_ids st =
          (Val tt,
           Rest.mkState w
             (Rest.trace st ++
                ((λ i, Rest.Called (delete_request url_segment i) (Val tt)) <$> targets))))
  ∨ (∃ pre i post e w,
       targets = pre ++ i :: post
       ∧ Resources.delete url_segment orthanc_id orthanc_ids st =
           (Exc e,
            Rest.mkState w
              (Rest.trace st ++ ((λ i, Rest.Called (delete_request url_segment i) (Val tt)) <$> pre)
                             ++ [Rest.Called (delete_request url_segment i) (Exc e)]))).
Proof.
  intros targets. rewrite delete_run. fold targets.
  destruct (Rest.ask_each (delete_request url_segment)
        targets (Rest.world st)) as [[[l|e] w] evs] eqn:Ha.
  - left. exists w. apply rest_ask_each_Val in Ha as (Hlen & ->).
    by rewrite (zip_with_units (λ i a, Rest.Called (delete_request url_segment i) (Val a))).
  - right. apply rest_ask_each_Exc in Ha as (pre & i & post & l & Hids & Hlen & ->).
    exists pre, i, post, e, w. split; [done|].
    by rewrite (zip_with_units (λ i a, Rest.Called (delete_request url_segment i) (Val a))).
Qed.

Lemma delete_all_loop ids : ∀ acc st,
  Rest.for_fold ids acc (fun deleted_ids orthanc_id =>
      Resources.delete url_segment (Some orthanc_id) None;;
      mret (deleted_ids ++ [orthanc_id])) st =
    match Rest.ask_each (delete_request url_segment) (filter (λ i, i ≠ "") ids) (Rest.world st) with
    | (Val _, w, evs) => (Val (acc ++ ids), Rest.mkState w (Rest.trace st ++ evs))
    | (Exc e, w, evs) => (Exc e, Rest.mkState w (Rest.trace st ++ evs))
    end.
Proof.
  induction ids as [|i ids IH]; intros acc st.
  - rewrite filter_nil. cbn [Rest.for_fold Rest.ask_each].
    by rewrite rest_ret_unfold, !app_nil_r, rest_state_eta.
  - change (filter (λ i0, i0 ≠ "") (i :: ids)) with (filter (λ i0, i0 ≠ "") ([i] ++ ids)).
    rewrite filter_app, rest_ask_each_app.
    rewrite rest_for_fold_cons, rest_bind_unfold, delete_run.
    unfold delete_targets. change (default [] None ++ option_list (Some i)) with [i].
    destruct (Rest.ask_each (delete_request url_segment)
          (filter (λ i0, i0 ≠ "") [i]) (Rest.world st))
      as [[[l1|e] w1] evs1]; [|done].
    rewrite rest_ret_unfold, IH. cbn [Rest.world Rest.trace].
    destruct (Rest.ask_each (delete_request url_segment) (filter (λ i0, i0 ≠ "") ids) w1)
      as [[[l2|e] w2] evs2]; rewrite <- !app_assoc; done.
Qed.

(** X12: [delete_all] lists the identifiers of the resources with one
    request, then sends one DELETE request per listed identifier, in the
    order of the list, an empty identifier being passed over.  When every
    request succeeds it returns the list as the server gave it.  When a
    request fails, its exception is raised: the resources before it are
    deleted, and the caller is not told which. *)
Theorem resources_delete_all_requests st ids w1 :
  let listing := Rest.get_json_ids ("/" +:+ url_segment +:+ "/") in
  let targets := filter (λ i, i ≠ "") ids in
  Rest.handle E listing (Rest.world st) = (Val ids, w1) →
  (∃ w, Resources.delete_all url_segment st =
          (Val ids,
           Rest.mkState w
             (Rest.trace st ++ Rest.Called listing (Val ids)
                :: ((λ i, Rest.Called (delete_request url_segment i) (Val tt)) <$> targets))))
  ∨ (∃ pre i post e w,
       targets = pre ++ i :: post
       ∧ Resources.delete_all url_segment st =
           (Exc e,
            Rest.mkState w
              (Rest.trace st ++ Rest.Called listing (Val ids)
                 :: ((λ i, Rest.Called (delete_request url_segment i) (Val tt)) <$> pre)
                 ++ [Rest.Called (delete_request url_segment i) (Exc e)]))).
Proof.
  intros listing targets Hh.
  assert (Resources.delete_all url_segment st =
            match Rest.ask_each (delete_request url_segment) targets w1 with
            | (Val _, w, evs) =>
                (Val ids, Rest.mkState w (Rest.trace st ++ Rest.Called listing (Val ids) :: evs))
            | (Exc e, w, evs) =>
                (Exc e, Rest.mkState w (Rest.trace st ++ Rest.Called listing (Val ids) :: evs))
            end) as ->.
  { unfold Resources.delete_all, Resources.get_all_ids.
    rewrite rest_bind_unfold, rest_call_eq. fold listing. rewrite Hh. cbn [fst snd].
    rewrite delete_all_loop. cbn [Rest.world Rest.trace app]. fold targets.
    destruct (Rest.ask_each (delete_request url_segment) targets w1) as [[[l|e] w] evs];
      by rewrite <- app_assoc. }
  destruct (Rest.ask_each (delete_request url_segment) targets w1) as [[[l|e] w] evs] eqn:Ha.
  - left. exists w. apply rest_ask_each_Val in Ha as (Hlen & ->).
    by rewrite (zip_with_units (λ i a, Rest.Called (delete_request url_segment i) (Val a))).
  - right. apply rest_ask_each_Exc in Ha as (pre & i & post & l & Hids & Hlen & ->).
    exists pre, i, post, e, w. split; [done|].
    by rewrite (zip_with_units (λ i a, Rest.Called (delete_request url_segment i) (Val a))).
Qed.
End ResourcesDelete.

(** ** [_anonymize], [_modify] and the metadata of a resource *)

Section ResourcesReplace.
Context {E : Rest.Env}.
Variable url_segment : string.
Implicit Types (st : @Rest.State E).

(** The end of [_anonymize] and of [_modify]. *)
Lemma delete_original_run new_id orthanc_id (delete_original : bool) st :
  ((if delete_original && bool_decide (new_id ≠ orthanc_id)
    then Resources.delete url_segment (Some orthanc_id) None
    else mret tt);;
   mret (Some new_id)) st =
    if delete_original && bool_decide (new_id ≠ orthanc_id) && bool_decide (orthanc_id ≠ "")
    then
      match Rest.handle E (delete_request url_segment orthanc_id) (Rest.world st) with
      | (Val _, w2) =>
          (Val (Some new_id),
           Rest.mkState w2
             (Rest.trace st ++ [Rest.Called (delete_request url_segment orthanc_id) (Val tt)]))
      | (Exc e, w2) =>
          (Exc e,
           Rest.mkState w2
             (Rest.trace st ++ [Rest.Called (delete_request url_segment orthanc_id) (Exc e)]))
      end
    else (Val (Some new_id), st).
Proof.
  rewrite rest_bind_unfold.
  destruct (delete_original && bool_decide (new_id ≠ orthanc_id)); cbn [andb]; [|done].
  rewrite delete_without_ids. unfold Resources.delete_one.
  case_bool_decide; [|done]. rewrite rest_call_eq.
  fold (delete_request url_segment orthanc_id).
  destruct (Rest.handle E (delete_request url_segment orthanc_id) (Rest.world st))
    as [[[]|e] w]; reflexivity.
Qed.

Lemma replaces_original_intro orthanc_id (delete_original : bool) request
    (run : Rest.M (option string)) :
  (∀ st, run st =
     match Rest.call request st with
     | (Val r, st1) =>
         if decide (Rest.status_code r = 200%Z) then
           ((if delete_original && bool_decide (Rest.json_ID r ≠ orthanc_id)
             then Resources.delete url_segment (Some orthanc_id) None
             else mret tt);;
            mret (Some (Rest.json_ID r))) st1
         else (Val None, st1)
     | (Exc e, st1) => (Exc e, st1)
     end) →
  replaces_original url_segment orthanc_id delete_original request run.
Proof.
  intros Hrun st r w1 Hh st1 deletion. rewrite Hrun, rest_call_eq, Hh. cbn [fst snd].
  fold st1. split_and!.
  - intros Hne. by rewrite decide_False.
  - intros H200 Hcases. rewrite decide_True by done. rewrite delete_original_run.
    destruct Hcases as [-> | [-> | ->]]; [done| |].
    + rewrite (bool_decide_eq_false_2 (orthanc_id ≠ orthanc_id)) by tauto.
      by rewrite andb_false_r.
    + rewrite (bool_decide_eq_false_2 ("" ≠ "")) by tauto. by rewrite andb_false_r.
  - intros H200 -> Hnew Hid. rewrite decide_True by done. rewrite delete_original_run.
    by rewrite !bool_decide_eq_true_2.
Qed.

(** X13: [_anonymize] and [_modify] never delete the resource that
    they return.  Once the server has answered the request: with a status
    other than 200 they return [None] and delete nothing; with the status
    200 they return the identifier of the answer, and the original is
    deleted, by one request sent after the answer, only if
    [delete_original] is set and the identifier of the answer is another
    one than the original's; when that deletion fails its exception is
    raised, and the identifier of the new resource is not returned. *)
Theorem resources_replace_original orthanc_id replace_tags keep_tags remove_tags
    delete_original force :
  replaces_original (E:=E) url_segment orthanc_id delete_original
    (Rest.post ("/" +:+ url_segment +:+ "/" +:+ orthanc_id +:+ "/anonymize")
       {| Rest.Force := force;
          Rest.Replace := if non_empty replace_tags then replace_tags else None;
          Rest.Remove := None;
          Rest.Keep := if non_empty keep_tags then keep_tags else None |})
    (Resources._anonymize url_segment orthanc_id replace_tags keep_tags
       delete_original force)
  ∧ replaces_original (E:=E) url_segment orthanc_id delete_original
      (Rest.post ("/" +:+ url_segment +:+ "/" +:+ orthanc_id +:+ "/modify")
         {| Rest.Force := force;
            Rest.Replace := if non_empty replace_tags then replace_tags else None;
            Rest.Remove := if non_empty remove_tags then remove_tags else None;
            Rest.Keep := None |})
      (Resources._modify url_segment orthanc_id replace_tags remove_tags
         delete_original force).
Proof.
  split; apply replaces_original_intro; intros st.
  - unfold Resources._anonymize. rewrite rest_bind_unfold.
    destruct (Rest.call _ st) as [[r|e] st1]; [|done].
    by destruct (decide (Rest.status_code r = 200%Z)).
  - unfold Resources._modify. rewrite rest_bind_unfold.
    destruct (Rest.call _ st) as [[r|e] st1]; [|done].
    by destruct (decide (Rest.status_code r = 200%Z)).
Qed.

(** X14: [get_metadata] and [get_metadata_with_revision] send one GET
    request.  When it fails with [ResourceNotFound] they return the
    default value (with no revision) instead of raising; any other
    exception is raised; an answer gives its content (and its [etag]).
    [get_attachment] has no default: it raises whatever the request
    raises, [ResourceNotFound] included. *)
Theorem resources_get_metadata_default orthanc_id metadata_name attachment_name
    default_value st :
  let request :=
    Rest.get ("/" +:+ url_segment +:+ "/" +:+ orthanc_id +:+ "/metadata/" +:+ metadata_name)
             [] in
  let attachment :=
    Rest.get ("/" +:+ url_segment +:+ "/" +:+ orthanc_id +:+ "/attachments/"
              +:+ attachment_name +:+ "/data") [] in
  let after (op : Rest.Op Rest.Response) (answer : Res Rest.Response) w :=
    Rest.mkState w (Rest.trace st ++ [Rest.Called op answer]) in
  (∀ e w, Rest.handle E request (Rest.world st) = (Exc e, w) →
     Rest.is_ResourceNotFound e = true →
     Resources.get_metadata url_segment orthanc_id metadata_name default_value st
       = (Val default_value, after request (Exc e) w)
     ∧ Resources.get_metadata_with_revision url_segment orthanc_id metadata_name
         default_value st
       = (Val (default_value, None), after request (Exc e) w))
  ∧ (∀ e w, Rest.handle E request (Rest.world st) = (Exc e, w) →
       Rest.is_ResourceNotFound e = false →
       Resources.get_metadata url_segment orthanc_id metadata_name default_value st
         = (Exc e, after request (Exc e) w))
  ∧ (∀ r w, Rest.handle E request (Rest.world st) = (Val r, w) →
       Resources.get_metadata url_segment orthanc_id metadata_name default_value st
         = (Val (Some (Rest.content r)), after request (Val r) w)
       ∧ Resources.get_metadata_with_revision url_segment orthanc_id metadata_name
           default_value st
         = (Val (Some (Rest.content r), Rest.etag r), after request (Val r) w))
  ∧ (∀ e w, Rest.handle E attachment (Rest.world st) = (Exc e, w) →
       Resources.get_attachment url_segment orthanc_id attachment_name st
         = (Exc e, after attachment (Exc e) w)).
Proof.
  intros request attachment after.
  unfold Resources.get_metadata, Resources.get_metadata_with_revision,
    Resources.get_attachment, Resources.get_attachment_with_revision, Rest.try_except.
  fold request attachment. split_and!.
  - intros e w Hh He. rewrite rest_bind_unfold, !rest_call_eq, Hh. cbn [fst snd].
    by rewrite He.
  - intros e w Hh He. rewrite rest_bind_unfold, !rest_call_eq, Hh. cbn [fst snd].
    by rewrite He.
  - intros r w Hh. rewrite rest_bind_unfold, !rest_call_eq, Hh. done.
  - intros e w Hh. rewrite !rest_bind_unfold, !rest_call_eq, Hh. done.
Qed.
End ResourcesReplace.

(** ** [Studies] *)

Section StudiesFacts.
Context {E : Rest.Env}.
Implicit Types (st : @Rest.State E).

Lemma studies_instances_loop series : ∀ acc st,
  Rest.for_fold series acc (fun instances_ids series_id =>
      l ← Rest.call (Rest.series_get_instances_ids series_id);
      mret (instances_ids ++ l)) st =
    match Rest.ask_each Rest.series_get_instances_ids series (Rest.world st) with
    | (Val answers, w, evs) =>
        (Val (acc ++ concat answers), Rest.mkState w (Rest.trace st ++ evs))
    | (Exc e, w, evs) => (Exc e, Rest.mkState w (Rest.trace st ++ evs))
    end.
Proof.
  induction series as [|k series IH]; intros acc st.
  - cbn [Rest.for_fold Rest.ask_each concat].
    by rewrite rest_ret_unfold, !app_nil_r, rest_state_eta.
  - rewrite rest_for_fold_cons, rest_bind_unfold, rest_call_eq. cbn [Rest.ask_each].
    destruct (Rest.handle E (Rest.series_get_instances_ids k) (Rest.world st))
      as [[l|e] w1]; cbn [fst snd]; [|done].
    rewrite rest_ret_unfold, IH. cbn [Rest.world Rest.trace].
    destruct (Rest.ask_each Rest.series_get_instances_ids series w1)
      as [[[answers|e] w2] evs]; cbn [concat]; by rewrite <- !app_assoc.
Qed.

(** X15: [get_instances_ids] asks for the document of the study, then
    for the instances of each of its series, in order, and returns the
    lists of the server one after the other.  [get_first_instance_id]
    makes the same requests, all of them, and returns the first
    identifier of that list: the first instance of the first series that
    has one; on a study without instance it raises [IndexError]. *)
Theorem studies_get_first_instance_id orthanc_id st info w1 answers w2 evs :
  let request := Rest.get_json_study (Studies.url_segment +:+ "/" +:+ orthanc_id) in
  let st2 := Rest.mkState w2 (Rest.trace st ++ Rest.Called request (Val info) :: evs) in
  Rest.handle E request (Rest.world st) = (Val info, w1) →
  Rest.ask_each Rest.series_get_instances_ids (Rest.Series info) w1 = (Val answers, w2, evs) →
  Studies.get_instances_ids orthanc_id st = (Val (concat answers), st2)
  ∧ evs = zip_with (λ k l, Rest.Called (Rest.series_get_instances_ids k) (Val l))
            (Rest.Series info) answers
  ∧ Studies.get_first_instance_id orthanc_id st =
      (match concat answers with
       | i :: _ => Val i
       | [] => Exc IndexError
       end, st2).
Proof.
  intros request st2 Hh Ha.
  assert (Studies.get_instances_ids orthanc_id st = (Val (concat answers), st2)) as Hrun.
  { unfold Studies.get_instances_ids. rewrite rest_bind_unfold, rest_call_eq.
    fold request. rewrite Hh. cbn [fst snd].
    rewrite studies_instances_loop. cbn [Rest.world Rest.trace]. rewrite Ha.
    cbn [app]. by rewrite <- app_assoc. }
  split_and!; [done|by apply rest_ask_each_Val in Ha as [_ ?]|].
  unfold Studies.get_first_instance_id. rewrite rest_bind_unfold, Hrun.
  by destruct (concat answers).
Qed.

Lemma studies_pdf_skip_loop max series : ∀ acc st,
  (max ≤ 0)%Z →
  Rest.for_fold series acc (fun pdf_ids series_id =>
      instances_ids ← Rest.call (Rest.series_get_instances_ids series_id);
      if (0 <? max)%Z && (Z.of_nat (length instances_ids) <=? max)%Z
      then Studies.collect_pdf pdf_ids instances_ids
      else mret pdf_ids) st =
    match Rest.ask_each Rest.series_get_instances_ids series (Rest.world st) with
    | (Val answers, w, evs) => (Val acc, Rest.mkState w (Rest.trace st ++ evs))
    | (Exc e, w, evs) => (Exc e, Rest.mkState w (Rest.trace st ++ evs))
    end.
Proof.
  intros acc st Hmax. revert acc st.
  assert ((0 <? max)%Z = false) as Hlt by (apply Z.ltb_ge; lia).
  induction series as [|k series IH]; intros acc st.
  - cbn [Rest.for_fold Rest.ask_each].
    by rewrite rest_ret_unfold, !app_nil_r, rest_state_eta.
  - rewrite rest_for_fold_cons, rest_bind_unfold, rest_call_eq. cbn [Rest.ask_each].
    destruct (Rest.handle E (Rest.series_get_instances_ids k) (Rest.world st))
      as [[l|e] w1]; cbn [fst snd]; [|done].
    assert ((0 <? max)%Z && (Z.of_nat (length l) <=? max)%Z = false) as ->
      by (by rewrite Hlt).
    rewrite rest_ret_unfold, IH. cbn [Rest.world Rest.trace].
    destruct (Rest.ask_each Rest.series_get_instances_ids series w1)
      as [[[answers|e] w2] evs]; by rewrite <- !app_assoc.
Qed.

(** X16: with a maximum of 0, or a negative one, [get_pdf_instances]
    looks at no instance: it asks for the document of the study and for
    the instances of each of its series, never whether an instance is a
    PDF, and returns the empty list. *)
Theorem studies_get_pdf_instances_without_maximum study_id max st info w1 answers w2 evs :
  let request := Rest.get_json_study (Studies.url_segment +:+ "/" +:+ study_id) in
  (max ≤ 0)%Z →
  Rest.handle E request (Rest.world st) = (Val info, w1) →
  Rest.ask_each Rest.series_get_instances_ids (Rest.Series info) w1 = (Val answers, w2, evs) →
  Studies.get_pdf_instances study_id max st =
    (Val [], Rest.mkState w2 (Rest.trace st ++ Rest.Called request (Val info) :: evs))
  ∧ evs = zip_with (λ k l, Rest.Called (Rest.series_get_instances_ids k) (Val l))
            (Rest.Series info) answers.
Proof.
  intros request Hmax Hh Ha. split; [|by apply rest_ask_each_Val in Ha as [_ ?]].
  unfold Studies.get_pdf_instances, Studies.get_series_ids.
  rewrite !rest_bind_unfold, rest_call_eq. fold request. rewrite Hh. cbn [fst snd].
  rewrite rest_ret_unfold, studies_pdf_skip_loop by done.
  cbn [Rest.world Rest.trace]. rewrite Ha. by rewrite <- app_assoc.
Qed.

Lemma collect_pdf_answers ids : ∀ acc st,
  appends_pdf_answers acc st (Studies.collect_pdf acc ids st).
Proof.
  unfold Studies.collect_pdf, appends_pdf_answers.
  induction ids as [|i ids IH]; intros acc st.
  - exists []. cbn [Rest.for_fold]. rewrite rest_ret_unfold, !app_nil_r.
    split; [done|]. by intros res [= <-].
  - rewrite rest_for_fold_cons, rest_bind_unfold, rest_call_eq.
    destruct (Rest.handle E (Rest.instances_is_pdf i) (Rest.world st))
      as [[b|e] w1]; cbn [fst snd].
    + rewrite rest_ret_unfold.
      match goal with |- context [Rest.for_fold ids ?a ?body ?s] =>
        destruct (IH a s) as (evs & Htr & Hres) end.
      exists (Rest.Called (Rest.instances_is_pdf i) (Val b) :: evs).
      rewrite Htr. cbn [Rest.trace]. rewrite <- app_assoc. split; [done|].
      intros res Hout. rewrite (Hres res Hout).
      cbn [omap list_omap pdf_answer]. destruct b; [|done]. by rewrite <- app_assoc.
    + exists [Rest.Called (Rest.instances_is_pdf i) (Exc e)]. split; [done|]. done.
Qed.

Lemma pdf_series_answers max series : ∀ acc st,
  appends_pdf_answers acc st
    (Rest.for_fold series acc (fun pdf_ids series_id =>
       instances_ids ← Rest.call (Rest.series_get_instances_ids series_id);
       if (0 <? max)%Z && (Z.of_nat (length instances_ids) <=? max)%Z
       then Studies.collect_pdf pdf_ids instances_ids
       else mret pdf_ids) st).
Proof.
  unfold appends_pdf_answers.
  induction series as [|k series IH]; intros acc st.
  - exists []. cbn [Rest.for_fold]. rewrite rest_ret_unfold, !app_nil_r.
    split; [done|]. by intros res [= <-].
  - rewrite rest_for_fold_cons, rest_bind_unfold, rest_call_eq.
    destruct (Rest.handle E (Rest.series_get_instances_ids k) (Rest.world st))
      as [[l|e] w1]; cbn [fst snd].
    + set (st1 := Rest.mkState w1 _).
      destruct ((0 <? max)%Z && (Z.of_nat (length l) <=? max)%Z).
      * destruct (collect_pdf_answers l acc st1) as (evs1 & Htr1 & Hres1).
        destruct (Studies.collect_pdf acc l st1) as [[acc'|e] st2] eqn:Hc;
          cbn [fst snd] in *.
        -- destruct (IH acc' st2) as (evs2 & Htr2 & Hres2).
           exists (Rest.Called (Rest.series_get_instances_ids k) (Val l) :: evs1 ++ evs2).
           rewrite Htr2, Htr1. cbn [Rest.trace st1]. rewrite <- !app_assoc.
           split; [done|]. intros res Hout. rewrite (Hres2 res Hout), (Hres1 acc' eq_refl).
           cbn [omap list_omap pdf_answer]. by rewrite omap_app, <- app_assoc.
        -- exists (Rest.Called (Rest.series_get_instances_ids k) (Val l) :: evs1).
           rewrite Htr1. cbn [Rest.trace st1]. rewrite <- !app_assoc. done.
      * rewrite rest_ret_unfold. destruct (IH acc st1) as (evs2 & Htr2 & Hres2).
        exists (Rest.Called (Rest.series_get_instances_ids k) (Val l) :: evs2).
        rewrite Htr2. cbn [Rest.trace st1]. rewrite <- !app_assoc.
        split; [done|]. intros res Hout. by rewrite (Hres2 res Hout).
    + exists [Rest.Called (Rest.series_get_instances_ids k) (Exc e)]. split; [done|]. done.
Qed.

(** X17: [get_pdf_instances] returns the instances on which
    [is_pdf] has answered true during the call, each as many times as it
    was asked, in the order of the requests, and no other identifier. *)
Theorem studies_get_pdf_instances_answers study_id max st :
  ∃ evs,
    Rest.trace (Studies.get_pdf_instances study_id max st).2 = Rest.trace st ++ evs
    ∧ ∀ res, (Studies.get_pdf_instances study_id max st).1 = Val res →
             res = omap pdf_answer evs.
Proof.
  unfold Studies.get_pdf_instances, Studies.get_series_ids.
  rewrite !rest_bind_unfold, rest_call_eq.
  set (request := Rest.get_json_study (Studies.url_segment +:+ "/" +:+ study_id)).
  destruct (Rest.handle E request (Rest.world st)) as [[info|e] w1]; cbn [fst snd].
  - rewrite rest_ret_unfold.
    match goal with |- context [Rest.for_fold _ _ ?body ?s] =>
      destruct (pdf_series_answers max (Rest.Series info) [] s) as (evs & Htr & Hres) end.
    exists (Rest.Called request (Val info) :: evs).
    rewrite Htr. cbn [Rest.trace]. rewrite <- app_assoc. split; [done|].
    intros res Hout. by rewrite (Hres res Hout).
  - exists [Rest.Called request (Exc e)]. split; [done|]. done.
Qed.
End StudiesFacts.

(** ** [Instances.modify_bulk] *)

Section InstancesFacts.
Context {E : Rest.Env}.
Implicit Types (st : @Rest.State E).

(** [Resources.delete] of one resource leaves at most the request for
    it in the trace. *)
Lemma delete_one_events url_segment i st :
  ∃ evs,
    Rest.trace (Resources.delete url_segment (Some i) None st).2 = Rest.trace st ++ evs
    ∧ Forall (λ ev, ∃ a, ev = Rest.Called (delete_request url_segment i) a) evs.
Proof.
  rewrite delete_without_ids. unfold Resources.delete_one.
  case_bool_decide.
  - rewrite rest_call_eq. fold (delete_request url_segment i). eexists [_].
    split; [done|]. repeat constructor. by eexists.
  - exists []. by rewrite rest_ret_unfold, app_nil_r.
Qed.

Lemma modify_and_upload_outcome replace_tags remove_tags delete_original force acc i st :
  bulk_outcome delete_original [i] acc st
    (Instances.modify_and_upload replace_tags remove_tags delete_original force acc i st).
Proof.
  unfold bulk_outcome, Instances.modify_and_upload, Instances.modify.
  rewrite !rest_bind_unfold, rest_call_eq.
  match goal with |- context [Rest.handle E ?op (Rest.world st)] => set (request := op) end.
  destruct (Rest.handle E request (Rest.world st)) as [[r|e] w1]; cbn [fst snd].
  2:{ exists [Rest.Called request (Exc e)]. split_and!; try done.
      - intros _. by repeat constructor.
      - by repeat constructor. }
  set (dicom := if decide (Rest.status_code r = 200%Z) then Some (Rest.content r) else None).
  assert (∀ st1 : @Rest.State E,
            (if decide (Rest.status_code r = 200%Z)
             then (mret (Some (Rest.content r)) : Rest.M (option Rest.bytes))
             else mret None) st1 = (Val dicom, st1)) as -> by
    (intros st1; unfold dicom; by destruct (decide (Rest.status_code r = 200%Z))).
  rewrite !rest_bind_unfold, !rest_call_eq. cbn [Rest.world Rest.trace].
  destruct (Rest.handle E (Rest.upload dicom) w1) as [[uploaded|e] w2]; cbn [fst snd].
  2:{ exists [Rest.Called request (Val r); Rest.Called (Rest.upload dicom) (Exc e)].
      rewrite <- app_assoc. split_and!; try done.
      - intros _. by repeat constructor.
      - by repeat constructor. }
  rewrite !rest_bind_unfold.
  destruct uploaded as [|x uploaded]; cbn [lookup list_lookup Rest.of_option].
  { exists [Rest.Called request (Val r); Rest.Called (Rest.upload dicom) (Val [])].
    unfold Rest.raise. cbn [fst snd Rest.trace]. rewrite <- app_assoc.
    split_and!; try done.
    - intros _. by repeat constructor.
    - by repeat constructor. }
  rewrite !rest_ret_unfold, !rest_bind_unfold.
  set (st2 := Rest.mkState w2 _).
  destruct (delete_original && bool_decide (x ≠ i)) eqn:Hdel.
  - destruct (delete_one_events Instances.url_segment i st2) as (evs & Htr & Hevs).
    destruct (Resources.delete Instances.url_segment (Some i) None st2)
      as [[[]|e] st3]; cbn [fst snd] in *.
    + rewrite rest_ret_unfold. cbn [fst snd].
      exists (Rest.Called request (Val r) :: Rest.Called (Rest.upload dicom) (Val (x :: uploaded))
              :: evs).
      rewrite Htr. cbn [Rest.trace st2]. rewrite <- !app_assoc. split_and!; try done.
      * intros ->. done.
      * repeat (constructor; [done|]).
        eapply Forall_impl; [exact Hevs|]. intros ev [a ->] _.
        exists i, a. split; [left|done].
      * intros res [= <-]. cbn [omap list_omap upload_answer].
        assert (omap upload_answer evs = []) as ->.
        { clear -Hevs. induction Hevs as [|ev evs [a ->] _ IH]; [done|].
          cbn [omap list_omap upload_answer delete_request]. exact IH. }
        rewrite !length_app. done.
    + exists (Rest.Called request (Val r) :: Rest.Called (Rest.upload dicom) (Val (x :: uploaded))
              :: evs).
      rewrite Htr. cbn [Rest.trace st2]. rewrite <- !app_assoc. split_and!; try done.
      * intros ->. done.
      * repeat (constructor; [done|]).
        eapply Forall_impl; [exact Hevs|]. intros ev [a ->] _.
        exists i, a. split; [left|done].
  - rewrite !rest_ret_unfold. cbn [fst snd].
    exists [Rest.Called request (Val r); Rest.Called (Rest.upload dicom) (Val (x :: uploaded))].
    cbn [Rest.trace st2]. rewrite <- !app_assoc. split_and!; try done.
    + intros _. by repeat constructor.
    + by repeat constructor.
    + intros res [= <-]. cbn [omap list_omap upload_answer]. rewrite !length_app. done.
Qed.

Lemma modify_bulk_loop replace_tags remove_tags delete_original force ids : ∀ acc st,
  bulk_outcome delete_original ids acc st
    (Rest.for_fold ids acc
       (Instances.modify_and_upload replace_tags remove_tags delete_original force) st).
Proof.
  induction ids as [|i ids IH]; intros acc st.
  - exists []. cbn [Rest.for_fold]. rewrite rest_ret_unfold, app_nil_r.
    split_and!; try done. intros res [= <-]. by rewrite app_nil_r, Nat.add_0_r.
  - rewrite rest_for_fold_cons.
    destruct (modify_and_upload_outcome replace_tags remove_tags delete_original force
                acc i st) as (evs1 & Htr1 & Hno1 & Hdel1 & Hres1).
    destruct (Instances.modify_and_upload _ _ _ _ acc i st) as [[acc'|e] st1];
      cbn [fst snd] in *.
    + destruct (IH acc' st1) as (evs2 & Htr2 & Hno2 & Hdel2 & Hres2).
      destruct (Hres1 acc' eq_refl) as [Hacc' Hlen'].
      exists (evs1 ++ evs2). rewrite Htr2, Htr1, <- app_assoc. split_and!; try done.
      * intros Hd. apply Forall_app. split; auto.
      * apply Forall_app. split.
        -- eapply Forall_impl; [exact Hdel1|]. intros ev Hev Hd.
           destruct (Hev Hd) as (j & a & ->%list_elem_of_singleton & ->).
           exists i, a. split; [left|done].
        -- eapply Forall_impl; [exact Hdel2|]. intros ev Hev Hd.
           destruct (Hev Hd) as (j & a & Hj & ->). exists j, a. split; [by right|done].
      * intros res Hout. destruct (Hres2 res Hout) as [-> Hlen].
        rewrite omap_app, app_assoc, <- Hacc'. split; [done|].
        rewrite Hlen, Hlen'. cbn [length]. lia.
    + exists evs1. split_and!; try done.
      eapply Forall_impl; [exact Hdel1|]. intros ev Hev Hd.
      destruct (Hev Hd) as (j & a & ->%list_elem_of_singleton & ->).
      exists i, a. split; [left|done].
Qed.

(** X18: [modify_bulk] returns one identifier per identifier that it
    is given, in order: the first identifier of the answer to each of its
    uploads.  The only resources that it asks to delete are instances
    that it was given, and it asks for no deletion when [delete_original]
    is not set. *)
Theorem instances_modify_bulk_outcome orthanc_ids replace_tags remove_tags
    delete_original force st :
  ∃ evs,
    Rest.trace (Instances.modify_bulk orthanc_ids replace_tags remove_tags
                  delete_original force st).2 = Rest.trace st ++ evs
    ∧ (delete_original = false → Forall (λ ev, is_delete ev = false) evs)
    ∧ Forall (λ ev, is_delete ev = true →
                ∃ i a, i ∈ orthanc_ids ∧ ev = Rest.Called (delete_request "instances" i) a)
             evs
    ∧ ∀ res, (Instances.modify_bulk orthanc_ids replace_tags remove_tags
                delete_original force st).1 = Val res →
        res = omap upload_answer evs ∧ length res = length orthanc_ids.
Proof.
  destruct (modify_bulk_loop replace_tags remove_tags delete_original force orthanc_ids [] st)
    as (evs & Htr & Hno & Hdel & Hres).
  exists evs. split_and!; try done.
Qed.
End InstancesFacts.

(** ** The theorems about the resource classes on the sample server *)

(** The studies [S3], [S4] and [S1] are deleted, in this order; the empty
    identifier is passed over. *)
Lemma resources_delete_requests_witness :
  ∃ w,
    Resources.delete "studies" (Some "S1") (Some ["S3"; ""; "S4"]) (rest_sample_state 0) =
      (Val tt,
       @Rest.mkState rest_sample_env w
         [Rest.Called (delete_request "studies" "S3") (Val tt);
          Rest.Called (delete_request "studies" "S4") (Val tt);
          Rest.Called (delete_request "studies" "S1") (Val tt)]).
Proof.
  destruct (@resources_delete_requests rest_sample_env "studies" (Some "S1")
              (Some ["S3"; ""; "S4"]) (rest_sample_state 0))
    as [(w & Hrun)|(pre & i & post & e & w & _ & Hrun)].
  - exists w. exact Hrun.
  - vm_compute in Hrun. discriminate.
Defined.

(** The studies are listed and deleted; the patient [S2] cannot be
    deleted, and [P3] is not asked for. *)
Lemma resources_delete_all_requests_witness :
  (∃ w,
     Resources.delete_all "studies" (rest_sample_state 0) =
       (Val ["S1"; ""; "S9"],
        @Rest.mkState rest_sample_env w
          [Rest.Called (Rest.get_json_ids "/studies/") (Val ["S1"; ""; "S9"]);
           Rest.Called (delete_request "studies" "S1") (Val tt);
           Rest.Called (delete_request "studies" "S9") (Val tt)]))
  ∧ (∃ e w,
       Resources.delete_all "patients" (rest_sample_state 0) =
         (Exc e,
          @Rest.mkState rest_sample_env w
            [Rest.Called (Rest.get_json_ids "/patients/") (Val ["P1"; "S2"; "P3"]);
             Rest.Called (delete_request "patients" "P1") (Val tt);
             Rest.Called (delete_request "patients" "S2") (Exc e)])).
Proof.
  split.
  - destruct (@resources_delete_all_requests rest_sample_env "studies"
                (rest_sample_state 0) ["S1"; ""; "S9"] 1 eq_refl)
      as [(w & Hrun)|(pre & i & post & e & w & _ & Hrun)].
    + exists w. exact Hrun.
    + vm_compute in Hrun. discriminate.
  - destruct (@resources_delete_all_requests rest_sample_env "patients"
                (rest_sample_state 0) ["P1"; "S2"; "P3"] 1 eq_refl)
      as [(w & Hrun)|(pre & i & post & e & w & Hpre & Hrun)].
    + vm_compute in Hrun. discriminate.
    + clear Hpre Hrun. eexists _, _. by vm_compute.
Defined.

(** Anonymizing [S1] gives [S1a] and deletes [S1]; modifying [S1] gives
    [S1] itself, which is not deleted. *)
Lemma resources_replace_original_witness :
  Resources._anonymize "studies" "S1" None None true false (rest_sample_state 0) =
    (Val (Some "S1a"),
     @Rest.mkState rest_sample_env 2
       [Rest.Called (Rest.post "/studies/S1/anonymize" (Rest.mkQuery false None None None))
          (Val (Rest.mkResponse 200 "S1a" [] None));
        Rest.Called (delete_request "studies" "S1") (Val tt)])
  ∧ Resources._modify "studies" "S1" None None true false (rest_sample_state 0) =
      (Val (Some "S1"),
       @Rest.mkState rest_sample_env 1
         [Rest.Called (Rest.post "/studies/S1/modify" (Rest.mkQuery false None None None))
            (Val (Rest.mkResponse 200 "S1" [] None))]).
Proof.
  destruct (@resources_replace_original rest_sample_env "studies" "S1" None None None
              true false) as [Hanonymize Hmodify].
  split.
  - destruct (Hanonymize (rest_sample_state 0) (Rest.mkResponse 200 "S1a" [] None) 1 eq_refl)
      as (_ & _ & Hdelete).
    by rewrite Hdelete.
  - destruct (Hmodify (rest_sample_state 0) (Rest.mkResponse 200 "S1" [] None) 1 eq_refl)
      as (_ & Hkeep & _).
    rewrite Hkeep; [done|done|]. right. by left.
Defined.

(** The metadata of [S1] is there, the one of [S9] is not, and the
    request for the one of [S2] fails otherwise. *)
Lemma resources_get_metadata_default_witness :
  Resources.get_metadata "studies" "S1" "LastUpdate" None (rest_sample_state 0) =
    (Val (Some [Byte.x32; Byte.x30]),
     @Rest.mkState rest_sample_env 1
       [Rest.Called (Rest.get "/studies/S1/metadata/LastUpdate" [])
          (Val (Rest.mkResponse 200 "" [Byte.x32; Byte.x30] (Some "7")))])
  ∧ Resources.get_metadata "studies" "S9" "LastUpdate" (Some [Byte.x30])
      (rest_sample_state 0) =
      (Val (Some [Byte.x30]),
       @Rest.mkState rest_sample_env 1
         [Rest.Called (Rest.get "/studies/S9/metadata/LastUpdate" [])
            (Exc (External "ResourceNotFound"))])
  ∧ Resources.get_metadata "studies" "S2" "LastUpdate" (Some [Byte.x30])
      (rest_sample_state 0) =
      (Exc (External "HttpError"),
       @Rest.mkState rest_sample_env 1
         [Rest.Called (Rest.get "/studies/S2/metadata/LastUpdate" [])
            (Exc (External "HttpError"))])
  ∧ Resources.get_attachment "studies" "S9" "report" (rest_sample_state 0) =
      (Exc (External "ResourceNotFound"),
       @Rest.mkState rest_sample_env 1
         [Rest.Called (Rest.get "/studies/S9/attachments/report/data" [])
            (Exc (External "ResourceNotFound"))]).
Proof.
  split_and!.
  - destruct (@resources_get_metadata_default rest_sample_env "studies" "S1" "LastUpdate"
                "report" None (rest_sample_state 0)) as (_ & _ & Hthere & _).
    by destruct (Hthere (Rest.mkResponse 200 "" [Byte.x32; Byte.x30] (Some "7")) 1 eq_refl).
  - destruct (@resources_get_metadata_default rest_sample_env "studies" "S9" "LastUpdate"
                "report" (Some [Byte.x30]) (rest_sample_state 0)) as (Hmissing & _).
    by destruct (Hmissing (External "ResourceNotFound") 1 eq_refl eq_refl).
  - destruct (@resources_get_metadata_default rest_sample_env "studies" "S2" "LastUpdate"
                "report" (Some [Byte.x30]) (rest_sample_state 0)) as (_ & Hother & _).
    exact (Hother (External "HttpError") 1 eq_refl eq_refl).
  - destruct (@resources_get_metadata_default rest_sample_env "studies" "S9" "LastUpdate"
                "report" None (rest_sample_state 0)) as (_ & _ & _ & Hattachment).
    exact (Hattachment (External "ResourceNotFound") 1 eq_refl).
Defined.

(** The first instance of [S1] is [i1], after the requests for both of
    its series; [S9] has none. *)
Lemma studies_get_first_instance_id_witness :
  Studies.get_first_instance_id "S1" (rest_sample_state 0) =
    (Val "i1",
     @Rest.mkState rest_sample_env 3
       [Rest.Called (Rest.get_json_study "studies/S1") (Val (Rest.mkStudyInfo ["A"; "B"] "P1"));
        Rest.Called (Rest.series_get_instances_ids "A") (Val ["i1"; "i2"]);
        Rest.Called (Rest.series_get_instances_ids "B") (Val ["i3"])])
  ∧ Studies.get_first_instance_id "S9" (rest_sample_state 0) =
      (Exc IndexError,
       @Rest.mkState rest_sample_env 1
         [Rest.Called (Rest.get_json_study "studies/S9") (Val (Rest.mkStudyInfo [] "P1"))]).
Proof.
  split.
  - destruct (@studies_get_first_instance_id rest_sample_env "S1" (rest_sample_state 0)
                (Rest.mkStudyInfo ["A"; "B"] "P1") 1 [["i1"; "i2"]; ["i3"]] 3
                [Rest.Called (Rest.series_get_instances_ids "A") (Val ["i1"; "i2"]);
                 Rest.Called (Rest.series_get_instances_ids "B") (Val ["i3"])]
                eq_refl eq_refl) as (_ & _ & Hfirst).
    exact Hfirst.
  - destruct (@studies_get_first_instance_id rest_sample_env "S9" (rest_sample_state 0)
                (Rest.mkStudyInfo [] "P1") 1 [] 1 [] eq_refl eq_refl) as (_ & _ & Hfirst).
    exact Hfirst.
Defined.

(** With the maximum 0 the PDF [i3] of the study [S1] is not found. *)
Lemma studies_get_pdf_instances_without_maximum_witness :
  Studies.get_pdf_instances "S1" 0 (rest_sample_state 0) =
    (Val [],
     @Rest.mkState rest_sample_env 3
       [Rest.Called (Rest.get_json_study "studies/S1") (Val (Rest.mkStudyInfo ["A"; "B"] "P1"));
        Rest.Called (Rest.series_get_instances_ids "A") (Val ["i1"; "i2"]);
        Rest.Called (Rest.series_get_instances_ids "B") (Val ["i3"])]).
Proof.
  destruct (@studies_get_pdf_instances_without_maximum rest_sample_env "S1" 0%Z
              (rest_sample_state 0) (Rest.mkStudyInfo ["A"; "B"] "P1") 1
              [["i1"; "i2"]; ["i3"]] 3
              [Rest.Called (Rest.series_get_instances_ids "A") (Val ["i1"; "i2"]);
               Rest.Called (Rest.series_get_instances_ids "B") (Val ["i3"])])
    as [Hrun _]; done.
Defined.

(** With the maximum 2 it is. *)
Lemma studies_get_pdf_instances_answers_witness :
  ∃ evs,
    Rest.trace (Studies.get_pdf_instances "S1" 2 (rest_sample_state 0)).2 = evs
    ∧ (Studies.get_pdf_instances "S1" 2 (rest_sample_state 0)).1 = Val ["i3"]
    ∧ omap pdf_answer evs = ["i3"].
Proof.
  destruct (@studies_get_pdf_instances_answers rest_sample_env "S1" 2%Z (rest_sample_state 0))
    as (evs & Htrace & Hres).
  exists evs. split_and!; [exact Htrace|by vm_compute|].
  symmetry. apply Hres. by vm_compute.
Defined.

(** The instance [i1] is modified, uploaded as [n1] and deleted. *)
Lemma instances_modify_bulk_outcome_witness :
  ∃ evs,
    Rest.trace (Instances.modify_bulk ["i1"] None None true false (rest_sample_state 0)).2 = evs
    ∧ (Instances.modify_bulk ["i1"] None None true false (rest_sample_state 0)).1 = Val ["n1"]
    ∧ omap upload_answer evs = ["n1"]
    ∧ filter (λ ev, is_delete ev = true) evs
      = [Rest.Called (delete_request "instances" "i1") (Val tt)].
Proof.
  destruct (@instances_modify_bulk_outcome rest_sample_env ["i1"] None None true false
              (rest_sample_state 0)) as (evs & Htrace & _ & _ & Hres).
  exists evs. split_and!; [exact Htrace|by vm_compute| |].
  - symmetry. apply Hres. by vm_compute.
  - vm_compute in Htrace. by rewrite <- Htrace.
Defined.
